(** * Role_Creator: the CSV to RDF/XML pipeline

    A shallow embedding of [modules/csv_reader.py], [modules/xml_generator.py]
    and [modules/csv_processor.py], and the properties of the specification
    checked against it.

    Conventions of the model.
    - A Python [str] is a [string]; every [ascii] stands for one code point
      below 256, and [lower], [isspace] follow Python's tables on that range.
    - A Python [dict] is an association list in insertion order with unique
      keys ([dict_set] overwrites in place, as Python does).
    - An exception is a value of [exn]; code that can raise returns a
      [result].
    - What the standard library and lxml do is a parameter of the code
      that calls them, failures included: a decoder returns a text or an
      exception, the CSV reader may end in an exception of its own, and
      the XML writer may refuse an element or a text. *)

From Stdlib Require Import String Ascii NArith ZArith QArith List Bool Lia Sorted.
From stdpp Require Import base option list strings gmap.

Import ListNotations.

(** ** Python builtins used by the three modules *)

Module Py.

(** Exceptions the modelled code raises or lets through. *)
Inductive exn : Type :=
  | KeyError (key : string)
  | ValueError
  | AttributeError
  | TypeError
  | IndexError
  | OSError
  | XMLSyntaxError
  | LxmlSyntaxError
  | UnicodeDecodeError
  | LookupError
  | CsvError.

Inductive result (A : Type) : Type :=
  | Ok (a : A)
  | Raise (e : exn).
Arguments Ok {A} a.
Arguments Raise {A} e.

Definition bind {A B} (r : result A) (k : A -> result B) : result B :=
  match r with
  | Ok a => k a
  | Raise e => Raise e
  end.

Definition is_ok {A} (r : result A) : bool :=
  match r with Ok _ => true | Raise _ => false end.

Definition ord (c : ascii) : N := N_of_ascii c.

(** [str.isspace] on one character. *)
Definition isspace (c : ascii) : bool :=
  let n := ord c in
  ((9 <=? n) && (n <=? 13) || (28 <=? n) && (n <=? 32)
   || (n =? 133) || (n =? 160))%N.

(** [str.lower] on one character: A-Z and the Latin-1 capitals. *)
Definition lower_char (c : ascii) : ascii :=
  let n := ord c in
  if ((65 <=? n) && (n <=? 90)
      || (192 <=? n) && (n <=? 222) && negb (n =? 215))%N
  then ascii_of_N (n + 32)
  else c.

Fixpoint lower (s : string) : string :=
  match s with
  | EmptyString => EmptyString
  | String c s' => String (lower_char c) (lower s')
  end.

Definition is_empty (s : string) : bool :=
  match s with EmptyString => true | _ => false end.

(** [s.lstrip(chars)], [s.rstrip(chars)], [s.strip(chars)] for a character
    class [p]. *)
Fixpoint lstrip_by (p : ascii -> bool) (s : string) : string :=
  match s with
  | EmptyString => EmptyString
  | String c s' => if p c then lstrip_by p s' else s
  end.

Fixpoint rstrip_by (p : ascii -> bool) (s : string) : string :=
  match s with
  | EmptyString => EmptyString
  | String c s' =>
      let r := rstrip_by p s' in
      if is_empty r && p c then EmptyString else String c r
  end.

Definition strip_by (p : ascii -> bool) (s : string) : string :=
  rstrip_by p (lstrip_by p s).

(** [s.strip()] *)
Definition strip (s : string) : string := strip_by isspace s.

(** [s.startswith(p)] *)
Fixpoint startswith (p s : string) : bool :=
  match p, s with
  | EmptyString, _ => true
  | String a p', String b s' => if Ascii.eqb a b then startswith p' s' else false
  | String _ _, EmptyString => false
  end.

(** [sub in s] *)
Fixpoint contains (sub s : string) : bool :=
  startswith sub s ||
  match s with
  | EmptyString => false
  | String _ s' => contains sub s'
  end.

(** [s.endswith(suffix)]: some tail of [s], [s] itself and the empty one
    included, is the suffix. *)
Fixpoint endswith (suffix s : string) : bool :=
  String.eqb suffix s ||
  match s with
  | EmptyString => false
  | String _ s' => endswith suffix s'
  end.

(** [s.replace(old, '')] for a non-empty [old]: occurrences are removed left
    to right without overlap; [skip] counts the characters of a match still
    to be dropped. *)
Fixpoint remove_from (old : string) (skip : nat) (s : string) : string :=
  match s with
  | EmptyString => EmptyString
  | String c s' =>
      match skip with
      | S k => remove_from old k s'
      | O =>
          if startswith old s
          then remove_from old (Nat.pred (String.length old)) s'
          else String c (remove_from old 0 s')
      end
  end.

Definition remove_all (old s : string) : string := remove_from old 0 s.

(** *** [int(s, 16)]

    CPython reads the text after mapping non-ASCII spaces to a blank, so the
    blanks it skips are the C ones and the two Latin-1 spaces. *)
Definition int_space (c : ascii) : bool :=
  let n := ord c in
  ((9 <=? n) && (n <=? 13) || (n =? 32) || (n =? 133) || (n =? 160))%N.

Definition hex_value (c : ascii) : option Z :=
  let n := ord c in
  if ((48 <=? n) && (n <=? 57))%N then Some (Z.of_N (n - 48))
  else if ((97 <=? n) && (n <=? 102))%N then Some (Z.of_N (n - 87))
  else if ((65 <=? n) && (n <=? 70))%N then Some (Z.of_N (n - 55))
  else None.

Definition is_hex (c : ascii) : bool :=
  match hex_value c with Some _ => true | None => false end.

Definition is_underscore (c : ascii) : bool := Ascii.eqb c "_".

(** The digit loop: hex digits with single underscores between them, then
    optional blanks up to the end.  [acc] is the value read so far, [prev_us]
    tells whether the previous character was an underscore and [any] whether
    a digit has been read. *)
Fixpoint int16_digits (acc : Z) (prev_us any : bool) (s : string) : option Z :=
  match s with
  | EmptyString => if prev_us || negb any then None else Some acc
  | String c s' =>
      match hex_value c with
      | Some d => int16_digits (16 * acc + d) false true s'
      | None =>
          if is_underscore c
          then if prev_us then None else int16_digits acc true any s'
          else if prev_us || negb any then None
               else if is_empty (lstrip_by int_space s) then Some acc else None
      end
  end.

(** After the sign: an optional [0x] or [0X], one optional underscore, and
    no further leading underscore. *)
Definition int16_unsigned (s : string) : option Z :=
  let body :=
    match s with
    | String "0" (String x rest) =>
        if Ascii.eqb x "x" || Ascii.eqb x "X"
        then match rest with
             | String "_" rest' => rest'
             | _ => rest
             end
        else s
    | _ => s
    end in
  match body with
  | String "_" _ => None
  | _ => int16_digits 0 false false body
  end.

Definition int16 (s : string) : result Z :=
  let s1 := lstrip_by int_space s in
  let r :=
    match s1 with
    | String "+" s2 => int16_unsigned s2
    | String "-" s2 => option_map Z.opp (int16_unsigned s2)
    | _ => int16_unsigned s1
    end in
  match r with
  | Some z => Ok z
  | None => Raise ValueError
  end.

(** *** Dictionaries *)

Section Dict.
Context {K V : Type} `{EqDecision K}.

Fixpoint dict_get (d : list (K * V)) (k : K) : option V :=
  match d with
  | [] => None
  | (k', v) :: d' => if decide (k' = k) then Some v else dict_get d' k
  end.

(** [d[k] = v] *)
Fixpoint dict_set (d : list (K * V)) (k : K) (v : V) : list (K * V) :=
  match d with
  | [] => [(k, v)]
  | (k', v') :: d' =>
      if decide (k' = k) then (k', v) :: d' else (k', v') :: dict_set d' k v
  end.

(** [dict(pairs)], and the dict comprehension over pairs. *)
Definition dict_of (l : list (K * V)) : list (K * V) :=
  fold_left (fun d kv => dict_set d kv.1 kv.2) l [].

Definition dict_keys (d : list (K * V)) : list K := map fst d.
End Dict.

End Py.

(** ** Logging

    A logger is known by its name; what it is told is kept as a record with
    the level and the message.  Messages are kept structured, one constructor
    per format string of the source. *)

Module Log.

Definition Logger := string.

Inductive level : Type := DEBUG | INFO | WARNING | ERROR.

Definition Row := list (string * option string).

(** What [check_required_fields] reports. *)
Inductive err_msg : Type :=
  | NoError                                   (* the empty string *)
  | FieldMissing (field : string)             (* field absent or empty *)
  | FieldNotUuid (field uid_str : string).    (* field is not a valid UUID *)

Inductive message : Type :=
  (* csv_reader *)
  | DecodeFailed (enc : string)
  | OpenedWithReplacement (enc : string)
  | OpenedWith (used_encoding : string)
  | RowRejected (line_num : nat) (err : err_msg) (row : Row)
  | CsvFailed (csv_file_path : string) (e : Py.exn)
  (* xml_generator *)
  | StructureStart (object_uid_field object_uid : string)
  | TemplateFieldMissing (e : Py.exn) (data : Row)
  | UidsGenerated (role privilege datagroup objectref : string)
  | NamesGenerated (role_name datagroup_name : string)
  | StructureDone (object_uid_field : string) (object_uid : option string)
  (* csv_processor *)
  | FileStart (csv_file_path xml_file_path : string)
  | EncodingDetected (encoding : string)
  | EncodingFailed (csv_file_path : string) (e : Py.exn)
  | AddingFullModel
  | RowProcessing (line_num : nat) (keys : list string)
  | RolesAdded (roles_added : nat)
  | XmlStart
  | XmlFormatting
  | XmlSaved (xml_file_path : string)
  | XmlFailed (xml_file_path : string) (e : Py.exn)
  | BatchFileStart (csv_filename : string)
  | BatchFileDone (csv_filename : string) (success : bool).

Record record : Type := mkRecord {
  rec_logger : Logger;
  rec_level : level;
  rec_msg : message
}.

(** [if logger: logger.<level>(msg)] *)
Definition tell (logger : option Logger) (lv : level) (m : message) : list record :=
  match logger with
  | Some l => [mkRecord l lv m]
  | None => []
  end.

End Log.

(** ** modules/csv_reader.py *)

Module csv_reader.
Import Py Log.

(** [uuid.UUID(hex)] of the standard library, up to the 128-bit integer it
    stores: markers and dashes are removed, braces stripped, and exactly 32
    characters must remain and read as a base-16 integer in range. *)
Definition is_brace (c : ascii) : bool := Ascii.eqb c "{" || Ascii.eqb c "}".

Definition uuid_hex (val : string) : string :=
  let hex := remove_all "uuid:" (remove_all "urn:" val) in
  remove_all "-" (strip_by is_brace hex).

Definition UUID (val : string) : result Z :=
  let hex := uuid_hex val in
  if negb (String.length hex =? 32)%nat then Raise ValueError
  else
    bind (int16 hex) (fun int =>
      if negb ((0 <=? int) && (int <? 2 ^ 128))%Z then Raise ValueError
      else Ok int).

(** The argument is always a [str] here, so the [isinstance] test of the
    source is settled by the type; [ValueError] is all [UUID] raises. *)
Definition is_valid_uuid (val : string) : bool :=
  match UUID val with
  | Ok _ => true
  | Raise _ => false
  end.


(** [str(val)] for a cell that is a string or [None]. *)
Definition str_of (val : option string) : string :=
  match val with
  | Some s => s
  | None => "None"
  end.

Definition is_none {A} (o : option A) : bool :=
  match o with None => true | Some _ => false end.

(** [row.get(field)]: [None] when the key is absent, else the stored cell,
    which is itself [None] for a cell the line did not have. *)
Definition row_get (row : Row) (field : string) : option string :=
  match dict_get row field with
  | Some val => val
  | None => None
  end.

Fixpoint check_required_fields (row : Row) (required_fields : list string)
  : bool * err_msg :=
  match required_fields with
  | [] => (true, NoError)
  | field :: rest =>
      let val := row_get row field in
      if is_none val || is_empty (strip (str_of val))
      then (false, FieldMissing field)
      else if contains "_uid" (lower field)
      then
        let uid_str := strip (str_of val) in
        if negb (is_valid_uuid uid_str)
        then (false, FieldNotUuid field uid_str)
        else check_required_fields row rest
      else check_required_fields row rest
  end.

(** *** [csv.DictReader]

    One item of the reader: the dict built from the field names and the
    cells of a line.  Cells beyond the field names are filed as a list under
    the key [None] ([restkey]); here they are kept apart in [surplus], the
    only entry whose key is not a string.  Missing cells are [None]
    ([restval]). *)
Record dict_row : Type := mkDictRow {
  named : Row;
  surplus : option (list string)
}.

Definition DictReader_row (fieldnames : list string) (cells : list string)
  : dict_row :=
  let d := dict_of (zip fieldnames (map Some cells)) in
  let lf := length fieldnames in
  let lr := length cells in
  if (lf <? lr)%nat then mkDictRow d (Some (drop lf cells))
  else if (lr <? lf)%nat
  then mkDictRow (fold_left (fun d key => dict_set d key None)
                            (drop lr fieldnames) d) None
  else mkDictRow d None.

Definition nonblank (cells : list string) : bool :=
  match cells with [] => false | _ => true end.

(** The reader skips the lines [csv.reader] returns as [[]]. *)
Definition DictReader (fieldnames : list string) (lines : list (list string))
  : list dict_row :=
  map (DictReader_row fieldnames) (filter (fun cells => nonblank cells = true) lines).

(** [{k.strip().lower(): v for k, v in row.items()}]; the key [None] has no
    [strip]. *)
Definition normalize_row (row : dict_row) : result Row :=
  let d := dict_of (map (fun kv => (lower (strip kv.1), kv.2)) (named row)) in
  match surplus row with
  | Some _ => Raise AttributeError
  | None => Ok d
  end.

(** What the generator does, in order: a log record, a yielded pair, or at
    the very end an exception that leaves the generator and reaches the
    code iterating over it. *)
Inductive event : Type :=
  | Logged (r : record)
  | Yield (line_num : nat) (row : Row)
  | Throw (e : exn).

Definition logged (rs : list record) : list event := map Logged rs.

Section Reader.
(** The pieces of the standard library the reader relies on.
    [open(path, encoding=enc, errors='strict').read()] gives the text or
    raises: [UnicodeDecodeError] for bytes the codec cannot read,
    [LookupError] for a label Python has no codec for.  The same with
    [errors='replace'] is only reached with a label that has a codec.
    [csv.reader] is read line by line: [csv_reader_lines] is the lines it
    gives, and [csv_reader_error] the exception that ends the reading after
    them, if one does ([csv.Error] for a field beyond the size limit). *)
Variable decode_strict : string -> list Byte.byte -> result string.
Variable decode_replace : string -> list Byte.byte -> string.
Variable csv_reader_lines : string -> string -> list (list string).
Variable csv_reader_error : string -> string -> option exn.
(** [get_config_value('csv_processing.default_delimiter', ';')] *)
Variable default_delimiter : string.

Definition encodings_to_try (encoding : string) : list string :=
  [encoding; "cp1251"; "utf-8"; "utf-8-sig"].

(** The [for enc in encodings_to_try] loop: the records logged, and the
    text with the encoding used when the loop ends in [break], [None] when
    it ends in its [else].  Only [UnicodeDecodeError] is caught: any other
    exception leaves the loop, and the generator. *)
Fixpoint try_encodings (logger : option Logger) (raw : list Byte.byte)
    (encs : list string) : list record * result (option (string * string)) :=
  match encs with
  | [] => ([], Ok None)
  | enc :: rest =>
      match decode_strict enc raw with
      | Ok content => ([], Ok (Some (content, enc)))
      | Raise UnicodeDecodeError =>
          let '(recs, r) := try_encodings logger raw rest in
          (tell logger WARNING (DecodeFailed enc) ++ recs, r)
      | Raise e => ([], Raise e)
      end
  end.

(** Lines 92-118: the text of the file and the encoding it was read in. *)
Definition read_content (logger : option Logger) (raw : list Byte.byte)
    (encoding : string) : list record * result (string * string) :=
  let '(recs, r) := try_encodings logger raw (encodings_to_try encoding) in
  match r with
  | Raise e => (recs, Raise e)
  | Ok found =>
      let '(recs', content, used_encoding) :=
        match found with
        | Some (content, used) => (recs, content, used)
        | None =>
            (recs ++ tell logger ERROR (OpenedWithReplacement encoding),
             decode_replace encoding raw, encoding)
        end in
      (recs' ++ tell logger INFO (OpenedWith used_encoding),
       Ok (content, used_encoding))
  end.

(** The [for line_num, row in enumerate(reader, start=2)] loop inside the
    [try]; an exception ends the generator after one error record.
    [at_end] is what happens when the reader is asked for a row after the
    last one. *)
Fixpoint rows_loop (csv_file_path : string) (required_fields : list string)
    (logger : option Logger) (line_num : nat) (rows : list dict_row)
    (at_end : list event) : list event :=
  match rows with
  | [] => at_end
  | r :: rest =>
      match normalize_row r with
      | Raise e => logged (tell logger ERROR (CsvFailed csv_file_path e))
      | Ok row =>
          let '(ok, err_msg) := check_required_fields row required_fields in
          if negb ok
          then logged (tell logger ERROR (RowRejected line_num err_msg row))
               ++ rows_loop csv_file_path required_fields logger (S line_num)
                            rest at_end
          else Yield line_num row
               :: rows_loop csv_file_path required_fields logger (S line_num)
                            rest at_end
      end
  end.

(** The [except Exception] of line 139 for an exception raised by the
    reader itself. *)
Definition reader_raised (csv_file_path : string) (logger : option Logger)
    (error : option exn) : list event :=
  match error with
  | Some e => logged (tell logger ERROR (CsvFailed csv_file_path e))
  | None => []
  end.

(** Lines 120-142.  [reader.fieldnames] is the first line; when there is
    none it is the reader's exception, or [None] for an empty text, which
    the list comprehension cannot iterate. *)
Definition parse_rows (csv_file_path : string) (required_fields : list string)
    (logger : option Logger) (delimiter content : string) : list event :=
  let error := csv_reader_error delimiter content in
  match csv_reader_lines delimiter content with
  | [] =>
      match error with
      | Some e => reader_raised csv_file_path logger error
      | None => logged (tell logger ERROR (CsvFailed csv_file_path TypeError))
      end
  | header :: lines =>
      let fieldnames := map (fun field => lower (strip field)) header in
      rows_loop csv_file_path required_fields logger 2
                (DictReader fieldnames lines)
                (reader_raised csv_file_path logger error)
  end.

(** The generator run to its end on a file whose bytes are [raw]. *)
Definition iter_csv_rows (csv_file_path : string) (raw : list Byte.byte)
    (encoding : string) (required_fields : list string)
    (logger : option Logger) (delimiter : option string) : list event :=
  let delimiter :=
    match delimiter with
    | Some d => d
    | None => default_delimiter
    end in
  let '(recs, r) := read_content logger raw encoding in
  logged recs
  ++ match r with
     | Ok (content, _) =>
         parse_rows csv_file_path required_fields logger delimiter content
     | Raise e => [Throw e]
     end.

(** The pairs the generator yields. *)
Definition yields (evs : list event) : list (nat * Row) :=
  omap (fun ev => match ev with
                  | Yield n row => Some (n, row)
                  | Logged _ | Throw _ => None
                  end) evs.

Definition records (evs : list event) : list record :=
  omap (fun ev => match ev with
                  | Logged r => Some r
                  | Yield _ _ | Throw _ => None
                  end) evs.
End Reader.

Section Listing.
(** [os.listdir(directory)], [None] when the directory cannot be listed, and
    what [get_config_value('file_management.exclude_files', ['Sample.csv'])]
    returns. *)
Variable os_listdir : string -> option (list string).
Variable cfg_exclude_files : list string.

(** The names are kept as listed; the tests are made on their lower-cased
    form, as are the excluded names. *)
Definition get_csv_files (directory : string)
    (exclude_files : option (list string)) : result (list string) :=
  let exclude_files :=
    match exclude_files with
    | None => cfg_exclude_files
    | Some given => given
    end in
  let exclude_files := map lower exclude_files in
  match os_listdir directory with
  | None => Raise OSError
  | Some names =>
      Ok (filter (fun f => endswith ".csv" (lower f) = true
                           /\ lower f ∉ exclude_files) names)
  end.
End Listing.

End csv_reader.

(** ** The world the pipeline runs in

    Files, the readings taken from the random UUID source and from the
    clock, the log, and what the open [xmlfile] has been told so far. *)

Module World.
Import Py Log.

(** What an incremental [xmlfile] writer is asked to write. *)
Inductive xml_event : Type :=
  | Declaration
  | StartElement (tag : string) (attrib nsmap : list (string * string))
  | Characters (text : string)
  | EndElement (tag : string).

Record world : Type := mkWorld {
  fs : gmap string (list Byte.byte);
  uids : nat;
  clock : nat;
  log : list record;
  xf : list xml_event
}.

Definition set_fs (f : gmap string (list Byte.byte)) (w : world) : world :=
  mkWorld f (uids w) (clock w) (log w) (xf w).
Definition set_uids (n : nat) (w : world) : world :=
  mkWorld (fs w) n (clock w) (log w) (xf w).
Definition set_clock (n : nat) (w : world) : world :=
  mkWorld (fs w) (uids w) n (log w) (xf w).
Definition set_log (l : list record) (w : world) : world :=
  mkWorld (fs w) (uids w) (clock w) l (xf w).
Definition set_xf (x : list xml_event) (w : world) : world :=
  mkWorld (fs w) (uids w) (clock w) (log w) x.

(** Computations that change the world and may raise. *)
Definition M (A : Type) : Type := world -> result A * world.

Definition ret {A} (a : A) : M A := fun w => (Ok a, w).

Definition raise {A} (e : exn) : M A := fun w => (Raise e, w).

Definition mbind {A B} (m : M A) (k : A -> M B) : M B :=
  fun w =>
    match m w with
    | (Ok a, w') => k a w'
    | (Raise e, w') => (Raise e, w')
    end.

(** [try: m except Exception as e: h e] *)
Definition try_except {A} (m : M A) (h : exn -> M A) : M A :=
  fun w =>
    match m w with
    | (Ok a, w') => (Ok a, w')
    | (Raise e, w') => h e w'
    end.

(** A context manager's exit: [fin] runs whether or not [m] raised. *)
Definition finally {A} (m : M A) (fin : world -> world) : M A :=
  fun w => let '(r, w') := m w in (r, fin w').

Definition lift {A} (r : result A) : M A := fun w => (r, w).

Definition say (logger : option Logger) (lv : level) (m : message) : M unit :=
  fun w => (Ok tt, set_log (log w ++ tell logger lv m) w).

Definition say_all (rs : list record) : M unit :=
  fun w => (Ok tt, set_log (log w ++ rs) w).

Definition emit (ev : xml_event) : M unit :=
  fun w => (Ok tt, set_xf (xf w ++ [ev]) w).

End World.

Declare Scope py_scope.
Delimit Scope py_scope with py.
Notation "x <- c ;; k" := (World.mbind c (fun x => k))
  (at level 20, c at level 99, k at level 200, only parsing) : py_scope.
Notation "c ;; k" := (World.mbind c (fun _ => k))
  (at level 100, k at level 200, only parsing, right associativity) : py_scope.

(** ** modules/xml_generator.py *)

Module xml_generator.
Import Py Log World csv_reader.
Local Open Scope py_scope.

(** A format string as Python reads it, left to right: literal text,
    replacement fields that are a bare argument name, replacement fields
    whose argument name is followed by attribute or index lookups, a
    conversion or a format specification, and text that opens or closes a
    field without being one.  For a field of the third kind [finish] is
    what Python makes of the value found for the name, given the keyword
    arguments for the fields nested in the specification: a text, or the
    exception of a failed lookup, conversion or specification. *)
Inductive piece : Type :=
  | Literal (text : string)
  | Field (arg_name : string)
  | FieldWith (arg_name : string)
              (finish : Row -> option string -> result string)
  | Malformed.

Definition template := list piece.

Definition is_digit (c : ascii) : bool :=
  let n := ord c in ((48 <=? n) && (n <=? 57))%N.

Fixpoint all_chars (p : ascii -> bool) (s : string) : bool :=
  match s with
  | EmptyString => true
  | String c s' => p c && all_chars p s'
  end.

(** [sys.maxsize], the largest index, on a 64-bit build. *)
Definition maxsize : Z := 9223372036854775807.

(** The number a run of decimal digits denotes, continuing from [acc]. *)
Fixpoint decimal (acc : Z) (s : string) : Z :=
  match s with
  | EmptyString => acc
  | String c s' => decimal (10 * acc + Z.of_N (ord c - 48)) s'
  end.

(** The value of a field's argument when [str.format] is called with
    keyword arguments only.  An empty or numeric name asks for a positional
    argument, and there is none: [IndexError], or [ValueError] when the
    number is beyond the largest index.  Any other name is looked up among
    the keywords. *)
Definition get_arg (kwargs : Row) (arg_name : string)
  : result (option string) :=
  if all_chars is_digit arg_name
  then if (maxsize <? decimal 0 arg_name)%Z then Raise ValueError
       else Raise IndexError
  else
    match dict_get kwargs arg_name with
    | None => Raise (KeyError arg_name)
    | Some val => Ok val
    end.

(** [str.format] called with the row as keyword arguments: the pieces are
    handled left to right, and the first exception ends the call.  A cell
    that is [None] is written as its [str]. *)
Fixpoint format (t : template) (kwargs : Row) : result string :=
  match t with
  | [] => Ok ""
  | Literal text :: t' =>
      bind (format t' kwargs) (fun r => Ok (text +:+ r))
  | Field arg_name :: t' =>
      bind (get_arg kwargs arg_name) (fun val =>
      bind (format t' kwargs) (fun r => Ok (str_of val +:+ r)))
  | FieldWith arg_name finish :: t' =>
      bind (get_arg kwargs arg_name) (fun val =>
      bind (finish kwargs val) (fun text =>
      bind (format t' kwargs) (fun r => Ok (text +:+ r))))
  | Malformed :: _ => Raise ValueError
  end.

(** ['{%s}name' % uri] *)
Definition clark (uri name : string) : string := "{" +:+ uri +:+ "}" +:+ name.

(** [next((f for f in data.keys() if '_uid' in f.lower()), default)] *)
Definition first_uid_field (data : Row) : option string :=
  List.find (fun f => contains "_uid" (lower f)) (dict_keys data).

Section Generator.
(** lxml checks what the writer is asked for against what it has written
    so far: [xf_refuses written ev] is the exception it raises for the
    request [ev], if it raises one.  [xf.element] raises [ValueError] for a
    tag, an attribute name or value, or a namespace that is not
    XML-compatible, [xf.write] for such a text, and both raise
    [LxmlSyntaxError] when the document does not allow the request at this
    point. *)
Variable xf_refuses : list xml_event -> xml_event -> option exn.
(** What [get_config_value] returns for the keys read here, the default
    given at the call included. *)
Variable cfg_namespaces : option (list (string * string)).
Variable cfg_model_version : option string.
Variable cfg_model_name : option string.
Variable cfg_me_namespace : option string.
Variable cfg_role_template : template.
Variable cfg_datagroup_template : template.
Variable cfg_fixed_resources : list (string * string).
(** [str(uuid.uuid4())] and the formatted [datetime.now()], by reading. *)
Variable uuid4 : nat -> string.
Variable now : nat -> string.

Definition gen_uid : M string :=
  fun w => (Ok (uuid4 (uids w)), set_uids (S (uids w)) w).

(** [x or default] for a string. *)
Definition or_str (x : option string) (default : string) : string :=
  match x with
  | Some s => if is_empty s then default else s
  | None => default
  end.

(** The attributes set by [XMLGenerator.__init__]. *)
Definition namespaces : list (string * string) :=
  match cfg_namespaces with
  | Some d => d
  | None => []
  end.
Definition default_model_version : string := or_str cfg_model_version "1.0.0".
Definition default_model_name : string := or_str cfg_model_name "GeneratedModel".

(** [self.namespaces[key]] and [self.namespaces.get(key, '')] *)
Definition ns (key : string) : M string :=
  match dict_get namespaces key with
  | Some uri => ret uri
  | None => raise (KeyError key)
  end.

Definition ns_get (key : string) : string :=
  match dict_get namespaces key with
  | Some uri => uri
  | None => ""
  end.

(** A request to the writer: refused with an exception, nothing being
    written, or written. *)
Definition request (ev : xml_event) : M unit :=
  fun w =>
    match xf_refuses (xf w) ev with
    | Some e => (Raise e, w)
    | None => emit ev w
    end.

(** [with xf.element(tag, attrib=attrib, nsmap=nsmap): body].  The
    arguments are checked and the opening tag written before [body] runs;
    the element is closed on the way out, also when [body] raised. *)
Definition element {A} (tag : string) (attrib nsmap : list (string * string))
    (body : M A) : M A :=
  request (StartElement tag attrib nsmap) ;;
  finally body (fun w => set_xf (xf w ++ [EndElement tag]) w).

(** [xf.write(text)]; [None] writes nothing. *)
Definition write (text : option string) : M unit :=
  match text with
  | Some s => request (Characters s)
  | None => ret tt
  end.

Definition pass : M unit := ret tt.

(** [with xf.element('{%s}<name>' % self.namespaces['cim']): body] *)
Definition cim_element {A} (name : string) (body : M A) : M A :=
  cim <- ns "cim" ;;
  element (clark cim name) [] [] body.

(** The same with [attrib={'{%s}<key>' % self.namespaces['rdf']: value}]. *)
Definition cim_element_rdf {A} (name key value : string) (body : M A) : M A :=
  cim <- ns "cim" ;;
  rdf <- ns "rdf" ;;
  element (clark cim name) [(clark rdf key, value)] [] body.

Definition fixed_get (key default : string) : string :=
  match dict_get cfg_fixed_resources key with
  | Some v => v
  | None => default
  end.

(** The four blocks of [add_role_structure], one per entity. *)
Definition role_block (role_uid privilege_uid folder_uid role_name : string)
    : M unit :=
  cim_element_rdf "Role" "about" ("#_" +:+ role_uid)
    (cim_element "IdentifiedObject.name" (write (Some role_name)) ;;
     cim_element_rdf "IdentifiedObject.ParentObject" "resource"
                     ("#_" +:+ folder_uid) pass ;;
     cim_element_rdf "Role.kind" "resource" "cim:RoleKind.allow" pass ;;
     cim_element "Role.isHost" (write (Some "false")) ;;
     cim_element "Role.isUser" (write (Some "true")) ;;
     cim_element_rdf "Role.Privileges" "resource"
                     ("#_" +:+ privilege_uid) pass).

Definition privilege_block (privilege_uid role_uid datagroup_uid
    priv_operation : string) : M unit :=
  cim_element_rdf "Privilege" "about" ("#_" +:+ privilege_uid)
    (cim_element_rdf "Privilege.Role" "resource" ("#_" +:+ role_uid) pass ;;
     cim_element_rdf "Privilege.DataItems" "resource"
                     ("#_" +:+ datagroup_uid) pass ;;
     cim_element_rdf "Privilege.Operation" "resource" priv_operation pass).

Definition datagroup_block (datagroup_uid privilege_uid objectref_uid
    datagroup_name dg_parent dg_category dg_class : string) : M unit :=
  cim_element_rdf "DataGroup" "about" ("#_" +:+ datagroup_uid)
    (cim_element "IdentifiedObject.name" (write (Some datagroup_name)) ;;
     cim_element_rdf "IdentifiedObject.ParentObject" "resource" dg_parent pass ;;
     cim_element "DataItem.isHostRestricted" (write (Some "false")) ;;
     cim_element "DataItem.isUserRestricted" (write (Some "true")) ;;
     cim_element_rdf "DataItem.Privileges" "resource"
                     ("#_" +:+ privilege_uid) pass ;;
     cim_element_rdf "DataItem.Category" "resource" dg_category pass ;;
     cim_element_rdf "DataGroup.Class" "resource" dg_class pass ;;
     cim_element_rdf "DataGroup.Objects" "resource"
                     ("#_" +:+ objectref_uid) pass).

(** [data[object_uid_field]] for a key of the row. *)
Definition cell (data : Row) (key : string) : option string :=
  match dict_get data key with
  | Some val => val
  | None => None
  end.

Definition objectref_block (objectref_uid datagroup_uid : string)
    (object_uid : option string) : M unit :=
  cim_element_rdf "ObjectReference" "about" ("#_" +:+ objectref_uid)
    (cim_element "ObjectReference.objectUid" (write object_uid) ;;
     cim_element_rdf "ObjectReference.Group" "resource"
                     ("#_" +:+ datagroup_uid) pass).

(** Lines 146-154: both names, or the [KeyError] logged and raised again. *)
Definition format_names (data : Row) (logger : option Logger)
    : M (string * string) :=
  try_except
    (role_name <- lift (format cfg_role_template data) ;;
     datagroup_name <- lift (format cfg_datagroup_template data) ;;
     ret (role_name, datagroup_name))
    (fun e =>
       match e with
       | KeyError _ =>
           say logger ERROR (TemplateFieldMissing e data) ;;
           raise e
       | _ => raise e
       end).

Definition add_role_structure (data : Row) (folder_uid : string)
    (logger : option Logger) : M unit :=
  (match logger with
   | Some _ =>
       let object_uid_field :=
         match first_uid_field data with
         | Some f => f
         | None => "object_uid"
         end in
       let object_uid :=
         match dict_get data object_uid_field with
         | Some val => str_of val
         | None => "unknown"
         end in
       say logger DEBUG (StructureStart object_uid_field object_uid)
   | None => ret tt
   end) ;;
  role_uid <- gen_uid ;;
  privilege_uid <- gen_uid ;;
  datagroup_uid <- gen_uid ;;
  objectref_uid <- gen_uid ;;
  names <- format_names data logger ;;
  let '(role_name, datagroup_name) := names in
  say logger DEBUG
      (UidsGenerated role_uid privilege_uid datagroup_uid objectref_uid) ;;
  say logger DEBUG (NamesGenerated role_name datagroup_name) ;;
  let dg_parent :=
    fixed_get "datagroup_parent_object" "#_f02c26a7-df3d-43a7-9c61-46d382e31d2c" in
  let priv_operation :=
    fixed_get "privilege_operation" "#_200006fe-0000-0000-c000-0000006d746c" in
  let dg_category :=
    fixed_get "dataitem_category" "#_200006ff-0000-0000-c000-0000006d746c" in
  let dg_class :=
    fixed_get "datagroup_class" "#_50000709-0000-0000-c000-0000006d746c" in
  role_block role_uid privilege_uid folder_uid role_name ;;
  privilege_block privilege_uid role_uid datagroup_uid priv_operation ;;
  datagroup_block datagroup_uid privilege_uid objectref_uid datagroup_name
                  dg_parent dg_category dg_class ;;
  match first_uid_field data with
  | None => raise ValueError
  | Some object_uid_field =>
      if is_empty object_uid_field then raise ValueError
      else
        objectref_block objectref_uid datagroup_uid
                        (cell data object_uid_field) ;;
        say logger DEBUG
            (StructureDone object_uid_field (cell data object_uid_field))
  end.

(** The parts of lxml that reach the disk: whether a path can be opened
    for writing, and the bytes the incremental writer leaves for what it
    was told. *)
Variable writable : string -> bool.
Variable render : list xml_event -> list Byte.byte.

Definition add_full_model (model_version model_name : option string)
    : M string :=
  model_uid <- gen_uid ;;
  let model_version := or_str model_version default_model_version in
  let model_name := or_str model_name default_model_name in
  rdf <- ns "rdf" ;;
  element (clark (ns_get "md") "FullModel") [(clark rdf "about", "#_" +:+ model_uid)] []
    (time_str <- (fun w => (Ok (now (clock w) +:+ "Z"),
                            set_clock (S (clock w)) w)) ;;
     element (clark (ns_get "md") "Model.created") [] []
             (write (Some time_str)) ;;
     element (clark (ns_get "md") "Model.version") [] []
             (write (Some model_version)) ;;
     match cfg_me_namespace with
     | Some me_namespace =>
         if is_empty me_namespace
         then element (clark (ns_get "md") "Model.name") [] []
                      (write (Some model_name))
         else element (clark me_namespace "Model.name") []
                      [("me", me_namespace)] (write (Some model_name))
     | None =>
         element (clark (ns_get "md") "Model.name") [] []
                 (write (Some model_name))
     end) ;;
  ret model_uid.

(** [with xmlfile(output_file, encoding=encoding) as xf: ...]: the file is
    created empty, and holds what was written once the writer is closed,
    also when the body raised. *)
Definition generate_xml {A} (output_file : string)
    (content_generator : M A) : M A :=
  fun w =>
    if negb (writable output_file) then (Raise OSError, w)
    else
      let w0 := set_xf [] (set_fs (<[output_file := []]> (fs w)) w) in
      finally
        (emit Declaration ;;
         rdf <- ns "rdf" ;;
         element (clark rdf "RDF") [] namespaces content_generator)
        (fun w' => set_fs (<[output_file := render (xf w')]> (fs w')) w')
        w0.
End Generator.

(** *** The parsed document and [etree.indent]

    An element carries its text, its children and its tail; comments and
    processing instructions are children with a tail and nothing inside. *)
#[warnings="-register-all"]
Inductive node : Type :=
  | Element (tag : string) (attrib : list (string * string))
            (text : option string) (children : list node)
            (tail : option string)
  | Misc (content : string) (tail : option string).

Record ElementTree : Type := mkTree {
  before_root : list string;
  getroot : node;
  after_root : list string
}.

Definition tail_of (n : node) : option string :=
  match n with
  | Element _ _ _ _ tail => tail
  | Misc _ tail => tail
  end.

Definition set_tail (n : node) (tail : option string) : node :=
  match n with
  | Element tag attrib text children _ => Element tag attrib text children tail
  | Misc content _ => Misc content tail
  end.

Definition has_child (n : node) : bool :=
  match n with
  | Element _ _ _ (_ :: _) _ => true
  | _ => false
  end.

(** Text that is present, not empty and not all white space. *)
Definition has_non_whitespace (text : option string) : bool :=
  match text with
  | Some s => negb (is_empty s) && negb (all_chars isspace s)
  | None => false
  end.

Fixpoint repeat_str (s : string) (n : nat) : string :=
  match n with
  | O => ""
  | S k => s +:+ repeat_str s k
  end.

(** A line break and [level] times the indentation unit. *)
Definition indentation (space : string) (level : nat) : string :=
  String "010" (repeat_str space level).

Definition is_last {A} (rest : list A) : bool :=
  match rest with [] => true | _ => false end.

(** The loop of lxml's [_indent_children] over the children of one element:
    a child that has children is indented in turn by [child]; then its tail,
    unless it holds something else than white space, becomes the indentation
    of the next child, [here], or after the last child that of the closing
    tag, [after]. *)
Fixpoint indent_tails (child : node -> node) (here after : string)
    (cs : list node) : list node :=
  match cs with
  | [] => []
  | c :: rest =>
      let c1 := if has_child c then child c else c in
      let c2 :=
        if has_non_whitespace (tail_of c1) then c1
        else set_tail c1 (Some (if is_last rest then after else here)) in
      c2 :: indent_tails child here after rest
  end.

(** lxml's [_indent_children] on an element that has children: its own
    text, unless it holds something else than white space, starts the first
    child's line. *)
Fixpoint indent_children (space : string) (level : nat) (n : node) : node :=
  match n with
  | Element tag attrib text children tail =>
      let text' :=
        if has_non_whitespace text then text
        else Some (indentation space level) in
      Element tag attrib text'
        (indent_tails (indent_children space (S level))
                      (indentation space level)
                      (indentation space (Nat.pred level)) children)
        tail
  | Misc _ _ => n
  end.

(** [etree.indent(root, space)] *)
Definition indent (root : node) (space : string) : node :=
  if has_child root then indent_children space 1 root else root.

(** The tree after [etree.indent(tree.getroot(), space="  ")]. *)
Definition indent_tree (tree : ElementTree) : ElementTree :=
  mkTree (before_root tree) (indent (getroot tree) "  ") (after_root tree).

Section Pretty.
(** [etree.parse(file_path, parser)] on the bytes of the file, [None] when
    they are not well-formed, and [tree.write(..., pretty_print=True)]. *)
Variable xml_parse : list Byte.byte -> option ElementTree.
Variable xml_write : ElementTree -> list Byte.byte.

(** What [format_xml_pretty] leaves in a file that held [raw]. *)
Definition pretty_bytes (raw : list Byte.byte) : option (list Byte.byte) :=
match xml_parse raw with
| Some tree => Some (xml_write (indent_tree tree))
| None => None
end.

Definition format_xml_pretty (file_path : string) : M unit :=
  fun w =>
    match fs w !! file_path with
    | None => (Raise OSError, w)
    | Some raw =>
        match pretty_bytes raw with
        | None => (Raise XMLSyntaxError, w)
        | Some out => (Ok tt, set_fs (<[file_path := out]> (fs w)) w)
        end
    end.
End Pretty.

End xml_generator.

(** ** modules/csv_processor.py *)

Module csv_processor.
Import Py Log World csv_reader xml_generator.
Local Open Scope py_scope.

(** The float [0.7], exactly. *)
Definition confidence_threshold : Q := 3152519739159347 # 4503599627370496.

(** [PurePath.name] and [PurePath.stem], POSIX flavour: the name is the last
    component that is neither empty nor a single dot. *)
Fixpoint split_on (sep : ascii) (s : string) : list string :=
  match s with
  | EmptyString => [EmptyString]
  | String c s' =>
      if Ascii.eqb c sep then EmptyString :: split_on sep s'
      else match split_on sep s' with
           | piece :: pieces => String c piece :: pieces
           | [] => [String c EmptyString]
           end
  end.

Definition path_name (p : string) : string :=
  let parts :=
    filter (fun part => is_empty part = false /\ part <> ".")
           (split_on "/" p) in
  List.last parts "".

(** [name.rfind('.')] as the text before and after the last dot. *)
Fixpoint cut_last_dot (name : string) : option (string * string) :=
  match name with
  | EmptyString => None
  | String c name' =>
      match cut_last_dot name' with
      | Some (before, after) => Some (String c before, after)
      | None => if Ascii.eqb c "." then Some (EmptyString, name') else None
      end
  end.

Definition stem (p : string) : string :=
  let name := path_name p in
  match cut_last_dot name with
  | Some (before, after) =>
      if is_empty before || is_empty after then name else before
  | None => name
  end.

Section Processor.
(** The standard library and lxml, as in the two modules above. *)
Variable xf_refuses : list xml_event -> xml_event -> option exn.
Variable decode_strict : string -> list Byte.byte -> result string.
Variable decode_replace : string -> list Byte.byte -> string.
Variable csv_reader_lines : string -> string -> list (list string).
Variable csv_reader_error : string -> string -> option exn.
Variable uuid4 : nat -> string.
Variable now : nat -> string.
Variable writable : string -> bool.
Variable render : list xml_event -> list Byte.byte.
Variable xml_parse : list Byte.byte -> option ElementTree.
Variable xml_write : ElementTree -> list Byte.byte.
(** [chardet.detect]: the encoding, if any, and the confidence. *)
Variable chardet_detect : list Byte.byte -> option string * Q.
(** [str(Path(directory) / name)] *)
Variable Path_join : string -> string -> string.
(** The configuration, as [get_config_value] returns it. *)
Variable cfg_default_delimiter : string.
Variable cfg_namespaces : option (list (string * string)).
Variable cfg_model_version : option string.
Variable cfg_model_name : option string.
Variable cfg_me_namespace : option string.
Variable cfg_role_template : template.
Variable cfg_datagroup_template : template.
Variable cfg_fixed_resources : list (string * string).
Variable cfg_required_fields : list string.
Variable cfg_processor_model_version : string.
Variable cfg_processor_model_name : string.

(** [csv_reader.read_encoding] *)
Definition read_encoding (file_path : string) : M string :=
  fun w =>
    match fs w !! file_path with
    | None => (Raise OSError, w)
    | Some rawdata =>
        let '(encoding, confidence) := chardet_detect rawdata in
        match encoding with
        | None => (Ok "utf-8", w)
        | Some enc =>
            if negb (Qle_bool confidence_threshold confidence)
            then (Ok "utf-8", w)
            else (Ok enc, w)
        end
    end.

(** The generator [iter_csv_rows] started on a path: the file is opened
    when the first item is asked for. *)
Definition open_rows (csv_file_path encoding : string)
    (required_fields : list string) (logger : option Logger)
    : M (list event) :=
  fun w =>
    match fs w !! csv_file_path with
    | None => (Raise OSError, w)
    | Some raw =>
        (Ok (iter_csv_rows decode_strict decode_replace csv_reader_lines
               csv_reader_error cfg_default_delimiter csv_file_path raw
               encoding required_fields logger None), w)
    end.

(** [for line_num, row in <generator>: body], with the loop's local state
    [s]: the generator's records are logged as it runs, an exception it
    raises ends the loop, and it is not resumed once the body has raised. *)
Fixpoint for_rows {S} (evs : list event) (body : nat -> Row -> S -> M S)
    (s : S) : M S :=
  match evs with
  | [] => ret s
  | Logged r :: evs' => say_all [r] ;; for_rows evs' body s
  | Yield line_num row :: evs' =>
      s' <- body line_num row s ;;
      for_rows evs' body s'
  | Throw e :: _ => raise e
  end.

(** The closure [generate_content] of [process_csv_file_stream]. *)
Definition generate_content (folder_uid csv_file_path encoding : string)
    (logger : Logger) : M unit :=
  let roles_added := 0%nat in
  say (Some logger) DEBUG AddingFullModel ;;
  add_full_model xf_refuses cfg_namespaces cfg_model_version cfg_model_name
                 cfg_me_namespace uuid4 now
                 (Some cfg_processor_model_version)
                 (Some cfg_processor_model_name) ;;
  evs <- open_rows csv_file_path encoding cfg_required_fields (Some logger) ;;
  roles_added <-
    for_rows evs (fun line_num row roles_added =>
      say (Some logger) INFO (RowProcessing line_num (dict_keys row)) ;;
      add_role_structure xf_refuses cfg_namespaces cfg_role_template
                         cfg_datagroup_template cfg_fixed_resources uuid4
                         row folder_uid (Some logger) ;;
      ret (S roles_added)) roles_added ;;
  say (Some logger) INFO (RolesAdded roles_added).

(** The body of the first [try] of [process_csv_file_stream]. *)
Definition detect (csv_file_path : string) (logger : Logger) : M string :=
  encoding <- read_encoding csv_file_path ;;
  say (Some logger) DEBUG (EncodingDetected encoding) ;;
  ret encoding.

(** The body of its second [try]. *)
Definition convert (folder_uid csv_file_path xml_file_path encoding : string)
    (logger : Logger) : M bool :=
  say (Some logger) DEBUG XmlStart ;;
  generate_xml xf_refuses cfg_namespaces writable render xml_file_path
    (generate_content folder_uid csv_file_path encoding logger) ;;
  say (Some logger) DEBUG XmlFormatting ;;
  format_xml_pretty xml_parse xml_write xml_file_path ;;
  say (Some logger) INFO (XmlSaved xml_file_path) ;;
  ret true.

(** The two bodies one after the other, without the handlers: what
    "processing the file" does and may raise. *)
Definition attempt (folder_uid csv_file_path xml_file_path : string)
    (logger : Logger) : M bool :=
  encoding <- detect csv_file_path logger ;;
  convert folder_uid csv_file_path xml_file_path encoding logger.

Definition process_csv_file_stream (folder_uid csv_file_path
    xml_file_path : string) (logger : Logger) : M bool :=
  say (Some logger) INFO (FileStart csv_file_path xml_file_path) ;;
  detected <-
    try_except
      (encoding <- detect csv_file_path logger ;;
       ret (Some encoding))
      (fun e =>
         say (Some logger) ERROR (EncodingFailed csv_file_path e) ;;
         ret None) ;;
  match detected with
  | None => ret false
  | Some encoding =>
      try_except
        (convert folder_uid csv_file_path xml_file_path encoding logger)
        (fun e =>
           say (Some logger) ERROR (XmlFailed xml_file_path e) ;;
           ret false)
  end.

(** [BatchProcessor.process_file_list]; the result dict is a finite map. *)
Fixpoint process_files (folder_uid csv_dir : string)
    (logger_factory : string -> Logger) (file_list : list string)
    (results : gmap string bool) : M (gmap string bool) :=
  match file_list with
  | [] => ret results
  | csv_filename :: rest =>
      let csv_file_path := Path_join csv_dir csv_filename in
      let xml_filename := stem csv_filename +:+ ".xml" in
      let xml_file_path := Path_join csv_dir xml_filename in
      let logger := logger_factory csv_filename in
      say (Some logger) INFO (BatchFileStart csv_filename) ;;
      success <- process_csv_file_stream folder_uid csv_file_path
                                         xml_file_path logger ;;
      let results := <[csv_filename := success]> results in
      say (Some logger) INFO (BatchFileDone csv_filename success) ;;
      process_files folder_uid csv_dir logger_factory rest results
  end.

Definition process_file_list (folder_uid csv_dir : string)
    (file_list : list string) (logger_factory : string -> Logger)
    : M (gmap string bool) :=
  process_files folder_uid csv_dir logger_factory file_list ∅.
End Processor.

End csv_processor.

(** ** Small instances of the library parts, for the examples *)

Module Samples.
Import Py Log World csv_reader xml_generator csv_processor.

Definition chars_of (raw : list Byte.byte) : string :=
  String.string_of_list_byte raw.

Definition bytes_of (s : string) : list Byte.byte :=
  String.list_byte_of_string s.

Definition is_ascii_byte (b : Byte.byte) : bool :=
  (Byte.to_N b <? 128)%N.

(** The labels with a codec. *)
Definition codecs : list string :=
  ["utf-8"; "utf-8-sig"; "cp1251"; "latin-1"; "ascii"; "koi8-r"].

(** A strict decoder in the spirit of the real ones: [cp1251] and [latin-1]
    read any byte, the others only 7-bit text; a label without a codec is
    a [LookupError] when the file is opened. *)
Definition decode_strict (enc : string) (raw : list Byte.byte) : result string :=
  if negb (existsb (String.eqb enc) codecs) then Raise LookupError
  else if String.eqb enc "cp1251" || String.eqb enc "latin-1" then Ok (chars_of raw)
  else if forallb is_ascii_byte raw then Ok (chars_of raw)
  else Raise UnicodeDecodeError.

(** A decoder that reads nothing but 7-bit text, whatever the encoding. *)
Definition decode_ascii_only (enc : string) (raw : list Byte.byte) : result string :=
  if forallb is_ascii_byte raw then Ok (chars_of raw) else Raise UnicodeDecodeError.

Definition decode_replace (enc : string) (raw : list Byte.byte) : string :=
  chars_of (map (fun b => if is_ascii_byte b then b else Byte.x3f) raw).

Definition nl : string := String "010" "".

(** [csv.reader] on text without quotes or carriage returns: one list of
    cells per line, the empty list for an empty line. *)
Definition text_lines (content : string) : list string :=
  let pieces := split_on "010" content in
  if is_empty (List.last pieces "") then removelast pieces else pieces.

Definition csv_reader_lines (delimiter content : string) : list (list string) :=
  match delimiter with
  | String d EmptyString =>
      map (fun line => if is_empty line then [] else split_on d line)
          (text_lines content)
  | _ => []
  end.

(** A reader that raises nothing. *)
Definition csv_reader_error (delimiter content : string) : option exn := None.

(** The characters XML allows, among the 256 of the model. *)
Definition xml_char (c : ascii) : bool :=
  ((32 <=? ord c) || (ord c =? 9) || (ord c =? 10) || (ord c =? 13))%N.

Definition xml_text (s : string) : bool := all_chars xml_char s.

Definition xml_pairs (l : list (string * string)) : bool :=
  forallb (fun kv => xml_text kv.1 && xml_text kv.2) l.

Definition is_start (ev : xml_event) : bool :=
  match ev with StartElement _ _ _ => true | _ => false end.

Definition is_end (ev : xml_event) : bool :=
  match ev with EndElement _ => true | _ => false end.

(** The elements opened and the elements closed so far. *)
Definition opened (written : list xml_event) : nat :=
  length (List.filter is_start written).

Definition closed (written : list xml_event) : nat :=
  length (List.filter is_end written).

(** The root element has been closed: the document is complete. *)
Definition finished (written : list xml_event) : bool :=
  (0 <? opened written)%nat && (opened written =? closed written)%nat.

Definition in_element (written : list xml_event) : bool :=
  (closed written <? opened written)%nat.

(** A writer in the spirit of lxml's.  An element is refused with
    [ValueError] when its tag, an attribute or a namespace is not
    XML-compatible, and with [LxmlSyntaxError] when the document is
    complete; a text is refused with [LxmlSyntaxError] when the document
    is complete or when it is not blank and no element is open, and with
    [ValueError] when it is not XML-compatible. *)
Definition xf_refuses (written : list xml_event) (ev : xml_event) : option exn :=
  match ev with
  | StartElement tag attrib nsmap =>
      if negb (xml_text tag && xml_pairs attrib && xml_pairs nsmap)
      then Some ValueError
      else if finished written then Some LxmlSyntaxError
      else None
  | Characters text =>
      if finished written
         || negb (in_element written) && negb (is_empty (strip text))
      then Some LxmlSyntaxError
      else if xml_text text then None else Some ValueError
  | _ => None
  end.

Definition uuid4 (n : nat) : string :=
  "00000000-0000-4000-8000-00000000000" +:+ String (ascii_of_nat (48 + n mod 10)) "".

(** A source that never repeats: the reading [n] holds [n] ones. *)
Definition uuid4_fresh (n : nat) : string := "u" +:+ repeat_str "1" n.

Definition now (n : nat) : string := "2025-01-01T00:00:00".

Definition namespaces : option (list (string * string)) :=
  Some [("rdf", "http://www.w3.org/1999/02/22-rdf-syntax-ns#");
        ("cim", "http://iec.ch/TC57/2014/CIM-schema-cim16#");
        ("md", "http://iec.ch/TC57/61970-552/ModelDescription/1#")].

Definition role_template : template := [Literal "Role "; Field "org_name"].
Definition datagroup_template : template := [Literal "Group "; Field "org_name"].

Definition w0 : world := mkWorld ∅ 0 0 [] [].

(** The world once [generate_xml] has opened the document: the declaration
    and the root element are written, and the content comes next. *)
Definition in_rdf (w : world) : world :=
  set_xf [Declaration;
          StartElement (clark "http://www.w3.org/1999/02/22-rdf-syntax-ns#" "RDF")
                       [] (xml_generator.namespaces namespaces)] w.

(** *** A small XML reader and writer

    Enough of XML for the examples: elements with attributes in single
    quotes, text, and the declaration; no entities, comments or spaces
    inside attribute values. *)

Definition snoc (s : string) (c : ascii) : string := s +:+ String c "".

(** The text cut at the angle brackets: [(true, t)] for what stands between
    [<] and [>], [(false, t)] for text. *)
Fixpoint scan (s : string) (in_tag : bool) (acc : string)
  : list (bool * string) :=
  match s with
  | EmptyString => if is_empty acc then [] else [(in_tag, acc)]
  | String c s' =>
      if in_tag
      then if Ascii.eqb c ">" then (true, acc) :: scan s' false ""
           else scan s' true (snoc acc c)
      else if Ascii.eqb c "<"
           then (if is_empty acc then [] else [(false, acc)]) ++ scan s' true ""
           else scan s' false (snoc acc c)
  end.

Inductive token : Type :=
  | TDecl
  | TOpen (name : string) (attrib : list (string * string))
  | TEmpty (name : string) (attrib : list (string * string))
  | TClose
  | TText (text : string).

Definition is_quote (c : ascii) : bool := Ascii.eqb c "'".

Definition attribute (piece : string) : string * string :=
  match split_on "=" piece with
  | key :: value :: _ => (key, strip_by is_quote value)
  | _ => (piece, "")
  end.

Definition name_and_attrib (content : string)
  : string * list (string * string) :=
  match split_on " " content with
  | name :: pieces => (name, map attribute pieces)
  | [] => (content, [])
  end.

Definition is_slash (c : ascii) : bool := Ascii.eqb c "/".

Definition classify (segment : bool * string) : token :=
  let '(in_tag, content) := segment in
  if negb in_tag then TText content
  else if startswith "?" content then TDecl
  else if startswith "/" content then TClose
  else if negb (String.eqb (rstrip_by is_slash content) content)
  then let '(name, attrib) := name_and_attrib (rstrip_by is_slash content) in
       TEmpty name attrib
  else let '(name, attrib) := name_and_attrib content in
       TOpen name attrib.

(** An element being read: its tag, attributes, text and children so far,
    latest first. *)
Definition open_element : Type :=
  string * list (string * string) * option string * list node.

Definition add_child (n : node) (e : open_element) : open_element :=
  let '(tag, attrib, text, children) := e in (tag, attrib, text, n :: children).

Definition add_text (t : string) (e : open_element) : open_element :=
  let '(tag, attrib, text, children) := e in
  match children with
  | [] => (tag, attrib, Some (match text with Some t0 => t0 +:+ t | None => t end),
           children)
  | c :: rest => (tag, attrib, text, set_tail c (Some t) :: rest)
  end.

Fixpoint assemble (toks : list token) (stack : list open_element)
    (root : option node) : option node :=
  match toks with
  | [] => match stack with [] => root | _ => None end
  | TDecl :: toks' => assemble toks' stack root
  | TOpen name attrib :: toks' =>
      assemble toks' ((name, attrib, None, []) :: stack) root
  | TEmpty name attrib :: toks' =>
      match stack with
      | e :: stack' =>
          assemble toks' (add_child (Element name attrib None [] None) e :: stack') root
      | [] => assemble toks' [] (Some (Element name attrib None [] None))
      end
  | TText t :: toks' =>
      match stack with
      | e :: stack' => assemble toks' (add_text t e :: stack') root
      | [] => assemble toks' [] root
      end
  | TClose :: toks' =>
      match stack with
      | (tag, attrib, text, children) :: stack' =>
          let n := Element tag attrib text (rev children) None in
          match stack' with
          | e :: stack'' => assemble toks' (add_child n e :: stack'') root
          | [] => assemble toks' [] (Some n)
          end
      | [] => None
      end
  end.

Definition xml_parse (raw : list Byte.byte) : option ElementTree :=
  match assemble (map classify (scan (chars_of raw) false "")) [] None with
  | Some root => Some (mkTree [] root [])
  | None => None
  end.

Definition print_attrib (attrib : list (string * string)) : string :=
  fold_right (fun kv rest => " " +:+ kv.1 +:+ "='" +:+ kv.2 +:+ "'" +:+ rest)
             "" attrib.

Definition text_or_empty (text : option string) : string :=
  match text with Some t => t | None => "" end.

Fixpoint print_node (n : node) : string :=
  match n with
  | Element tag attrib text children tail =>
      "<" +:+ tag +:+ print_attrib attrib
      +:+ (if is_empty (text_or_empty text) && is_last children then "/>"
           else ">" +:+ text_or_empty text
                +:+ fold_right (fun c rest => print_node c +:+ rest) "" children
                +:+ "</" +:+ tag +:+ ">")
      +:+ text_or_empty tail
  | Misc _ tail => text_or_empty tail
  end.

Definition declaration : string := "<?xml version='1.0' encoding='UTF-8'?>" +:+ nl.

Definition xml_write (tree : ElementTree) : list Byte.byte :=
  bytes_of (declaration +:+ print_node (getroot tree) +:+ nl).

(** What the incremental writer leaves on disk. *)
Definition render_event (ev : xml_event) : string :=
  match ev with
  | Declaration => declaration
  | StartElement tag attrib _ => "<" +:+ tag +:+ print_attrib attrib +:+ ">"
  | Characters text => text
  | EndElement tag => "</" +:+ tag +:+ ">"
  end.

Definition render (evs : list xml_event) : list Byte.byte :=
  bytes_of (fold_right (fun ev rest => render_event ev +:+ rest) "" evs).

Definition writable (path : string) : bool := true.

Definition chardet_detect (raw : list Byte.byte) : option string * Q :=
  if forallb is_ascii_byte raw then (Some "ascii", 1%Q) else (None, 0%Q).

Definition Path_join (directory name : string) : string :=
  directory +:+ "/" +:+ name.

(** Three files in a directory; the second has no [org_name] column, which
    the name templates ask for. *)
Definition good_csv : list Byte.byte :=
  bytes_of ("org_name;user_uid" +:+ nl
            +:+ "Finance;3fa85f64-5717-4562-b3fc-2c963f66afa6" +:+ nl
            +:+ "Sales;not-a-uuid" +:+ nl).

Definition bad_csv : list Byte.byte :=
  bytes_of ("name;user_uid" +:+ nl
            +:+ "Finance;3fa85f64-5717-4562-b3fc-2c963f66afa6" +:+ nl).

Definition three_files : world :=
  mkWorld (<["d/one.csv" := good_csv]>
             (<["d/two.csv" := bad_csv]> (<["d/three.csv" := good_csv]> ∅)))
          0 0 [] [].

(** The batch and the attempt on these instances. *)
Definition batch (file_list : list string) : M (gmap string bool) :=
  process_file_list xf_refuses decode_strict decode_replace csv_reader_lines
    csv_reader_error uuid4 now
    writable render xml_parse xml_write chardet_detect Path_join ";"
    namespaces None None None role_template datagroup_template []
    ["user_uid"] "1.0.0" "Access" "folder" "d" file_list (fun name => name).

Definition try_file (csv_filename : string) : M bool :=
  attempt xf_refuses decode_strict decode_replace csv_reader_lines
    csv_reader_error uuid4 now
    writable render xml_parse xml_write chardet_detect ";"
    namespaces None None None role_template datagroup_template []
    ["user_uid"] "1.0.0" "Access" "folder" (Path_join "d" csv_filename)
    (Path_join "d" (stem csv_filename +:+ ".xml")) csv_filename.

End Samples.

(** ** The words of the specification

    Definitions that follow the specification's wording, to be compared
    with the code's. *)

Module Spec.
Import Py Log World csv_reader xml_generator csv_processor.

(** [n] hexadecimal digits, and what follows them. *)
Fixpoint take_hex (n : nat) (s : string) : option string :=
  match n with
  | O => Some s
  | S k =>
      match s with
      | String c s' => if is_hex c then take_hex k s' else None
      | EmptyString => None
      end
  end.

Definition after_dash (s : option string) : option string :=
  match s with
  | Some (String "-" s') => Some s'
  | _ => None
  end.

(** "32 hex digits in canonical dashed form": 8-4-4-4-12. *)
Definition is_canonical (s : string) : bool :=
  match after_dash (take_hex 8 s) with
  | Some s1 =>
      match after_dash (take_hex 4 s1) with
      | Some s2 =>
          match after_dash (take_hex 4 s2) with
          | Some s3 =>
              match after_dash (take_hex 4 s3) with
              | Some s4 =>
                  match take_hex 12 s4 with
                  | Some EmptyString => true
                  | _ => false
                  end
              | None => false
              end
          | None => false
          end
      | None => false
      end
  | None => false
  end.

Definition is_dash (c : ascii) : bool := Ascii.eqb c "-".

Definition hex_or_dash (c : ascii) : bool := is_hex c || is_dash c.

Fixpoint count_hex (s : string) : nat :=
  match s with
  | EmptyString => 0
  | String c s' => (if is_hex c then 1 else 0) + count_hex s'
  end.

(** The hexadecimal digits of a string, in order. *)
Fixpoint digits_of (s : string) : string :=
  match s with
  | EmptyString => EmptyString
  | String c s' => if is_hex c then String c (digits_of s') else digits_of s'
  end.

(** The number a run of hexadecimal digits denotes, continuing from [acc]. *)
Fixpoint hex_number (acc : Z) (s : string) : Z :=
  match s with
  | EmptyString => acc
  | String c s' =>
      match hex_value c with
      | Some d => hex_number (16 * acc + d) s'
      | None => acc
      end
  end.

(** *** The texts [int(text, 16)] reads

    What may follow a digit: blanks up to the end, another digit, or an
    underscore and a digit. *)
Inductive after_digit : string -> Prop :=
  | after_blanks s : all_chars int_space s = true -> after_digit s
  | after_more c s :
      is_hex c = true -> after_digit s -> after_digit (String c s)
  | after_under c s :
      is_hex c = true -> after_digit s ->
      after_digit (String "_" (String c s)).

(** Digits with single underscores between them, then blanks. *)
Definition hex_digits (s : string) : Prop :=
  exists c s', s = String c s' /\ is_hex c = true /\ after_digit s'.

(** The same behind an optional [0x] or [0X], itself followed by an
    optional underscore. *)
Definition hex_unsigned (s : string) : Prop :=
  hex_digits s
  \/ exists x s',
       (x = "x"%char \/ x = "X"%char) /\ hex_digits s'
       /\ (s = String "0" (String x s')
           \/ s = String "0" (String x (String "_" s'))).

(** And behind optional blanks and an optional plus sign: the base-16
    literals without a minus sign. *)
Definition hex_literal (s : string) : Prop :=
  exists lead rest,
    s = lead +:+ rest /\ all_chars int_space lead = true
    /\ (hex_unsigned rest \/ exists r, rest = String "+" r /\ hex_unsigned r).

(** The characters such a literal is written with. *)
Definition literal_char (c : ascii) : bool :=
  is_hex c || int_space c || Ascii.eqb c "+" || Ascii.eqb c "_"
  || Ascii.eqb c "x" || Ascii.eqb c "X".

(** *** Reading back what the writer was told

    The elements and text written, as trees. *)
#[warnings="-register-all"]
Inductive written : Type :=
  | WElement (tag : string) (attrib nsmap : list (string * string))
             (content : list written)
  | WText (text : string).

Definition frame : Type :=
  string * list (string * string) * list (string * string) * list written.

(** [stack] holds the elements still open, each with what came before it in
    its parent; [acc] is the content of the innermost one, latest first. *)
Fixpoint build (evs : list xml_event) (stack : list frame)
    (acc : list written) : option (list written) :=
  match evs with
  | [] => match stack with [] => Some (rev acc) | _ => None end
  | Declaration :: evs' => build evs' stack acc
  | StartElement tag attrib nsmap :: evs' =>
      build evs' ((tag, attrib, nsmap, acc) :: stack) []
  | Characters text :: evs' => build evs' stack (WText text :: acc)
  | EndElement _ :: evs' =>
      match stack with
      | (tag, attrib, nsmap, outer) :: stack' =>
          build evs' stack' (WElement tag attrib nsmap (rev acc) :: outer)
      | [] => None
      end
  end.

Definition written_of (evs : list xml_event) : option (list written) :=
  build evs [] [].

Definition tag_of (e : written) : option string :=
  match e with
  | WElement tag _ _ _ => Some tag
  | WText _ => None
  end.

Definition attr_of (key : string) (e : written) : option string :=
  match e with
  | WElement _ attrib _ _ => dict_get attrib key
  | WText _ => None
  end.

Definition content_of (e : written) : list written :=
  match e with
  | WElement _ _ _ content => content
  | WText _ => []
  end.

Definition has_tag (tag : string) (e : written) : bool :=
  match e with
  | WElement t _ _ _ => String.eqb t tag
  | WText _ => false
  end.

(** The first child element with the given tag. *)
Definition child_of (tag : string) (e : written) : option written :=
  List.find (has_tag tag) (content_of e).

(** An entity's identity, and the target of one of its references. *)
Definition about (rdf : string) (e : written) : option string :=
  attr_of (clark rdf "about") e.

Definition reference (cim rdf name : string) (e : written) : option string :=
  match child_of (clark cim name) e with
  | Some c => attr_of (clark rdf "resource") c
  | None => None
  end.

(** Whether the writer, having written [pre], takes [evs] one after the
    other: an element to open and a text may be refused. *)
Fixpoint accepted (refuses : list xml_event -> xml_event -> option exn)
    (pre evs : list xml_event) : bool :=
  match evs with
  | [] => true
  | ev :: evs' =>
      match ev with
      | StartElement _ _ _ | Characters _ =>
          match refuses pre ev with
          | None => accepted refuses (pre ++ [ev]) evs'
          | Some _ => false
          end
      | Declaration | EndElement _ => accepted refuses (pre ++ [ev]) evs'
      end
  end.

(** A computation that does nothing but write [evs] and succeeds when the
    writer takes them, and raises when it does not. *)
Definition writes (refuses : list xml_event -> xml_event -> option exn)
    (m : M unit) (evs : list xml_event) : Prop :=
  forall w,
    if accepted refuses (xf w) evs
    then m w = (Ok tt, set_xf (xf w ++ evs) w)
    else exists e w', m w = (Raise e, w').

(** What the writer is told for a leaf with a reference, a leaf with text,
    and an entity around its leaves. *)
Definition ref_events (cim rdf name value : string) : list xml_event :=
  [StartElement (clark cim name) [(clark rdf "resource", value)] [];
   EndElement (clark cim name)].

Definition text_events (cim name : string) (text : option string)
  : list xml_event :=
  StartElement (clark cim name) [] []
  :: match text with Some s => [Characters s] | None => [] end
  ++ [EndElement (clark cim name)].

Definition entity_events (cim rdf name uid : string) (inner : list xml_event)
  : list xml_event :=
  StartElement (clark cim name) [(clark rdf "about", "#_" +:+ uid)] []
  :: inner ++ [EndElement (clark cim name)].

(** The record [add_role_structure] logs before anything else. *)
Definition start_records (data : Row) (logger : option Logger) : list record :=
  match logger with
  | Some _ =>
      tell logger DEBUG
        (StructureStart
           (default "object_uid" (first_uid_field data))
           (match dict_get data (default "object_uid" (first_uid_field data)) with
            | Some val => str_of val
            | None => "unknown"
            end))
  | None => []
  end.

(** The world once that record is logged and the four identifiers drawn. *)
Definition started (data : Row) (logger : option Logger) (w : world) : world :=
  set_uids (4 + uids w) (set_log (log w ++ start_records data logger) w).

(** The world after a failed formatting: one more record when a key was
    missing, nothing written. *)
Definition failed_names (e : exn) (data : Row) (logger : option Logger)
    (w : world) : world :=
  match e with
  | KeyError _ =>
      set_log (log w ++ tell logger ERROR (TemplateFieldMissing e data)) w
  | _ => w
  end.

(** The text inside a leaf. *)
Definition text_nodes (text : option string) : list written :=
  match text with
  | Some s => [WText s]
  | None => []
  end.

(** What [add_role_structure] writes for the first three entities and for
    the fourth, with the identifiers drawn from reading [n] on. *)
Definition three_events (cim rdf : string) (fixed : list (string * string))
    (uuid4 : nat -> string) (n : nat) (folder_uid rn dn : string)
  : list xml_event :=
  entity_events cim rdf "Role" (uuid4 n)
     (text_events cim "IdentifiedObject.name" (Some rn)
      ++ ref_events cim rdf "IdentifiedObject.ParentObject" ("#_" +:+ folder_uid)
      ++ ref_events cim rdf "Role.kind" "cim:RoleKind.allow"
      ++ text_events cim "Role.isHost" (Some "false")
      ++ text_events cim "Role.isUser" (Some "true")
      ++ ref_events cim rdf "Role.Privileges" ("#_" +:+ uuid4 (1 + n)))
  ++ entity_events cim rdf "Privilege" (uuid4 (1 + n))
     (ref_events cim rdf "Privilege.Role" ("#_" +:+ uuid4 n)
      ++ ref_events cim rdf "Privilege.DataItems" ("#_" +:+ uuid4 (2 + n))
      ++ ref_events cim rdf "Privilege.Operation"
           (fixed_get fixed "privilege_operation"
                      "#_200006fe-0000-0000-c000-0000006d746c"))
  ++ entity_events cim rdf "DataGroup" (uuid4 (2 + n))
     (text_events cim "IdentifiedObject.name" (Some dn)
      ++ ref_events cim rdf "IdentifiedObject.ParentObject"
           (fixed_get fixed "datagroup_parent_object"
                      "#_f02c26a7-df3d-43a7-9c61-46d382e31d2c")
      ++ text_events cim "DataItem.isHostRestricted" (Some "false")
      ++ text_events cim "DataItem.isUserRestricted" (Some "true")
      ++ ref_events cim rdf "DataItem.Privileges" ("#_" +:+ uuid4 (1 + n))
      ++ ref_events cim rdf "DataItem.Category"
           (fixed_get fixed "dataitem_category"
                      "#_200006ff-0000-0000-c000-0000006d746c")
      ++ ref_events cim rdf "DataGroup.Class"
           (fixed_get fixed "datagroup_class"
                      "#_50000709-0000-0000-c000-0000006d746c")
      ++ ref_events cim rdf "DataGroup.Objects" ("#_" +:+ uuid4 (3 + n))).

Definition fourth_events (cim rdf : string) (uuid4 : nat -> string) (n : nat)
    (object_uid : option string) : list xml_event :=
  entity_events cim rdf "ObjectReference" (uuid4 (3 + n))
     (text_events cim "ObjectReference.objectUid" object_uid
      ++ ref_events cim rdf "ObjectReference.Group" ("#_" +:+ uuid4 (2 + n))).

(** All that [add_role_structure] asks the writer for: the first three
    entities, and the fourth when the row has a field for the object. *)
Definition row_events (cim rdf : string) (fixed : list (string * string))
    (uuid4 : nat -> string) (n : nat) (folder_uid rn dn : string) (data : Row)
  : list xml_event :=
  three_events cim rdf fixed uuid4 n folder_uid rn dn
  ++ match first_uid_field data with
     | Some f => fourth_events cim rdf uuid4 n (cell data f)
     | None => []
     end.

(** The writer takes all that the call for a row asks for, for the
    namespaces configured and the names the templates give. *)
Definition writer_takes (refuses : list xml_event -> xml_event -> option exn)
    (cfg_namespaces : option (list (string * string)))
    (role_template datagroup_template : template)
    (fixed : list (string * string)) (uuid4 : nat -> string)
    (data : Row) (folder_uid : string) (w : world) : Prop :=
  forall cim rdf rn dn,
    dict_get (namespaces cfg_namespaces) "cim" = Some cim ->
    dict_get (namespaces cfg_namespaces) "rdf" = Some rdf ->
    format role_template data = Ok rn ->
    format datagroup_template data = Ok dn ->
    accepted refuses (xf w)
      (row_events cim rdf fixed uuid4 (uids w) folder_uid rn dn data) = true.

(** What [add_full_model] asks the writer for: the header element around
    the time of creation, the version and the name, the name under the tag
    and with the namespace map given. *)
Definition header_events (md rdf uid created version : string)
    (name_tag : string) (name_nsmap : list (string * string)) (name : string)
  : list xml_event :=
  [StartElement (clark md "FullModel") [(clark rdf "about", "#_" +:+ uid)] [];
   StartElement (clark md "Model.created") [] [];
   Characters created;
   EndElement (clark md "Model.created");
   StartElement (clark md "Model.version") [] [];
   Characters version;
   EndElement (clark md "Model.version");
   StartElement name_tag [] name_nsmap;
   Characters name;
   EndElement name_tag;
   EndElement (clark md "FullModel")].

(** The world once a file of the batch has been announced in the log. *)
Definition announced (logger : Logger)
    (csv_filename csv_file_path xml_file_path : string) (w : world) : world :=
  set_log (log w ++ [mkRecord logger INFO (BatchFileStart csv_filename);
                     mkRecord logger INFO (FileStart csv_file_path xml_file_path)])
          w.

(** What is recorded for an attempt: its value, [false] when it raised. *)
Definition verdict (outcome : result bool * world) : bool :=
  match outcome.1 with
  | Ok b => b
  | Raise _ => false
  end.

(** The field names a template refers to, up to where it can be read. *)
Fixpoint fields_of (t : template) : list string :=
  match t with
  | [] => []
  | Literal _ :: t' => fields_of t'
  | Field arg_name :: t' => arg_name :: fields_of t'
  | FieldWith arg_name _ :: t' => arg_name :: fields_of t'
  | Malformed :: _ => []
  end.

(** "a template references a field absent from the row" *)
Definition references_absent (t : template) (data : Row) : Prop :=
  exists name, name ∈ fields_of t /\ dict_get data name = None.

(** A template of literal text and bare field names. *)
Fixpoint plain (t : template) : bool :=
  match t with
  | [] => true
  | Literal _ :: t' | Field _ :: t' => plain t'
  | FieldWith _ _ :: _ | Malformed :: _ => false
  end.

(** Every replacement field names a keyword: none is empty or a number. *)
Definition named_only (t : template) : Prop :=
  forall name, name ∈ fields_of t -> all_chars is_digit name = false.

(** "a required field whose name contains the substring uid
    (case-insensitive)" *)
Definition names_uid (field : string) : bool := contains "uid" (lower field).

(** What the code looks for instead. *)
Definition names__uid (field : string) : bool := contains "_uid" (lower field).

(** What one required field asks of a row. *)
Definition field_ok (row : Row) (field : string) : Prop :=
  exists val, row_get row field = Some val
    /\ strip val <> EmptyString
    /\ (names__uid field = true -> is_valid_uuid (strip val) = true).

(** "rows that pass required-field validation" *)
Definition passes (required_fields : list string) (row : Row) : bool :=
  (check_required_fields row required_fields).1.

(** Items paired with consecutive line numbers from [start]. *)
Definition numbered {A} (start : nat) (items : list A) : list (nat * A) :=
  zip (seq start (length items)) items.

(** The rows one after the other as dicts with lower-cased, trimmed keys;
    a line with cells beyond the header has none. *)
Definition well_formed (r : dict_row) : Prop := surplus r = None.

Definition row_of (r : dict_row) : Row :=
  dict_of (map (fun kv => (lower (strip kv.1), kv.2)) (named r)).

End Spec.

(** ** What a computation leaves alone

    Relations between the world before and after, and the parts of a
    document that indentation does not touch. *)

Module Frame.
Import Py Log World csv_reader xml_generator csv_processor.

(** The rows the reader reports as rejected, with their line numbers. *)
Definition rejected (evs : list event) : list (nat * Row) :=
  omap (fun ev => match ev with
                  | Logged (mkRecord _ _ (RowRejected n _ row)) => Some (n, row)
                  | _ => None
                  end) evs.

(** Whatever its outcome, [m] takes a world to one related to it by [R]. *)
Definition preserves {A} (R : world -> world -> Prop) (m : M A) : Prop :=
  forall w, R w (m w).2.

(** The files are as before. *)
Definition same_files (w w' : world) : Prop := fs w' = fs w.

(** Only the files whose path is in [paths] may differ. *)
Definition only_files (paths : string -> Prop) (w w' : world) : Prop :=
  forall path, ~ paths path -> fs w' !! path = fs w !! path.

(** Files, clock and identifier source as before; the writer and the log
    have only grown, the log by records of [logger]. *)
Definition grown (logger : option Logger) (w w' : world) : Prop :=
  fs w' = fs w /\ clock w' = clock w /\ uids w' = uids w
  /\ (exists evs, xf w' = xf w ++ evs)
  /\ (exists recs, log w' = log w ++ recs
                   /\ Forall (fun r => logger = Some (rec_logger r)) recs).

(** The writer has only been told more. *)
Definition appended (w w' : world) : Prop := exists evs, xf w' = xf w ++ evs.

(** A relation that holds from a world to itself and through successive
    steps, when the writer is told more, when something is logged, and when
    an identifier or the time is read. *)
Record stable (R : world -> world -> Prop) : Prop := mkStable {
  stable_refl : forall w, R w w;
  stable_trans : forall a b c, R a b -> R b c -> R a c;
  stable_xf : forall w evs, R w (set_xf (xf w ++ evs) w);
  stable_log : forall w recs, R w (set_log (log w ++ recs) w);
  stable_uids : forall w n, R w (set_uids n w);
  stable_clock : forall w n, R w (set_clock n w)
}.

(** The keys of a dict filled from [l] on top of the keys [seen], in the
    order in which they were first set. *)
Definition seen_onto (seen l : list string) : list string :=
  fold_left (fun seen k => if decide (k ∈ seen) then seen else seen ++ [k])
            l seen.

Definition first_seen (l : list string) : list string := seen_onto [] l.

(** [c not in s] *)
Definition no_char (c : ascii) (s : string) : bool :=
  all_chars (fun x => negb (Ascii.eqb x c)) s.

(** Text that counts: [None] for text that is absent, empty or blank. *)
Definition solid (text : option string) : option string :=
  if has_non_whitespace text then text else None.

(** A node without its blank text and tails. *)
Fixpoint skeleton (n : node) : node :=
  match n with
  | Element tag attrib text children tail =>
      Element tag attrib (solid text) (map skeleton children) (solid tail)
  | Misc content tail => Misc content (solid tail)
  end.

End Frame.

(** * Properties *)

Import Py Log World csv_reader xml_generator csv_processor Spec Frame.

Local Arguments Ascii.eqb : simpl never.
Local Arguments N.leb : simpl never.

Section StringFacts.

Lemma remove_from_absent old a s :
all_chars (fun c => negb (Ascii.eqb a c)) s = true ->
remove_from (String a old) 0 s = s.
Proof.
induction s as [|c s IH]; simpl; [reflexivity|].
intros H. apply andb_prop in H as [Hc Hs].
apply negb_true_iff in Hc. rewrite Hc. f_equal. auto.
Qed.

Lemma all_chars_impl (p q : ascii -> bool) s :
(forall c, p c = true -> q c = true) ->
all_chars p s = true -> all_chars q s = true.
Proof.
intros Hpq. induction s as [|c s IH]; simpl; [reflexivity|].
intros H. apply andb_prop in H as [Hc Hs].
rewrite (Hpq _ Hc), (IH Hs). reflexivity.
Qed.

Lemma lstrip_by_none p s :
all_chars (fun c => negb (p c)) s = true -> lstrip_by p s = s.
Proof.
destruct s as [|c s]; simpl; [reflexivity|].
intros H. apply andb_prop in H as [Hc _].
apply negb_true_iff in Hc. rewrite Hc. reflexivity.
Qed.

Lemma rstrip_by_none p s :
all_chars (fun c => negb (p c)) s = true -> rstrip_by p s = s.
Proof.
induction s as [|c s IH]; simpl; [reflexivity|].
intros H. apply andb_prop in H as [Hc Hs].
apply negb_true_iff in Hc. rewrite (IH Hs), Hc, andb_false_r. reflexivity.
Qed.

Lemma strip_by_none p s :
all_chars (fun c => negb (p c)) s = true -> strip_by p s = s.
Proof.
intros H. unfold strip_by. rewrite (lstrip_by_none _ _ H). apply rstrip_by_none, H.
Qed.

End StringFacts.

Lemma hex_or_dash_not c (a : ascii) :
  hex_or_dash a = false -> hex_or_dash c = true -> negb (Ascii.eqb a c) = true.
Proof.
  intros Ha Hc. apply negb_true_iff. destruct (Ascii.eqb_spec a c); [congruence|reflexivity].
Qed.

Lemma is_hex_not_dash c : is_hex c = true -> Ascii.eqb "-" c = false.
Proof. destruct (Ascii.eqb_spec "-"%char c) as [<-|]; [discriminate|reflexivity]. Qed.

Lemma remove_dashes s :
  all_chars hex_or_dash s = true -> remove_all "-" s = digits_of s.
Proof.
  unfold remove_all. induction s as [|c s IH]; simpl; [reflexivity|].
  intros H. apply andb_prop in H as [Hc Hs]. unfold hex_or_dash in Hc.
  destruct (is_hex c) eqn:Hh.
  - rewrite (is_hex_not_dash _ Hh). f_equal. auto.
  - simpl in Hc. unfold is_dash in Hc. rewrite Ascii.eqb_sym in Hc. rewrite Hc. auto.
Qed.

Lemma length_digits_of s : String.length (digits_of s) = count_hex s.
Proof.
  induction s as [|c s IH]; simpl; [reflexivity|].
  destruct (is_hex c); simpl; congruence.
Qed.

Lemma all_hex_digits_of s : all_chars is_hex (digits_of s) = true.
Proof.
  induction s as [|c s IH]; simpl; [reflexivity|].
  destruct (is_hex c) eqn:Hh; simpl; [rewrite Hh|]; auto.
Qed.

Lemma hex_or_dash_no (a : ascii) s :
  hex_or_dash a = false ->
  all_chars hex_or_dash s = true ->
  all_chars (fun c => negb (Ascii.eqb a c)) s = true.
Proof.
  intros Ha. apply all_chars_impl. intros c. now apply hex_or_dash_not.
Qed.

Lemma hex_or_dash_no_brace s :
  all_chars hex_or_dash s = true ->
  all_chars (fun c => negb (is_brace c)) s = true.
Proof.
  apply all_chars_impl. intros c Hc.
  unfold is_brace. apply negb_true_iff, orb_false_iff. split.
  - destruct (Ascii.eqb_spec c "{"%char) as [->|]; [discriminate|reflexivity].
  - destruct (Ascii.eqb_spec c "}"%char) as [->|]; [discriminate|reflexivity].
Qed.

Lemma uuid_hex_plain s :
  all_chars hex_or_dash s = true -> uuid_hex s = digits_of s.
Proof.
  intros H. unfold uuid_hex, remove_all.
  rewrite (remove_from_absent "rn:" "u" s) by now apply hex_or_dash_no.
  rewrite (remove_from_absent "uid:" "u" s) by now apply hex_or_dash_no.
  rewrite strip_by_none by now apply hex_or_dash_no_brace.
  apply remove_dashes, H.
Qed.

Lemma int16_digits_all_hex s acc p a :
  all_chars is_hex s = true -> s <> EmptyString \/ (p = false /\ a = true) ->
  int16_digits acc p a s = Some (hex_number acc s).
Proof.
  revert acc p a. induction s as [|c s IH]; intros acc p a Hs Hne; simpl.
  - destruct Hne as [Hne|[-> ->]]; [congruence|reflexivity].
  - simpl in Hs. apply andb_prop in Hs as [Hc Hs]. unfold is_hex in Hc.
    destruct (hex_value c) as [d|]; [|discriminate].
    apply IH; [assumption|]. right. split; reflexivity.
Qed.

Lemma hex_value_range c d : hex_value c = Some d -> (0 <= d < 16)%Z.
Proof.
  destruct c as [[] [] [] [] [] [] [] []]; intros H; vm_compute in H;
    try discriminate H; injection H as <-; lia.
Qed.

Lemma hex_number_range s acc :
  (0 <= acc)%Z ->
  (0 <= hex_number acc s < (acc + 1) * 16 ^ Z.of_nat (String.length s))%Z.
Proof.
  revert acc. induction s as [|c s IH]; intros acc Hacc.
  - simpl. lia.
  - cbn [hex_number String.length]. destruct (hex_value c) as [d|] eqn:Hd.
    + apply hex_value_range in Hd.
      specialize (IH (16 * acc + d)%Z ltac:(lia)).
      rewrite Nat2Z.inj_succ, Z.pow_succ_r by lia. nia.
    + rewrite Nat2Z.inj_succ, Z.pow_succ_r by lia.
      assert (0 < 16 ^ Z.of_nat (String.length s))%Z by (apply Z.pow_pos_nonneg; lia).
      nia.
Qed.

Lemma is_hex_facts c :
  is_hex c = true ->
  int_space c = false /\ Ascii.eqb c "+" = false /\ Ascii.eqb c "-" = false
  /\ Ascii.eqb c "x" = false /\ Ascii.eqb c "X" = false /\ Ascii.eqb c "_" = false.
Proof.
  destruct c as [[] [] [] [] [] [] [] []]; vm_compute; intros H;
    try discriminate H; repeat split; reflexivity.
Qed.

Lemma int16_all_hex s :
  all_chars is_hex s = true -> s <> EmptyString ->
  int16 s = Ok (hex_number 0 s).
Proof.
  intros Hs Hne. destruct s as [|c s]; [congruence|].
  pose proof Hs as Hall. simpl in Hs. apply andb_prop in Hs as [Hc Hs].
  destruct (is_hex_facts c Hc) as (Hsp & Hplus & Hminus & Hx & HX & Hus).
  unfold int16. cbn [lstrip_by]. rewrite Hsp.
  assert (Hu : int16_unsigned (String c s) = Some (hex_number 0 (String c s))).
  { unfold int16_unsigned.
    assert (Hbody : match String c s with
                    | String "0" (String x rest) =>
                        if Ascii.eqb x "x" || Ascii.eqb x "X"
                        then match rest with
                             | String "_" rest' => rest'
                             | _ => rest
                             end
                        else String c s
                    | _ => String c s
                    end = String c s).
    { destruct (Ascii.eqb_spec c "0"%char) as [->|Hn].
      - destruct s as [|x rest]; [reflexivity|].
        simpl in Hs. apply andb_prop in Hs as [Hxh _].
        destruct (is_hex_facts x Hxh) as (_ & _ & _ & Hx' & HX' & _).
        rewrite Hx', HX'. reflexivity.
      - destruct c as [[] [] [] [] [] [] [] []]; try reflexivity. congruence. }
    rewrite Hbody.
    destruct (Ascii.eqb_spec c "_"%char) as [->|Hn]; [discriminate|].
    rewrite <- (int16_digits_all_hex (String c s) 0 false false Hall) by (left; congruence).
    destruct c as [[] [] [] [] [] [] [] []]; try reflexivity. congruence. }
  destruct (Ascii.eqb_spec c "+"%char) as [->|Hn1]; [discriminate|].
  destruct (Ascii.eqb_spec c "-"%char) as [->|Hn2]; [discriminate|].
  transitivity (match int16_unsigned (String c s) with
                | Some z => Ok z
                | None => Raise ValueError
                end).
  - destruct c as [[] [] [] [] [] [] [] []]; try reflexivity; congruence.
  - rewrite Hu. reflexivity.
Qed.

Lemma is_valid_uuid_by_hex s t :
  uuid_hex s = uuid_hex t -> is_valid_uuid s = is_valid_uuid t.
Proof. unfold is_valid_uuid, UUID. intros ->. reflexivity. Qed.

Lemma is_valid_uuid_plain s :
  all_chars hex_or_dash s = true ->
  is_valid_uuid s = (count_hex s =? 32)%nat.
Proof.
  intros H. unfold is_valid_uuid, UUID.
  rewrite (uuid_hex_plain s H), length_digits_of.
  destruct (count_hex s =? 32)%nat eqn:E; [|reflexivity].
  apply Nat.eqb_eq in E. cbn [negb].
  assert (Hne : digits_of s <> EmptyString).
  { intros Hd. pose proof (length_digits_of s) as Hl. rewrite Hd, E in Hl. discriminate. }
  rewrite (int16_all_hex _ (all_hex_digits_of s) Hne). cbn [bind].
  pose proof (hex_number_range (digits_of s) 0 ltac:(lia)) as Hr.
  rewrite length_digits_of, E in Hr.
  change (16 ^ Z.of_nat 32)%Z with (2 ^ 128)%Z in Hr.
  destruct (0 <=? hex_number 0 (digits_of s))%Z eqn:E1;
    destruct (hex_number 0 (digits_of s) <? 2 ^ 128)%Z eqn:E2; try reflexivity; lia.
Qed.

Lemma remove_urn_prefix s :
  remove_all "urn:" ("urn:uuid:" +:+ s) = "uuid:" +:+ remove_all "urn:" s.
Proof. reflexivity. Qed.

Lemma remove_uuid_prefix s :
  remove_all "uuid:" ("uuid:" +:+ s) = remove_all "uuid:" s.
Proof. reflexivity. Qed.

Lemma uuid_hex_urn s : uuid_hex ("urn:uuid:" +:+ s) = uuid_hex s.
Proof.
  unfold uuid_hex. rewrite remove_urn_prefix, remove_uuid_prefix. reflexivity.
Qed.

Lemma all_chars_app p s t :
  all_chars p (s +:+ t) = all_chars p s && all_chars p t.
Proof.
  induction s as [|c s IH]; [reflexivity|].
  change (String c s +:+ t) with (String c (s +:+ t)).
  cbn [all_chars]. rewrite IH, andb_assoc. reflexivity.
Qed.

Lemma rstrip_by_snoc p s b :
  p b = true -> rstrip_by p (s +:+ String b "") = rstrip_by p s.
Proof.
  intros Hb. induction s as [|c s IH].
  - change ((if p b then "" else String b "") = "").
    rewrite Hb. reflexivity.
  - change (String c s +:+ String b "") with (String c (s +:+ String b "")).
    cbn [rstrip_by]. rewrite IH. reflexivity.
Qed.

Lemma uuid_hex_braced s :
  all_chars hex_or_dash s = true -> uuid_hex ("{" +:+ s +:+ "}") = uuid_hex s.
Proof.
  intros H.
  assert (Hu : forall a, hex_or_dash a = false -> Ascii.eqb a "{" = false ->
               Ascii.eqb a "}" = false ->
               all_chars (fun c => negb (Ascii.eqb a c)) ("{" +:+ s +:+ "}") = true).
  { intros a Ha H1 H2. rewrite !all_chars_app, (hex_or_dash_no a s Ha H).
    cbn [all_chars]. rewrite H1, H2. reflexivity. }
  unfold uuid_hex, remove_all.
  rewrite (remove_from_absent "rn:" "u" _) by now apply Hu.
  rewrite (remove_from_absent "uid:" "u" _) by now apply Hu.
  rewrite (remove_from_absent "rn:" "u" s) by now apply hex_or_dash_no.
  rewrite (remove_from_absent "uid:" "u" s) by now apply hex_or_dash_no.
  f_equal. rewrite (strip_by_none is_brace s) by now apply hex_or_dash_no_brace.
  unfold strip_by. change ("{" +:+ s +:+ "}") with (String "{" (s +:+ "}")).
  cbn [lstrip_by]. change (is_brace "{") with true. cbn iota.
  destruct s as [|c s'].
  - reflexivity.
  - change (String c s' +:+ "}") with (String c (s' +:+ "}")).
    cbn [lstrip_by]. pose proof (hex_or_dash_no_brace _ H) as Hb.
    cbn [all_chars] in Hb. apply andb_prop in Hb as [Hc Hs'].
    apply negb_true_iff in Hc. rewrite Hc.
    change (String c (s' +:+ "}")) with (String c s' +:+ "}").
    rewrite rstrip_by_snoc by reflexivity.
    apply rstrip_by_none. cbn [all_chars]. rewrite Hc, Hs'. reflexivity.
Qed.

Lemma take_hex_shape n s r :
  take_hex n s = Some r ->
  exists p, s = p +:+ r /\ all_chars is_hex p = true /\ String.length p = n.
Proof.
  revert s. induction n as [|n IH]; intros s; cbn [take_hex].
  - intros [= ->]. exists EmptyString. repeat split.
  - destruct s as [|c s]; [discriminate|].
    destruct (is_hex c) eqn:Hc; [|discriminate].
    intros H. destruct (IH _ H) as (p & -> & Hp & Hl).
    exists (String c p). cbn [all_chars String.length]. rewrite Hc, Hp, Hl. repeat split.
Qed.

Lemma after_dash_shape o r : after_dash o = Some r -> o = Some (String "-" r).
Proof.
  destruct o as [[|c s]|]; try discriminate. cbn [after_dash].
  destruct c as [[] [] [] [] [] [] [] []]; try discriminate. intros [= ->]. reflexivity.
Qed.

Lemma count_hex_app s t : count_hex (s +:+ t) = (count_hex s + count_hex t)%nat.
Proof.
  induction s as [|c s IH]; [reflexivity|].
  change (String c s +:+ t) with (String c (s +:+ t)). cbn [count_hex]. rewrite IH. lia.
Qed.

Lemma count_hex_all s : all_chars is_hex s = true -> count_hex s = String.length s.
Proof.
  induction s as [|c s IH]; [reflexivity|]. cbn [all_chars count_hex String.length].
  intros H. apply andb_prop in H as [-> Hs]. rewrite (IH Hs). reflexivity.
Qed.

Lemma all_hex_is_hex_or_dash s :
  all_chars is_hex s = true -> all_chars hex_or_dash s = true.
Proof.
  apply all_chars_impl. intros c Hc. unfold hex_or_dash. rewrite Hc. reflexivity.
Qed.

Lemma all_chars_dash s :
  all_chars hex_or_dash (String "-" s) = all_chars hex_or_dash s.
Proof. reflexivity. Qed.

Lemma count_hex_dash s : count_hex (String "-" s) = count_hex s.
Proof. reflexivity. Qed.

Lemma canonical_shape s :
  is_canonical s = true -> all_chars hex_or_dash s = true /\ count_hex s = 32%nat.
Proof.
  unfold is_canonical.
  destruct (after_dash (take_hex 8 s)) as [s1|] eqn:E1; [|discriminate].
  destruct (after_dash (take_hex 4 s1)) as [s2|] eqn:E2; [|discriminate].
  destruct (after_dash (take_hex 4 s2)) as [s3|] eqn:E3; [|discriminate].
  destruct (after_dash (take_hex 4 s3)) as [s4|] eqn:E4; [|discriminate].
  destruct (take_hex 12 s4) as [[|? ?]|] eqn:E5; try discriminate. intros _.
  apply after_dash_shape, take_hex_shape in E1 as (p1 & -> & H1 & L1).
  apply after_dash_shape, take_hex_shape in E2 as (p2 & -> & H2 & L2).
  apply after_dash_shape, take_hex_shape in E3 as (p3 & -> & H3 & L3).
  apply after_dash_shape, take_hex_shape in E4 as (p4 & -> & H4 & L4).
  apply take_hex_shape in E5 as (p5 & -> & H5 & L5).
  split.
  - repeat (rewrite all_chars_app || rewrite all_chars_dash).
    rewrite !all_hex_is_hex_or_dash by assumption. reflexivity.
  - repeat (rewrite count_hex_app || rewrite count_hex_dash).
    rewrite !count_hex_all by assumption. cbn [count_hex]. lia.
Qed.

(** ** Base-16 literals *)

Lemma int_space_facts c :
  int_space c = true ->
  hex_value c = None /\ is_underscore c = false
  /\ Ascii.eqb c "+" = false /\ Ascii.eqb c "-" = false.
Proof.
  destruct c as [[] [] [] [] [] [] [] []]; vm_compute; intros H;
    try discriminate H; repeat split; reflexivity.
Qed.

Lemma is_hex_value c : is_hex c = true <-> exists d, hex_value c = Some d.
Proof.
  unfold is_hex. destruct (hex_value c) as [d|].
  - split; [intros _; exists d; reflexivity|reflexivity].
  - split; [discriminate|intros [d H]; discriminate H].
Qed.

Lemma is_underscore_eq c : is_underscore c = true -> c = "_"%char.
Proof. unfold is_underscore. apply Ascii.eqb_eq. Qed.

Lemma lstrip_all p s :
  is_empty (lstrip_by p s) = true <-> all_chars p s = true.
Proof.
  induction s as [|c s IH]; cbn [lstrip_by all_chars]; [split; reflexivity|].
  destruct (p c); cbn [andb is_empty]; [exact IH|split; discriminate].
Qed.

Lemma lstrip_split p s :
  exists lead,
    s = lead +:+ lstrip_by p s /\ all_chars p lead = true
    /\ match lstrip_by p s with
       | String c _ => p c = false
       | EmptyString => True
       end.
Proof.
  induction s as [|c s (lead & Hs & Hl & Hc)]; cbn [lstrip_by].
  - exists EmptyString. repeat split.
  - destruct (p c) eqn:Hp.
    + exists (String c lead). cbn [all_chars]. rewrite Hp, Hl.
      split; [|split; [reflexivity|exact Hc]].
      change (String c lead +:+ lstrip_by p s)
        with (String c (lead +:+ lstrip_by p s)).
      rewrite <- Hs. reflexivity.
    + exists EmptyString. repeat split. exact Hp.
Qed.

Lemma lstrip_app p lead rest :
  all_chars p lead = true ->
  match rest with String c _ => p c = false | EmptyString => True end ->
  lstrip_by p (lead +:+ rest) = rest.
Proof.
  intros Hl Hr. induction lead as [|c lead IH].
  - change (EmptyString +:+ rest) with rest.
    destruct rest as [|c rest]; [reflexivity|]. cbn [lstrip_by].
    rewrite Hr. reflexivity.
  - change (String c lead +:+ rest) with (String c (lead +:+ rest)).
    cbn [all_chars] in Hl. apply andb_prop in Hl as [Hc Hl].
    cbn [lstrip_by]. rewrite Hc. apply IH, Hl.
Qed.

(** The digit loop reads what may follow a digit, and after an underscore
    it wants a digit. *)
Lemma digits_loop_sound s :
  (forall acc z, int16_digits acc false true s = Some z -> after_digit s)
  /\ (forall acc any z, int16_digits acc true any s = Some z ->
      exists c s', s = String c s' /\ is_hex c = true /\ after_digit s').
Proof.
  induction s as [|c s [IH1 IH2]]; split.
  - intros acc z _. apply after_blanks. reflexivity.
  - intros acc any z H. discriminate H.
  - intros acc z. cbn [int16_digits].
    destruct (hex_value c) as [d|] eqn:Hv.
    + intros H. apply after_more; [apply is_hex_value; eauto|].
      exact (IH1 _ _ H).
    + destruct (is_underscore c) eqn:Hu.
      * apply is_underscore_eq in Hu. subst c. cbn [orb negb].
        intros H. destruct (IH2 _ _ _ H) as (c' & s' & -> & Hc & Hs).
        apply after_under; assumption.
      * cbn [orb negb].
        destruct (is_empty (lstrip_by int_space (String c s))) eqn:He;
          [|discriminate].
        intros _. apply after_blanks, lstrip_all, He.
  - intros acc any z. cbn [int16_digits].
    destruct (hex_value c) as [d|] eqn:Hv.
    + intros H. exists c, s. split; [reflexivity|].
      split; [apply is_hex_value; eauto|]. exact (IH1 _ _ H).
    + destruct (is_underscore c); cbn [orb]; discriminate.
Qed.

Lemma digits_loop_complete s :
  after_digit s -> forall acc, exists z, int16_digits acc false true s = Some z.
Proof.
  induction 1 as [s Hs|c s Hc Hs IH|c s Hc Hs IH]; intros acc.
  - destruct s as [|c s]; [exists acc; reflexivity|].
    pose proof Hs as Hall. cbn [all_chars] in Hs.
    apply andb_prop in Hs as [Hc _].
    destruct (int_space_facts c Hc) as (Hv & Hu & _).
    cbn [int16_digits]. rewrite Hv, Hu. cbn [orb negb].
    apply lstrip_all in Hall. rewrite Hall. exists acc. reflexivity.
  - apply is_hex_value in Hc as [d Hd]. cbn [int16_digits]. rewrite Hd.
    apply IH.
  - apply is_hex_value in Hc as [d Hd].
    change (int16_digits acc false true (String "_" (String c s)))
      with (int16_digits acc true true (String c s)).
    cbn [int16_digits]. rewrite Hd. apply IH.
Qed.

Lemma digits_loop_range s acc p a z :
  (0 <= acc)%Z -> int16_digits acc p a s = Some z ->
  (0 <= z < (acc + 1) * 16 ^ Z.of_nat (String.length s))%Z.
Proof.
  revert acc p a. induction s as [|c s IH]; intros acc p a Hacc.
  - cbn [int16_digits String.length]. destruct (p || negb a); [discriminate|].
    intros [= <-]. change (16 ^ Z.of_nat 0)%Z with 1%Z. lia.
  - cbn [int16_digits String.length].
    rewrite Nat2Z.inj_succ, Z.pow_succ_r by lia.
    assert (Hpow : (0 < 16 ^ Z.of_nat (String.length s))%Z)
      by (apply Z.pow_pos_nonneg; lia).
    destruct (hex_value c) as [d|] eqn:Hv.
    + intros H. apply hex_value_range in Hv.
      apply IH in H; [|lia]. nia.
    + destruct (is_underscore c).
      * destruct p; [discriminate|]. intros H. apply IH in H; [|lia]. nia.
      * destruct (p || negb a); [discriminate|].
        destruct (is_empty _); [|discriminate]. intros [= <-]. nia.
Qed.

(** The start of the digits: a digit, and no underscore before it. *)
Lemma digits_start_iff c s :
  (exists z, (if Ascii.eqb c "_" then None
              else int16_digits 0 false false (String c s)) = Some z)
  <-> hex_digits (String c s).
Proof.
  split.
  - intros [z H]. destruct (Ascii.eqb c "_") eqn:Hu; [discriminate|].
    cbn [int16_digits] in H. destruct (hex_value c) as [d|] eqn:Hv.
    + exists c, s. split; [reflexivity|].
      split; [apply is_hex_value; eauto|].
      exact (proj1 (digits_loop_sound s) _ _ H).
    + unfold is_underscore in H. rewrite Hu in H. cbn [orb negb] in H.
      discriminate H.
  - intros (c' & s' & [= <- <-] & Hc & Hs).
    destruct (is_hex_facts c Hc) as (_ & _ & _ & _ & _ & Hu). rewrite Hu.
    apply is_hex_value in Hc as [d Hd]. cbn [int16_digits]. rewrite Hd.
    apply digits_loop_complete, Hs.
Qed.

Lemma match_underscore {A} (c : ascii) (s : string) (none other : A) :
  match String c s with
  | String "_" _ => none
  | _ => other
  end = if Ascii.eqb c "_" then none else other.
Proof. destruct c as [[] [] [] [] [] [] [] []]; reflexivity. Qed.

Lemma digits_body_iff body :
  (exists z, match body with
             | String "_" _ => None
             | _ => int16_digits 0 false false body
             end = Some z)
  <-> hex_digits body.
Proof.
  destruct body as [|c s].
  - split; [intros [z H]; discriminate H|].
    intros (c & s & H & _). discriminate H.
  - rewrite <- digits_start_iff.
    rewrite (match_underscore c s None (int16_digits 0 false false (String c s))).
    reflexivity.
Qed.

Lemma digits_body_range body z :
  match body with
  | String "_" _ => None
  | _ => int16_digits 0 false false body
  end = Some z ->
  (0 <= z < 16 ^ Z.of_nat (String.length body))%Z.
Proof.
  intros H.
  assert (Hd : int16_digits 0 false false body = Some z).
  { destruct body as [|c s]; [exact H|].
    rewrite (match_underscore c s None (int16_digits 0 false false (String c s)))
      in H.
    destruct (Ascii.eqb c "_"); [discriminate H|exact H]. }
  apply digits_loop_range in Hd; lia.
Qed.

(** How the prefix is taken off. *)
Lemma int16_unsigned_cases s :
  (exists x s',
     (x = "x"%char \/ x = "X"%char) /\ s = String "0" (String x s')
     /\ int16_unsigned s
        = let body := match s' with String "_" r => r | _ => s' end in
          match body with
          | String "_" _ => None
          | _ => int16_digits 0 false false body
          end)
  \/ ((forall x s', x = "x"%char \/ x = "X"%char ->
                    s <> String "0" (String x s'))
      /\ int16_unsigned s
         = match s with
           | String "_" _ => None
           | _ => int16_digits 0 false false s
           end).
Proof.
  destruct s as [|c [|x s']].
  - right. split; [intros; discriminate|reflexivity].
  - right. split; [intros; discriminate|].
    destruct c as [[] [] [] [] [] [] [] []]; reflexivity.
  - destruct (Ascii.eqb_spec c "0"%char) as [->|Hc].
    + destruct (Ascii.eqb x "x" || Ascii.eqb x "X") eqn:Hx.
      * left. exists x, s'. split.
        { apply orb_true_iff in Hx as [Hx|Hx]; apply Ascii.eqb_eq in Hx;
            [left|right]; exact Hx. }
        split; [reflexivity|]. unfold int16_unsigned. rewrite Hx. reflexivity.
      * right. split.
        { intros x0 s0 Hx0 [= <- <-].
          destruct Hx0 as [->| ->]; vm_compute in Hx; discriminate Hx. }
        unfold int16_unsigned. rewrite Hx. reflexivity.
    + right. split; [intros x0 s0 _ [= H _]; congruence|].
      destruct c as [[] [] [] [] [] [] [] []]; try reflexivity. congruence.
Qed.

Lemma hex_digits_head s :
  hex_digits s -> exists c s', s = String c s' /\ is_hex c = true.
Proof. intros (c & s' & H & Hc & _). eauto. Qed.

Lemma int16_unsigned_iff s :
  (exists z, int16_unsigned s = Some z) <-> hex_unsigned s.
Proof.
  destruct (int16_unsigned_cases s) as [(x & s' & Hx & -> & ->)|[Hno ->]].
  - cbv zeta. rewrite digits_body_iff. unfold hex_unsigned. split.
    + intros Hd. right. exists x.
      destruct s' as [|u r].
      { apply hex_digits_head in Hd as (c & t & H & _). discriminate H. }
      destruct (Ascii.eqb_spec u "_"%char) as [->|Hu].
      * exists r. split; [exact Hx|]. split; [exact Hd|]. right. reflexivity.
      * exists (String u r). split; [exact Hx|].
        assert (Hb : match String u r with String "_" r0 => r0 | _ => String u r end
                     = String u r).
        { rewrite (match_underscore u r r (String u r)).
          apply Ascii.eqb_neq in Hu. rewrite Hu. reflexivity. }
        rewrite Hb in Hd. split; [exact Hd|]. left. reflexivity.
    + intros [Hd|(x0 & t & Hx0 & Ht & [Heq|Heq])].
      * destruct Hd as (c & t & [= <- <-] & _ & Ha). exfalso.
        inversion Ha as [t Hb|c t Hc _|c t _ _]; subst.
        -- cbn [all_chars] in Hb. apply andb_prop in Hb as [Hb _].
           destruct Hx as [-> | ->]; discriminate Hb.
        -- destruct Hx as [-> | ->]; discriminate Hc.
        -- destruct Hx as [Hx|Hx]; discriminate Hx.
      * injection Heq as <- <-.
        destruct (hex_digits_head _ Ht) as (c & r & -> & Hc).
        destruct (is_hex_facts c Hc) as (_ & _ & _ & _ & _ & Hu).
        rewrite (match_underscore c r r (String c r)), Hu. exact Ht.
      * injection Heq as _ ->. exact Ht.
  - rewrite digits_body_iff. unfold hex_unsigned. split; [intros H; left; exact H|].
    intros [H|(x & t & Hx & _ & [Heq|Heq])]; [exact H| |];
      exfalso; eapply Hno; eauto.
Qed.

Lemma int16_unsigned_range s z :
  int16_unsigned s = Some z ->
  (0 <= z < 16 ^ Z.of_nat (String.length s))%Z.
Proof.
  destruct (int16_unsigned_cases s) as [(x & s' & Hx & -> & ->)|[Hno ->]].
  - cbv zeta. intros H. apply digits_body_range in H.
    assert (Hlen : String.length (match s' with String "_" r => r | _ => s' end)
                   <= String.length (String "0" (String x s'))).
    { destruct s' as [|u r]; [cbn [String.length]; lia|].
      rewrite (match_underscore u r r (String u r)).
      destruct (Ascii.eqb u "_"); cbn [String.length]; lia. }
    assert (16 ^ Z.of_nat (String.length
                             (match s' with String "_" r => r | _ => s' end))
            <= 16 ^ Z.of_nat (String.length (String "0" (String x s'))))%Z
      by (apply Z.pow_le_mono_r; lia).
    lia.
  - apply digits_body_range.
Qed.

(** How the sign is taken off. *)
Lemma int16_cases s :
  exists lead rest,
    s = lead +:+ rest /\ all_chars int_space lead = true
    /\ match rest with
       | String c _ => int_space c = false
       | EmptyString => True
       end
    /\ int16 s
       = match (match rest with
                | String c r =>
                    if Ascii.eqb c "+" then int16_unsigned r
                    else if Ascii.eqb c "-"
                         then option_map Z.opp (int16_unsigned r)
                         else int16_unsigned rest
                | EmptyString => int16_unsigned rest
                end) with
         | Some z => Ok z
         | None => Raise ValueError
         end.
Proof.
  destruct (lstrip_split int_space s) as (lead & Hs & Hl & Hc).
  exists lead, (lstrip_by int_space s).
  split; [exact Hs|]. split; [exact Hl|]. split; [exact Hc|].
  unfold int16. destruct (lstrip_by int_space s) as [|c r]; [reflexivity|].
  destruct c as [[] [] [] [] [] [] [] []]; reflexivity.
Qed.

Lemma hex_unsigned_head s :
  hex_unsigned s -> exists c s', s = String c s' /\ is_hex c = true.
Proof.
  intros [H|(x & t & _ & _ & [-> | ->])]; [apply hex_digits_head, H| |];
    eexists _, _; split; reflexivity.
Qed.

(** A text without a minus sign is read exactly when it is a literal, and
    as a number below 16 to the power of its length. *)
Lemma int16_iff s :
  no_char "-" s = true ->
  ((exists z, int16 s = Ok z) <-> hex_literal s)
  /\ (forall z, int16 s = Ok z ->
        (0 <= z < 16 ^ Z.of_nat (String.length s))%Z).
Proof.
  intros Hdash.
  destruct (int16_cases s) as (lead & rest & -> & Hl & Hc & ->).
  assert (Hlen : (16 ^ Z.of_nat (String.length rest)
                  <= 16 ^ Z.of_nat (String.length (lead +:+ rest)))%Z).
  { apply Z.pow_le_mono_r; [lia|].
    clear. induction lead as [|c lead IH];
      [change (EmptyString +:+ rest) with rest; lia|].
    change (String c lead +:+ rest) with (String c (lead +:+ rest)).
    cbn [String.length]. lia. }
  unfold no_char in Hdash. rewrite all_chars_app in Hdash.
  apply andb_prop in Hdash as [_ Hdash].
  destruct rest as [|c r].
  { split.
    - split; [intros [z H]; discriminate H|].
      intros (lead' & rest' & Heq & _ & Hr). exfalso.
      assert (Hh : exists c s', rest' = String c s'
                     /\ (is_hex c = true \/ c = "+"%char)).
      { destruct Hr as [Hr|(r & -> & _)].
        - destruct (hex_unsigned_head _ Hr) as (c & s' & -> & Hh). eauto.
        - eauto. }
      destruct Hh as (c & s' & -> & Hh).
      assert (Hin : all_chars int_space (lead' +:+ String c s') = true).
      { rewrite <- Heq, all_chars_app, Hl. reflexivity. }
      rewrite all_chars_app in Hin. apply andb_prop in Hin as [_ Hin].
      cbn [all_chars] in Hin. apply andb_prop in Hin as [Hin _].
      destruct Hh as [Hh| ->]; [|discriminate Hin].
      destruct (is_hex_facts c Hh) as (Hsp & _). congruence.
    - intros z H. discriminate H. }
  cbn [all_chars] in Hdash. apply andb_prop in Hdash as [Hcd _].
  apply negb_true_iff in Hcd. rewrite Hcd.
  assert (Hsplit : forall lead' rest',
            lead +:+ String c r = lead' +:+ rest' ->
            all_chars int_space lead' = true ->
            match rest' with
            | String c' _ => int_space c' = false
            | EmptyString => False
            end ->
            rest' = String c r).
  { intros lead' rest' Heq Hl' Hc'.
    rewrite <- (lstrip_app int_space lead (String c r) Hl Hc).
    rewrite Heq. symmetry. apply lstrip_app; [exact Hl'|].
    destruct rest'; [contradiction|exact Hc']. }
  destruct (Ascii.eqb c "+") eqn:Hplus.
  - apply Ascii.eqb_eq in Hplus. subst c. split.
    + split.
      * intros [z H]. exists lead, (String "+" r).
        split; [reflexivity|]. split; [exact Hl|]. right. exists r.
        split; [reflexivity|]. apply int16_unsigned_iff.
        destruct (int16_unsigned r) as [z'|]; [eauto|discriminate H].
      * intros (lead' & rest' & Heq & Hl' & Hr).
        assert (Hrest : rest' = String "+" r).
        { apply (Hsplit lead' rest' Heq Hl').
          destruct Hr as [Hr|(r' & -> & _)]; [|reflexivity].
          destruct (hex_unsigned_head _ Hr) as (c & s' & -> & Hh).
          apply (is_hex_facts c Hh). }
        subst rest'. destruct Hr as [Hr|(r' & [= <-] & Hr)].
        -- destruct (hex_unsigned_head _ Hr) as (c & s' & [= <- _] & Hh).
           discriminate Hh.
        -- apply int16_unsigned_iff in Hr as [z ->]. eauto.
    + intros z H. destruct (int16_unsigned r) as [z'|] eqn:Hu; [|discriminate H].
      injection H as <-. apply int16_unsigned_range in Hu.
      assert (16 ^ Z.of_nat (String.length r)
              <= 16 ^ Z.of_nat (String.length (String "+" r)))%Z
        by (apply Z.pow_le_mono_r; cbn [String.length]; lia).
      lia.
  - split.
    + split.
      * intros [z H]. exists lead, (String c r).
        split; [reflexivity|]. split; [exact Hl|]. left.
        apply int16_unsigned_iff.
        destruct (int16_unsigned (String c r)) as [z'|]; [eauto|discriminate H].
      * intros (lead' & rest' & Heq & Hl' & Hr).
        assert (Hrest : rest' = String c r).
        { apply (Hsplit lead' rest' Heq Hl').
          destruct Hr as [Hr|(r' & -> & _)]; [|reflexivity].
          destruct (hex_unsigned_head _ Hr) as (c' & s' & -> & Hh).
          apply (is_hex_facts c' Hh). }
        subst rest'. destruct Hr as [Hr|(r' & [= -> _] & _)].
        -- apply int16_unsigned_iff in Hr as [z ->]. eauto.
        -- rewrite Ascii.eqb_refl in Hplus. discriminate Hplus.
    + intros z H.
      destruct (int16_unsigned (String c r)) as [z'|] eqn:Hu; [|discriminate H].
      injection H as <-. apply int16_unsigned_range in Hu. lia.
Qed.

Lemma remove_dash_none s : no_char "-" (remove_all "-" s) = true.
Proof.
  unfold remove_all, no_char. induction s as [|c s IH]; [reflexivity|].
  cbn [remove_from startswith String.length Nat.pred].
  destruct (Ascii.eqb "-" c) eqn:Hc.
  - destruct s; exact IH.
  - cbn [all_chars]. rewrite Ascii.eqb_sym, Hc. exact IH.
Qed.

Lemma after_digit_chars s :
  after_digit s -> all_chars literal_char s = true.
Proof.
  induction 1 as [s Hs|c s Hc Hs IH|c s Hc Hs IH].
  - revert Hs. apply all_chars_impl. intros c Hc. unfold literal_char.
    rewrite Hc, orb_true_r. reflexivity.
  - cbn [all_chars]. rewrite IH. unfold literal_char. rewrite Hc. reflexivity.
  - cbn [all_chars]. rewrite IH. unfold literal_char at 2. rewrite Hc.
    reflexivity.
Qed.

Lemma hex_digits_chars s : hex_digits s -> all_chars literal_char s = true.
Proof.
  intros (c & s' & -> & Hc & Hs). cbn [all_chars].
  rewrite (after_digit_chars _ Hs). unfold literal_char. rewrite Hc.
  reflexivity.
Qed.

Lemma hex_unsigned_chars s : hex_unsigned s -> all_chars literal_char s = true.
Proof.
  intros [H|(x & t & Hx & Ht & Hs)]; [apply hex_digits_chars, H|].
  apply hex_digits_chars in Ht.
  destruct Hx as [-> | ->]; destruct Hs as [-> | ->]; cbn [all_chars];
    rewrite Ht; reflexivity.
Qed.

Lemma hex_literal_chars s : hex_literal s -> all_chars literal_char s = true.
Proof.
  intros (lead & rest & -> & Hl & Hr). rewrite all_chars_app.
  apply andb_true_iff. split.
  - revert Hl. apply all_chars_impl. intros c Hc. unfold literal_char.
    rewrite Hc, orb_true_r. reflexivity.
  - destruct Hr as [Hr|(r & -> & Hr)]; [apply hex_unsigned_chars, Hr|].
    cbn [all_chars]. rewrite (hex_unsigned_chars _ Hr). reflexivity.
Qed.

(** The check, for every text: 32 characters that are a literal. *)
Lemma is_valid_uuid_iff s :
  is_valid_uuid s = true
  <-> String.length (uuid_hex s) = 32%nat /\ hex_literal (uuid_hex s).
Proof.
  unfold is_valid_uuid, UUID.
  assert (Hdash : no_char "-" (uuid_hex s) = true) by apply remove_dash_none.
  destruct (int16_iff _ Hdash) as [Hiff Hrange].
  destruct (String.length (uuid_hex s) =? 32)%nat eqn:Hlen; cbn [negb].
  - apply Nat.eqb_eq in Hlen.
    destruct (int16 (uuid_hex s)) as [z|e] eqn:Hint; cbn [bind].
    + specialize (Hrange z eq_refl). rewrite Hlen in Hrange.
      change (16 ^ Z.of_nat 32)%Z with (2 ^ 128)%Z in Hrange.
      destruct (0 <=? z)%Z eqn:E1; destruct (z <? 2 ^ 128)%Z eqn:E2;
        cbn [andb negb]; try lia.
      split; [intros _|reflexivity]. split; [exact Hlen|].
      apply Hiff. eauto.
    + split; [discriminate|]. intros [_ Hlit].
      apply Hiff in Hlit as [z Hz]. discriminate Hz.
  - split; [discriminate|]. intros [Hl _]. apply Nat.eqb_neq in Hlen.
    contradiction.
Qed.




(** ** Required fields *)

Lemma check_required_fields_cons row field rest :
  check_required_fields row (field :: rest) =
  let val := row_get row field in
  if is_none val || is_empty (strip (str_of val))
  then (false, FieldMissing field)
  else if contains "_uid" (lower field)
  then
    if negb (is_valid_uuid (strip (str_of val)))
    then (false, FieldNotUuid field (strip (str_of val)))
    else check_required_fields row rest
  else check_required_fields row rest.
Proof. reflexivity. Qed.

Lemma is_empty_true s : is_empty s = true <-> s = EmptyString.
Proof. destruct s; split; intros H; try reflexivity; discriminate H. Qed.

Lemma check_field_ok row field rest :
  (check_required_fields row (field :: rest)).1 = true <->
  field_ok row field /\ (check_required_fields row rest).1 = true.
Proof.
  rewrite check_required_fields_cons. cbv zeta. unfold field_ok, names__uid.
  destruct (row_get row field) as [val|]; cbn [is_none str_of orb].
  - destruct (is_empty (strip val)) eqn:He.
    + split; [discriminate|]. intros [(v & [= <-] & Hne & _) _].
      apply is_empty_true in He. contradiction.
    + destruct (contains "_uid" (lower field)).
      * destruct (is_valid_uuid (strip val)) eqn:Hu; cbn [negb].
        -- split.
           ++ intros Hr. split; [|exact Hr]. exists val. repeat split.
              ** intros Hs. apply is_empty_true in Hs. congruence.
              ** intros _. assumption.
           ++ intros [_ Hr]. exact Hr.
        -- split; [discriminate|]. intros [(v & [= <-] & _ & Hv) _].
           specialize (Hv eq_refl). congruence.
      * split.
        -- intros Hr. split; [|exact Hr]. exists val. repeat split.
           ++ intros Hs. apply is_empty_true in Hs. congruence.
           ++ discriminate.
        -- intros [_ Hr]. exact Hr.
  - split; [discriminate|]. intros [(v & [=] & _) _].
Qed.

(** C1, as amended.  A row passes validation exactly when every required
    field is present with a value that is not blank once trimmed and, for
    the required fields whose lower-cased name contains [_uid] and for no
    others, the trimmed value passes the UUID check. *)
Theorem validation_checks_uuid_of__uid_fields
    (row : Row) (required_fields : list string) :
  (check_required_fields row required_fields).1 = true <->
  forall field, field ∈ required_fields ->
    exists val, row_get row field = Some val
      /\ strip val <> EmptyString
      /\ (names__uid field = true -> is_valid_uuid (strip val) = true).
Proof.
  induction required_fields as [|field rest IH].
  - split; [|reflexivity]. intros _ field Hin. apply elem_of_nil in Hin. contradiction.
  - rewrite check_field_ok, IH. split.
    + intros [Hf Hrest] f Hin. apply elem_of_cons in Hin as [->|Hin]; [exact Hf|auto].
    + intros H. split.
      * apply H, list_elem_of_here.
      * intros f Hin. apply H, list_elem_of_further, Hin.
Qed.

(** C1 as worded fails: the required field [uid] contains [uid], its value
    is no UUID, and the row passes. *)
Lemma validation_ignores_plain_uid_name :
  ~ (forall (row : Row) (required_fields : list string) (field val : string),
       field ∈ required_fields ->
       names_uid field = true ->
       row_get row field = Some val ->
       is_valid_uuid (strip val) = false ->
       (check_required_fields row required_fields).1 = false).
Proof.
  intros H.
  specialize (H [("uid", Some "not-a-uuid")] ["uid"] "uid" "not-a-uuid").
  assert (Hin : "uid" ∈ ["uid"]) by apply list_elem_of_here.
  specialize (H Hin eq_refl eq_refl eq_refl). vm_compute in H. discriminate H.
Qed.

(** ** The row reader *)

Section ReaderFacts.
Variable decode_strict : string -> list Byte.byte -> result string.
Variable decode_replace : string -> list Byte.byte -> string.
Variable csv_reader_lines : string -> string -> list (list string).
Variable csv_reader_error : string -> string -> option exn.
Variable default_delimiter : string.

Lemma yields_app evs1 evs2 : yields (evs1 ++ evs2) = yields evs1 ++ yields evs2.
Proof. unfold yields. apply omap_app. Qed.

Lemma yields_yield n row evs :
  yields (Yield n row :: evs) = (n, row) :: yields evs.
Proof. reflexivity. Qed.

Lemma yields_logged recs : yields (logged recs) = [].
Proof. induction recs as [|r recs IH]; [reflexivity|exact IH]. Qed.

Lemma normalize_well_formed r :
  well_formed r -> normalize_row r = Ok (row_of r).
Proof. unfold well_formed, normalize_row, row_of. intros ->. reflexivity. Qed.

Lemma normalize_surplus r cells :
  surplus r = Some cells -> normalize_row r = Raise AttributeError.
Proof. unfold normalize_row. intros ->. reflexivity. Qed.

(** On lines that all fit the header, the loop yields the rows that pass
    validation, once each, in order, with the number of their line. *)
Lemma rows_loop_yields path required logger start rows at_end :
  Forall well_formed rows ->
  yields (rows_loop path required logger start rows at_end)
  = filter (fun item => passes required item.2 = true)
           (numbered start (map row_of rows))
    ++ yields at_end.
Proof.
  intros Hwf. revert start.
  induction Hwf as [|r rows Hr Hrows IH]; intros start; [reflexivity|].
  cbn [rows_loop]. rewrite (normalize_well_formed r Hr).
  unfold numbered. cbn [map length seq zip_with].
  rewrite filter_cons. cbn [snd].
  case_decide as Hp; unfold passes in Hp;
    destruct (check_required_fields (row_of r) required) as [ok err];
    cbn [fst] in Hp; destruct ok; try congruence; cbn [negb].
  - rewrite yields_yield. cbn [app]. f_equal. apply IH.
  - rewrite yields_app, yields_logged. apply IH.
Qed.

Lemma yields_reader_raised path logger error :
  yields (reader_raised path logger error) = [].
Proof. destruct error; [apply yields_logged|reflexivity]. Qed.

(** A line with more cells than the header ends the loop: nothing is
    yielded from there on. *)
Lemma rows_loop_stops path required logger start rows r cells rest at_end :
  Forall well_formed rows -> surplus r = Some cells ->
  yields (rows_loop path required logger start (rows ++ r :: rest) at_end)
  = yields (rows_loop path required logger start rows []).
Proof.
  intros Hwf Hr. revert start.
  induction Hwf as [|r0 rows Hr0 Hrows IH]; intros start.
  - cbn [app rows_loop]. rewrite (normalize_surplus r cells Hr).
    apply yields_logged.
  - cbn [app rows_loop]. rewrite (normalize_well_formed r0 Hr0).
    destruct (check_required_fields (row_of r0) required) as [[] err]; cbn [negb].
    + rewrite !yields_yield. f_equal. apply IH.
    + rewrite !yields_app. f_equal. apply IH.
Qed.

Lemma iter_csv_rows_parts path raw encoding required logger delimiter :
  iter_csv_rows decode_strict decode_replace csv_reader_lines csv_reader_error
                default_delimiter path raw encoding required logger delimiter
  = logged (read_content decode_strict decode_replace logger raw encoding).1
    ++ match (read_content decode_strict decode_replace logger raw encoding).2 with
       | Ok (content, _) =>
           parse_rows csv_reader_lines csv_reader_error path required logger
             (default default_delimiter delimiter) content
       | Raise e => [Throw e]
       end.
Proof.
  unfold iter_csv_rows.
  destruct (read_content decode_strict decode_replace logger raw encoding)
    as [recs [[content used]|e]];
  destruct delimiter; reflexivity.
Qed.

(** The reader on a file whose lines all fit the header. *)
Lemma iter_csv_rows_yields path raw encoding required logger delimiter
    recs content used header lines :
  read_content decode_strict decode_replace logger raw encoding
  = (recs, Ok (content, used)) ->
  csv_reader_lines (default default_delimiter delimiter) content
  = header :: lines ->
  Forall well_formed
    (DictReader (map (fun field => lower (strip field)) header) lines) ->
  yields (iter_csv_rows decode_strict decode_replace csv_reader_lines csv_reader_error
            default_delimiter path raw encoding required logger delimiter)
  = filter (fun item => passes required item.2 = true)
      (numbered 2
         (map row_of
            (DictReader (map (fun field => lower (strip field)) header) lines))).
Proof.
  intros Hread Hlines Hwf.
  rewrite iter_csv_rows_parts, Hread, yields_app, yields_logged. cbn [app snd].
  unfold parse_rows. rewrite Hlines.
  rewrite (rows_loop_yields _ _ _ _ _ _ Hwf), yields_reader_raised.
  apply app_nil_r.
Qed.

Lemma try_encodings_found logger raw pre enc post text :
  Forall (fun e => decode_strict e raw = Raise UnicodeDecodeError) pre ->
  decode_strict enc raw = Ok text ->
  try_encodings decode_strict logger raw (pre ++ enc :: post)
  = (flat_map (fun e => tell logger WARNING (DecodeFailed e)) pre,
     Ok (Some (text, enc))).
Proof.
  intros Hpre Henc. induction Hpre as [|e pre He Hpre IH].
  - cbn [app try_encodings]. rewrite Henc. reflexivity.
  - cbn [app try_encodings flat_map]. rewrite He, IH. reflexivity.
Qed.

Lemma try_encodings_none logger raw encs :
  Forall (fun e => decode_strict e raw = Raise UnicodeDecodeError) encs ->
  try_encodings decode_strict logger raw encs
  = (flat_map (fun e => tell logger WARNING (DecodeFailed e)) encs, Ok None).
Proof.
  intros H. induction H as [|e encs He Hencs IH]; [reflexivity|].
  cbn [try_encodings flat_map]. rewrite He, IH. reflexivity.
Qed.

(** An attempt that ends in another exception ends the loop with it. *)
Lemma try_encodings_raised logger raw pre enc post e :
  Forall (fun e => decode_strict e raw = Raise UnicodeDecodeError) pre ->
  decode_strict enc raw = Raise e -> e <> UnicodeDecodeError ->
  try_encodings decode_strict logger raw (pre ++ enc :: post)
  = (flat_map (fun e => tell logger WARNING (DecodeFailed e)) pre, Raise e).
Proof.
  intros Hpre Henc Hne. induction Hpre as [|e0 pre He Hpre IH].
  - cbn [app try_encodings]. rewrite Henc. destruct e; try reflexivity; congruence.
  - cbn [app try_encodings flat_map]. rewrite He, IH. reflexivity.
Qed.
End ReaderFacts.

Lemma flat_map_tell {A} (l : Logger) lv (msg : A -> message) (xs : list A) :
  flat_map (fun x => tell (Some l) lv (msg x)) xs
  = map (fun x => mkRecord l lv (msg x)) xs.
Proof.
  induction xs as [|x xs IH]; simpl in *; congruence.
Qed.

(** C4, as amended.  The file is decoded strictly with the guessed
    encoding, cp1251, utf-8 and utf-8-sig, in this order.  As long as the attempts fail with
    [UnicodeDecodeError], one warning is logged per failed attempt: the
    first attempt that decodes all the bytes gives the text the rows are
    parsed from, and when the four fail the text is the guessed encoding's
    decoding with replacement, an error is logged, and the reader goes on.
    An attempt that fails with any other exception, as the [LookupError]
    of a label without a codec, is not caught: the reader raises it, and no
    later encoding is tried. *)
Theorem decoding_falls_back_in_order
    (decode_strict : string -> list Byte.byte -> result string)
    (decode_replace : string -> list Byte.byte -> string)
    (csv_reader_lines : string -> string -> list (list string))
    (csv_reader_error : string -> string -> option exn)
    (default_delimiter : string)
    (logger : Logger) (raw : list Byte.byte) (encoding : string) :
  let attempts := [encoding; "cp1251"; "utf-8"; "utf-8-sig"] in
  let undecodable :=
    fun enc => decode_strict enc raw = Raise UnicodeDecodeError in
  let warn := fun enc => mkRecord logger WARNING (DecodeFailed enc) in
  let out := read_content decode_strict decode_replace (Some logger) raw encoding in
  let reader := fun path required delimiter =>
    iter_csv_rows decode_strict decode_replace csv_reader_lines csv_reader_error
      default_delimiter path raw encoding required (Some logger) delimiter in
  let parse := fun path required delimiter content =>
    parse_rows csv_reader_lines csv_reader_error path required (Some logger)
      (default default_delimiter delimiter) content in
  (forall pre enc post text,
     attempts = pre ++ enc :: post -> Forall undecodable pre ->
     decode_strict enc raw = Ok text ->
     out = (map warn pre ++ [mkRecord logger INFO (OpenedWith enc)],
            Ok (text, enc))
     /\ forall path required delimiter,
          reader path required delimiter
          = logged (map warn pre ++ [mkRecord logger INFO (OpenedWith enc)])
            ++ parse path required delimiter text)
  /\ (Forall undecodable attempts ->
      out = (map warn attempts
             ++ [mkRecord logger ERROR (OpenedWithReplacement encoding);
                 mkRecord logger INFO (OpenedWith encoding)],
             Ok (decode_replace encoding raw, encoding))
      /\ forall path required delimiter,
           reader path required delimiter
           = logged (map warn attempts
                     ++ [mkRecord logger ERROR (OpenedWithReplacement encoding);
                         mkRecord logger INFO (OpenedWith encoding)])
             ++ parse path required delimiter (decode_replace encoding raw))
  /\ (forall pre enc post e,
        attempts = pre ++ enc :: post -> Forall undecodable pre ->
        decode_strict enc raw = Raise e -> e <> UnicodeDecodeError ->
        out = (map warn pre, Raise e)
        /\ forall path required delimiter,
             reader path required delimiter
             = logged (map warn pre) ++ [Throw e]).
Proof.
  cbv zeta. split; [|split].
  - intros pre enc post text Hatt Hpre Henc.
    assert (Hout : read_content decode_strict decode_replace (Some logger) raw
                     encoding
                   = (map (fun enc => mkRecord logger WARNING (DecodeFailed enc)) pre
                      ++ [mkRecord logger INFO (OpenedWith enc)], Ok (text, enc))).
    { unfold read_content, encodings_to_try. rewrite Hatt.
      rewrite (try_encodings_found _ _ _ _ _ _ _ Hpre Henc).
      rewrite flat_map_tell. reflexivity. }
    split; [exact Hout|]. intros path required delimiter.
    rewrite iter_csv_rows_parts, Hout. reflexivity.
  - intros Hall.
    assert (Hout : read_content decode_strict decode_replace (Some logger) raw
                     encoding
                   = (map (fun enc => mkRecord logger WARNING (DecodeFailed enc))
                          [encoding; "cp1251"; "utf-8"; "utf-8-sig"]
                      ++ [mkRecord logger ERROR (OpenedWithReplacement encoding);
                          mkRecord logger INFO (OpenedWith encoding)],
                      Ok (decode_replace encoding raw, encoding))).
    { unfold read_content, encodings_to_try.
      rewrite (try_encodings_none _ _ _ _ Hall), flat_map_tell. reflexivity. }
    split; [exact Hout|]. intros path required delimiter.
    rewrite iter_csv_rows_parts, Hout. reflexivity.
  - intros pre enc post e Hatt Hpre Henc Hne.
    assert (Hout : read_content decode_strict decode_replace (Some logger) raw
                     encoding
                   = (map (fun enc => mkRecord logger WARNING (DecodeFailed enc)) pre,
                      Raise e)).
    { unfold read_content, encodings_to_try. rewrite Hatt.
      rewrite (try_encodings_raised _ _ _ _ _ _ _ Hpre Henc Hne).
      rewrite flat_map_tell. reflexivity. }
    split; [exact Hout|]. intros path required delimiter.
    rewrite iter_csv_rows_parts, Hout. reflexivity.
Qed.

Lemma decoding_falls_back_in_order_witness :
  read_content Samples.decode_strict Samples.decode_replace (Some "log")
               [Byte.xe9] "utf-8"
  = ([mkRecord "log" WARNING (DecodeFailed "utf-8");
      mkRecord "log" INFO (OpenedWith "cp1251")],
     Ok (Samples.chars_of [Byte.xe9], "cp1251"))
  /\ read_content Samples.decode_ascii_only Samples.decode_replace (Some "log")
                  [Byte.xe9] "utf-8"
     = ([mkRecord "log" WARNING (DecodeFailed "utf-8");
         mkRecord "log" WARNING (DecodeFailed "cp1251");
         mkRecord "log" WARNING (DecodeFailed "utf-8");
         mkRecord "log" WARNING (DecodeFailed "utf-8-sig");
         mkRecord "log" ERROR (OpenedWithReplacement "utf-8");
         mkRecord "log" INFO (OpenedWith "utf-8")],
        Ok ("?", "utf-8"))
  /\ read_content Samples.decode_strict Samples.decode_replace (Some "log")
                  [Byte.xe9] "EUC-TW"
     = ([], Raise LookupError).
Proof.
  split; [|split].
  - apply (proj1 (decoding_falls_back_in_order
             Samples.decode_strict Samples.decode_replace
             Samples.csv_reader_lines Samples.csv_reader_error ";" "log"
             [Byte.xe9] "utf-8")
             ["utf-8"] "cp1251" ["utf-8"; "utf-8-sig"]).
    + reflexivity.
    + repeat constructor.
    + reflexivity.
  - apply (proj1 (proj2 (decoding_falls_back_in_order
             Samples.decode_ascii_only Samples.decode_replace
             Samples.csv_reader_lines Samples.csv_reader_error ";" "log"
             [Byte.xe9] "utf-8"))).
    repeat constructor.
  - apply (proj2 (proj2 (decoding_falls_back_in_order
             Samples.decode_strict Samples.decode_replace
             Samples.csv_reader_lines Samples.csv_reader_error ";" "log"
             [Byte.xe9] "EUC-TW"))
             [] "EUC-TW" ["cp1251"; "utf-8"; "utf-8-sig"] LookupError).
    + reflexivity.
    + constructor.
    + reflexivity.
    + discriminate.
Defined.

(** C4 as worded fails for a guessed label Python has no codec for: the
    bytes read as cp1251, the second encoding of the list, and still the
    reader raises at the first attempt, yields nothing and logs nothing. *)
Lemma unknown_label_ends_the_reader :
  let evs := iter_csv_rows Samples.decode_strict Samples.decode_replace
               Samples.csv_reader_lines Samples.csv_reader_error ";" "in.csv"
               Samples.good_csv "EUC-TW" ["user_uid"] (Some "log") None in
  Samples.decode_strict "EUC-TW" Samples.good_csv = Raise LookupError
  /\ is_ok (Samples.decode_strict "cp1251" Samples.good_csv) = true
  /\ evs = [Throw LookupError]
  /\ yields evs = [] /\ records evs = [].
Proof. vm_compute. repeat split; reflexivity. Qed.

Lemma surplus_DictReader_row fieldnames cells :
  length cells <= length fieldnames ->
  well_formed (DictReader_row fieldnames cells).
Proof.
  intros Hle. unfold well_formed, DictReader_row.
  destruct (length fieldnames <? length cells)%nat eqn:E.
  - apply Nat.ltb_lt in E. lia.
  - destruct (length cells <? length fieldnames)%nat; reflexivity.
Qed.

Lemma well_formed_DictReader fieldnames lines :
  Forall (fun cells => length cells <= length fieldnames) lines ->
  Forall well_formed (DictReader fieldnames lines).
Proof.
  intros H. unfold DictReader. apply Forall_forall. intros r Hr.
  apply list_elem_of_fmap in Hr as (cells & -> & Hin).
  apply list_elem_of_filter in Hin as [_ Hin].
  apply surplus_DictReader_row. revert cells Hin. apply Forall_forall, H.
Qed.

(** What the reader gives on a file none of whose lines has more cells than
    the header: the rows that pass validation, once each and in order, with
    line numbers counted from 2 over the non-empty lines. *)
Lemma reader_yields_valid_rows
    (decode_strict : string -> list Byte.byte -> result string)
    (decode_replace : string -> list Byte.byte -> string)
    (csv_reader_lines : string -> string -> list (list string))
    (csv_reader_error : string -> string -> option exn)
    (default_delimiter : string)
    path raw encoding required logger delimiter recs content used header lines :
  read_content decode_strict decode_replace logger raw encoding
  = (recs, Ok (content, used)) ->
  csv_reader_lines (default default_delimiter delimiter) content
  = header :: lines ->
  Forall (fun cells => length cells <= length header) lines ->
  yields (iter_csv_rows decode_strict decode_replace csv_reader_lines csv_reader_error
            default_delimiter path raw encoding required logger delimiter)
  = filter (fun item => passes required item.2 = true)
      (numbered 2
         (map row_of
            (DictReader (map (fun field => lower (strip field)) header) lines))).
Proof.
  intros Hread Hlines Hfit.
  apply (iter_csv_rows_yields _ _ _ _ _ _ _ _ _ _ _ _ _ _ _ _ Hread Hlines).
  apply well_formed_DictReader. rewrite length_map. exact Hfit.
Qed.

(** C6 (defect).  A line with more cells than the header ends the reader:
    the rows after it are not yielded although they pass validation.  Here
    line 3 has two cells under a one-column header; the row of line 4 passes
    validation and is not yielded. *)
Theorem reader_stops_at_overlong_line :
  let text := "a" +:+ Samples.nl +:+ "1" +:+ Samples.nl +:+ "2;3"
              +:+ Samples.nl +:+ "4" +:+ Samples.nl in
  let evs := iter_csv_rows Samples.decode_strict Samples.decode_replace
               Samples.csv_reader_lines Samples.csv_reader_error ";" "in.csv" (Samples.bytes_of text)
               "utf-8" ["a"] (Some "log") None in
  Samples.csv_reader_lines ";" text = [["a"]; ["1"]; ["2"; "3"]; ["4"]]
  /\ yields evs = [(2, [("a", Some "1")])]
  /\ passes ["a"] [("a", Some "4")] = true
  /\ records evs = [mkRecord "log" INFO (OpenedWith "utf-8");
                    mkRecord "log" ERROR (CsvFailed "in.csv" AttributeError)].
Proof. vm_compute. repeat split; reflexivity. Qed.

(** C10 (defect).  With no required field every row passes validation, and
    still not every parsed row is yielded: the line with a surplus cell and
    the line after it are lost. *)
Theorem no_required_field_still_loses_rows :
  let text := "a" +:+ Samples.nl +:+ "1" +:+ Samples.nl +:+ "2;3"
              +:+ Samples.nl +:+ "4" +:+ Samples.nl in
  let evs := iter_csv_rows Samples.decode_strict Samples.decode_replace
               Samples.csv_reader_lines Samples.csv_reader_error ";" "in.csv" (Samples.bytes_of text)
               "utf-8" [] (Some "log") None in
  (forall row, check_required_fields row [] = (true, NoError))
  /\ DictReader ["a"] [["1"]; ["2"; "3"]; ["4"]]
     = [mkDictRow [("a", Some "1")] None;
        mkDictRow [("a", Some "2")] (Some ["3"]);
        mkDictRow [("a", Some "4")] None]
  /\ yields evs = [(2, [("a", Some "1")])].
Proof. split; [reflexivity|]. vm_compute. split; reflexivity. Qed.

(** ** The entity graph of one row *)

Lemma clark_eqb uri a b :
  String.eqb (clark uri a) (clark uri b) = String.eqb a b.
Proof.
  unfold clark.
  change (String.eqb (String "{" (uri +:+ "}" +:+ a)) (String "{" (uri +:+ "}" +:+ b))
          = String.eqb a b).
  cbn [String.eqb]. rewrite Ascii.eqb_refl.
  induction uri as [|c uri IH].
  - change (String.eqb (String "}" a) (String "}" b) = String.eqb a b).
    cbn [String.eqb]. rewrite Ascii.eqb_refl. reflexivity.
  - change (String.eqb (String c (uri +:+ "}" +:+ a)) (String c (uri +:+ "}" +:+ b))
            = String.eqb a b).
    cbn [String.eqb]. rewrite Ascii.eqb_refl. exact IH.
Qed.

Lemma set_xf_xf w : set_xf (xf w) w = w.
Proof. destruct w; reflexivity. Qed.

Lemma set_xf_twice x y w : set_xf y (set_xf x w) = set_xf y w.
Proof. reflexivity. Qed.

Lemma accepted_app refuses pre evs1 evs2 :
  accepted refuses pre (evs1 ++ evs2)
  = accepted refuses pre evs1 && accepted refuses (pre ++ evs1) evs2.
Proof.
  revert pre. induction evs1 as [|ev evs1 IH]; intros pre.
  - cbn [app accepted andb]. rewrite app_nil_r. reflexivity.
  - cbn [app accepted].
    replace (pre ++ ev :: evs1) with ((pre ++ [ev]) ++ evs1)
      by (rewrite <- app_assoc; reflexivity).
    destruct ev; try apply IH.
    + destruct (refuses pre _); [reflexivity|apply IH].
    + destruct (refuses pre _); [reflexivity|apply IH].
Qed.

Lemma writes_ret refuses : writes refuses (ret tt) [].
Proof.
  intros w. cbn [accepted]. unfold ret. rewrite app_nil_r, set_xf_xf.
  reflexivity.
Qed.

Lemma writes_bind refuses m1 m2 evs1 evs2 :
  writes refuses m1 evs1 -> writes refuses m2 evs2 ->
  writes refuses (World.mbind m1 (fun _ => m2)) (evs1 ++ evs2).
Proof.
  intros H1 H2 w. rewrite accepted_app. specialize (H1 w).
  unfold World.mbind.
  destruct (accepted refuses (xf w) evs1); cbn [andb].
  - rewrite H1. specialize (H2 (set_xf (xf w ++ evs1) w)).
    cbn [xf set_xf] in H2.
    destruct (accepted refuses (xf w ++ evs1) evs2).
    + rewrite H2. cbn [xf set_xf]. rewrite <- app_assoc. reflexivity.
    + exact H2.
  - destruct H1 as (e & w' & ->). eauto.
Qed.

Lemma writes_write refuses text :
  writes refuses (write refuses text)
         (match text with Some s => [Characters s] | None => [] end).
Proof.
  destruct text as [s|]; [|apply writes_ret].
  intros w. cbn [accepted write]. unfold request.
  destruct (refuses (xf w) (Characters s)); [eauto|reflexivity].
Qed.

Lemma writes_element refuses tag attrib nsmap body evs :
  writes refuses body evs ->
  writes refuses (element refuses tag attrib nsmap body)
         (StartElement tag attrib nsmap :: evs ++ [EndElement tag]).
Proof.
  intros Hbody w. cbn [accepted]. unfold element, World.mbind, request.
  destruct (refuses (xf w) (StartElement tag attrib nsmap)); [eauto|].
  rewrite accepted_app. unfold emit.
  specialize (Hbody (set_xf (xf w ++ [StartElement tag attrib nsmap]) w)).
  cbn [xf set_xf] in Hbody. unfold finally.
  destruct (accepted refuses (xf w ++ [StartElement tag attrib nsmap]) evs).
  - rewrite Hbody. cbn [accepted andb xf set_xf].
    rewrite <- !app_assoc. reflexivity.
  - destruct Hbody as (e & w' & ->). cbn [andb]. eauto.
Qed.
Section GeneratorFacts.
Variable xf_refuses : list xml_event -> xml_event -> option exn.
Variable cfg_namespaces : option (list (string * string)).
Variable cfg_role_template : template.
Variable cfg_datagroup_template : template.
Variable cfg_fixed_resources : list (string * string).
Variable uuid4 : nat -> string.
Variables cim rdf : string.
Hypothesis Hcim : dict_get (namespaces cfg_namespaces) "cim" = Some cim.
Hypothesis Hrdf : dict_get (namespaces cfg_namespaces) "rdf" = Some rdf.

Lemma writes_cim_element name body evs :
  writes xf_refuses body evs ->
  writes xf_refuses (cim_element xf_refuses cfg_namespaces name body)
         (StartElement (clark cim name) [] [] :: evs
          ++ [EndElement (clark cim name)]).
Proof.
  intros H. unfold cim_element, ns. rewrite Hcim.
  exact (writes_element _ _ _ _ _ _ H).
Qed.

Lemma writes_cim_element_rdf name key value body evs :
  writes xf_refuses body evs ->
  writes xf_refuses (cim_element_rdf xf_refuses cfg_namespaces name key value body)
         (StartElement (clark cim name) [(clark rdf key, value)] [] :: evs
          ++ [EndElement (clark cim name)]).
Proof.
  intros H. unfold cim_element_rdf, ns. rewrite Hcim, Hrdf.
  exact (writes_element _ _ _ _ _ _ H).
Qed.

Lemma writes_pass : writes xf_refuses pass [].
Proof. apply writes_ret. Qed.

Local Abbreviation ref_events := (ref_events cim rdf).
Local Abbreviation text_events := (text_events cim).
Local Abbreviation entity_events := (entity_events cim rdf).

Lemma writes_ref name value :
  writes xf_refuses (cim_element_rdf xf_refuses cfg_namespaces name "resource" value pass)
          (ref_events name value).
Proof. apply (writes_cim_element_rdf _ _ _ _ []), writes_pass. Qed.

Lemma writes_text name text :
  writes xf_refuses (cim_element xf_refuses cfg_namespaces name (write xf_refuses text))
         (text_events name text).
Proof. apply writes_cim_element, writes_write. Qed.

Lemma writes_role role_uid privilege_uid folder_uid role_name :
  writes xf_refuses (role_block xf_refuses cfg_namespaces role_uid privilege_uid folder_uid role_name)
    (entity_events "Role" role_uid
       (text_events "IdentifiedObject.name" (Some role_name)
        ++ ref_events "IdentifiedObject.ParentObject" ("#_" +:+ folder_uid)
        ++ ref_events "Role.kind" "cim:RoleKind.allow"
        ++ text_events "Role.isHost" (Some "false")
        ++ text_events "Role.isUser" (Some "true")
        ++ ref_events "Role.Privileges" ("#_" +:+ privilege_uid))).
Proof.
  apply writes_cim_element_rdf.
  repeat (apply writes_bind; [first [apply writes_ref|apply writes_text]|]).
  apply writes_ref.
Qed.

Lemma writes_privilege privilege_uid role_uid datagroup_uid priv_operation :
  writes xf_refuses (privilege_block xf_refuses cfg_namespaces privilege_uid role_uid datagroup_uid
             priv_operation)
    (entity_events "Privilege" privilege_uid
       (ref_events "Privilege.Role" ("#_" +:+ role_uid)
        ++ ref_events "Privilege.DataItems" ("#_" +:+ datagroup_uid)
        ++ ref_events "Privilege.Operation" priv_operation)).
Proof.
  apply writes_cim_element_rdf.
  repeat (apply writes_bind; [first [apply writes_ref|apply writes_text]|]).
  apply writes_ref.
Qed.

Lemma writes_datagroup datagroup_uid privilege_uid objectref_uid
    datagroup_name dg_parent dg_category dg_class :
  writes xf_refuses (datagroup_block xf_refuses cfg_namespaces datagroup_uid privilege_uid
             objectref_uid datagroup_name dg_parent dg_category dg_class)
    (entity_events "DataGroup" datagroup_uid
       (text_events "IdentifiedObject.name" (Some datagroup_name)
        ++ ref_events "IdentifiedObject.ParentObject" dg_parent
        ++ text_events "DataItem.isHostRestricted" (Some "false")
        ++ text_events "DataItem.isUserRestricted" (Some "true")
        ++ ref_events "DataItem.Privileges" ("#_" +:+ privilege_uid)
        ++ ref_events "DataItem.Category" dg_category
        ++ ref_events "DataGroup.Class" dg_class
        ++ ref_events "DataGroup.Objects" ("#_" +:+ objectref_uid))).
Proof.
  apply writes_cim_element_rdf.
  repeat (apply writes_bind; [first [apply writes_ref|apply writes_text]|]).
  apply writes_ref.
Qed.

Lemma writes_objectref objectref_uid datagroup_uid object_uid :
  writes xf_refuses (objectref_block xf_refuses cfg_namespaces objectref_uid datagroup_uid object_uid)
    (entity_events "ObjectReference" objectref_uid
       (text_events "ObjectReference.objectUid" object_uid
        ++ ref_events "ObjectReference.Group" ("#_" +:+ datagroup_uid))).
Proof.
  apply writes_cim_element_rdf.
  repeat (apply writes_bind; [first [apply writes_ref|apply writes_text]|]).
  apply writes_ref.
Qed.
End GeneratorFacts.

Lemma mbind_ok {A B} (m : M A) (k : A -> M B) w a w1 :
  m w = (Ok a, w1) -> World.mbind m k w = k a w1.
Proof. intros H. unfold World.mbind. rewrite H. reflexivity. Qed.

Lemma mbind_raise {A B} (m : M A) (k : A -> M B) w e w1 :
  m w = (Raise e, w1) -> World.mbind m k w = (Raise e, w1).
Proof. intros H. unfold World.mbind. rewrite H. reflexivity. Qed.

Lemma first_uid_field_spec data f :
  first_uid_field data = Some f ->
  names__uid f = true /\ is_empty f = false
  /\ exists pre val post, data = pre ++ (f, val) :: post
       /\ Forall (fun kv => names__uid kv.1 = false) pre.
Proof.
  unfold first_uid_field, dict_keys, names__uid.
  induction data as [|[k v] data IH]; cbn [map List.find fst]; [discriminate|].
  destruct (contains "_uid" (lower k)) eqn:Hk.
  - intros [= ->]. split; [exact Hk|]. split.
    + destruct f; [discriminate Hk|reflexivity].
    + exists [], v, data. split; [reflexivity|constructor].
  - intros H. destruct (IH H) as (Hf & Hne & pre & val & post & -> & Hpre).
    split; [exact Hf|]. split; [exact Hne|].
    exists ((k, v) :: pre), val, post. split; [reflexivity|].
    constructor; [exact Hk|exact Hpre].
Qed.

Lemma first_uid_field_none data :
  first_uid_field data = None <->
  Forall (fun kv => names__uid kv.1 = false) data.
Proof.
  unfold first_uid_field, dict_keys, names__uid.
  induction data as [|[k v] data IH]; cbn [map List.find fst].
  - split; [constructor|reflexivity].
  - destruct (contains "_uid" (lower k)) eqn:Hk.
    + split; [discriminate|]. intros H. inversion H; subst. cbn [fst] in *. congruence.
    + rewrite IH. split.
      * intros H. constructor; [exact Hk|exact H].
      * intros H. inversion H; subst. assumption.
Qed.

Lemma first_uid_field_found pre f val post :
  Forall (fun kv => names__uid kv.1 = false) pre -> names__uid f = true ->
  first_uid_field (pre ++ (f, val) :: post) = Some f
  /\ dict_get (pre ++ (f, val) :: post) f = Some val.
Proof.
  unfold first_uid_field, dict_keys, names__uid. intros Hpre Hf.
  induction Hpre as [|[k v] pre Hk Hpre IH]; cbn [app map List.find fst dict_get].
  - rewrite Hf. rewrite decide_True by reflexivity. split; reflexivity.
  - cbn [fst] in Hk. rewrite Hk. rewrite decide_False by congruence. exact IH.
Qed.

Section RunFacts.
Variable xf_refuses : list xml_event -> xml_event -> option exn.
Variable cfg_namespaces : option (list (string * string)).
Variable cfg_role_template : template.
Variable cfg_datagroup_template : template.
Variable cfg_fixed_resources : list (string * string).
Variable uuid4 : nat -> string.

Local Abbreviation run :=
  (add_role_structure xf_refuses cfg_namespaces cfg_role_template
     cfg_datagroup_template cfg_fixed_resources uuid4).

Lemma run_unfold data folder_uid logger w :
  run data folder_uid logger w
  = (World.mbind (format_names cfg_role_template cfg_datagroup_template data logger)
      (fun names =>
         let '(role_name, datagroup_name) := names in
         let role_uid := uuid4 (uids w) in
         let privilege_uid := uuid4 (1 + uids w) in
         let datagroup_uid := uuid4 (2 + uids w) in
         let objectref_uid := uuid4 (3 + uids w) in
         World.mbind (say logger DEBUG
            (UidsGenerated role_uid privilege_uid datagroup_uid objectref_uid))
         (fun _ => World.mbind (say logger DEBUG (NamesGenerated role_name datagroup_name))
         (fun _ => World.mbind (role_block xf_refuses cfg_namespaces role_uid privilege_uid folder_uid role_name)
         (fun _ => World.mbind (privilege_block xf_refuses cfg_namespaces privilege_uid role_uid datagroup_uid
              (fixed_get cfg_fixed_resources "privilege_operation" "#_200006fe-0000-0000-c000-0000006d746c"))
         (fun _ => World.mbind (datagroup_block xf_refuses cfg_namespaces datagroup_uid privilege_uid objectref_uid
              datagroup_name
              (fixed_get cfg_fixed_resources "datagroup_parent_object" "#_f02c26a7-df3d-43a7-9c61-46d382e31d2c")
              (fixed_get cfg_fixed_resources "dataitem_category" "#_200006ff-0000-0000-c000-0000006d746c")
              (fixed_get cfg_fixed_resources "datagroup_class" "#_50000709-0000-0000-c000-0000006d746c"))
         (fun _ =>
            match first_uid_field data with
            | None => raise ValueError
            | Some object_uid_field =>
                if is_empty object_uid_field then raise ValueError
                else
                  World.mbind (objectref_block xf_refuses cfg_namespaces objectref_uid datagroup_uid
                                  (cell data object_uid_field))
                  (fun _ => say logger DEBUG
                      (StructureDone object_uid_field (cell data object_uid_field)))
            end)))))))
      (started data logger w).
Proof.
  unfold add_role_structure, started, start_records.
  destruct logger as [l|]; destruct w as [f u c lg x]; try reflexivity.
  cbn [World.mbind ret gen_uid uids set_uids set_log log].
  rewrite app_nil_r. reflexivity.
Qed.
End RunFacts.

Lemma get_arg_cases data name :
  (exists val, get_arg data name = Ok val /\ dict_get data name = Some val
               /\ all_chars is_digit name = false)
  \/ (get_arg data name = Raise (KeyError name) /\ dict_get data name = None
      /\ all_chars is_digit name = false)
  \/ ((get_arg data name = Raise IndexError \/ get_arg data name = Raise ValueError)
      /\ all_chars is_digit name = true).
Proof.
  unfold get_arg. destruct (all_chars is_digit name).
  - right. right. split; [|reflexivity].
    destruct (maxsize <? decimal 0 name)%Z; [right|left]; reflexivity.
  - destruct (dict_get data name) as [val|].
    + left. exists val. repeat split.
    + right. left. repeat split.
Qed.

(** A template that refers to a field the row does not have cannot be
    filled, whatever else it holds. *)
Lemma format_absent_raises t data :
  references_absent t data -> exists e, format t data = Raise e.
Proof.
  induction t as [|[text|name|name finish|] t IH]; cbn [format fields_of];
    intros (n & Hin & Hn).
  - apply elem_of_nil in Hin. contradiction.
  - destruct IH as (e & ->); [exists n; split; assumption|].
    exists e. reflexivity.
  - destruct (get_arg_cases data name)
      as [(val & -> & Hget & _)|[(-> & _)|([-> | ->] & _)]];
      try (eexists; reflexivity).
    apply elem_of_cons in Hin as [->|Hin]; [congruence|].
    destruct IH as (e & ->); [exists n; split; assumption|].
    exists e. reflexivity.
  - destruct (get_arg_cases data name)
      as [(val & -> & Hget & _)|[(-> & _)|([-> | ->] & _)]];
      try (eexists; reflexivity).
    apply elem_of_cons in Hin as [->|Hin]; [congruence|].
    cbn [bind]. destruct (finish data val) as [text|e]; [|eexists; reflexivity].
    destruct IH as (e & ->); [exists n; split; assumption|].
    exists e. reflexivity.
  - apply elem_of_nil in Hin. contradiction.
Qed.

(** For a template of text and bare names only, none of them a number, it
    is the [KeyError] of the first name the row does not have. *)
Lemma format_absent t data :
  plain t = true -> named_only t -> references_absent t data ->
  exists name, format t data = Raise (KeyError name)
    /\ name ∈ fields_of t /\ dict_get data name = None.
Proof.
  intros Hplain Hnamed.
  induction t as [|[text|name|name finish|] t IH]; cbn [format fields_of];
    try discriminate Hplain.
  - intros (n & Hin & _). apply elem_of_nil in Hin. contradiction.
  - intros Habs. destruct (IH Hplain Hnamed Habs) as (n & -> & Hin & Hn).
    exists n. repeat split; assumption.
  - intros (n & Hin & Hn). unfold get_arg.
    rewrite (Hnamed name) by apply list_elem_of_here.
    destruct (dict_get data name) as [val|] eqn:Hget.
    + apply elem_of_cons in Hin as [->|Hin]; [congruence|].
      destruct IH as (n' & -> & Hin' & Hn').
      * exact Hplain.
      * intros m Hm. apply Hnamed, list_elem_of_further, Hm.
      * exists n. split; assumption.
      * exists n'. repeat split; try assumption. apply list_elem_of_further, Hin'.
    + exists name. repeat split; [apply list_elem_of_here|exact Hget].
Qed.

(** A template of text and bare names, none of them a number, is filled,
    or fails with the [KeyError] of a name the row does not have. *)
Lemma format_plain_cases t data :
  plain t = true -> named_only t ->
  (exists r, format t data = Ok r)
  \/ (exists name, format t data = Raise (KeyError name)
        /\ name ∈ fields_of t /\ dict_get data name = None).
Proof.
  intros Hplain Hnamed.
  induction t as [|[text|name|name finish|] t IH]; cbn [format fields_of];
    try discriminate Hplain.
  - left. eexists. reflexivity.
  - destruct (IH Hplain Hnamed) as [[r ->]|(n & -> & Hin & Hn)].
    + left. eexists. reflexivity.
    + right. exists n. repeat split; assumption.
  - unfold get_arg. rewrite (Hnamed name) by apply list_elem_of_here.
    destruct (dict_get data name) as [val|] eqn:Hget.
    + destruct IH as [[r ->]|(n & -> & Hin & Hn)].
      * exact Hplain.
      * intros m Hm. apply Hnamed, list_elem_of_further, Hm.
      * left. eexists. reflexivity.
      * right. exists n. repeat split; try assumption.
        apply list_elem_of_further, Hin.
    + right. exists name. repeat split; [apply list_elem_of_here|exact Hget].
Qed.
Section NamesFacts.
Variable cfg_role_template : template.
Variable cfg_datagroup_template : template.

Local Abbreviation names := (format_names cfg_role_template cfg_datagroup_template).

Lemma format_names_ok data logger w rn dn :
  format cfg_role_template data = Ok rn ->
  format cfg_datagroup_template data = Ok dn ->
  names data logger w = (Ok (rn, dn), w).
Proof.
  intros Hr Hd. unfold format_names, try_except, World.mbind, lift, ret.
  rewrite Hr, Hd. reflexivity.
Qed.

Lemma format_names_raise data logger w e :
  format cfg_role_template data = Raise e
  \/ ((exists rn, format cfg_role_template data = Ok rn)
      /\ format cfg_datagroup_template data = Raise e) ->
  names data logger w = (Raise e, failed_names e data logger w).
Proof.
  intros [Hr|[[rn Hr] Hd]];
    unfold format_names, try_except, World.mbind, lift, ret, failed_names;
    rewrite Hr, ?Hd; destruct e; reflexivity.
Qed.
End NamesFacts.

Lemma writes_ok refuses m evs w :
  writes refuses m evs -> accepted refuses (xf w) evs = true ->
  m w = (Ok tt, set_xf (xf w ++ evs) w).
Proof. intros H Hacc. specialize (H w). rewrite Hacc in H. exact H. Qed.

Lemma writes_refused {B} refuses m evs (k : unit -> M B) w :
  writes refuses m evs -> accepted refuses (xf w) evs = false ->
  exists e w', World.mbind m k w = (Raise e, w').
Proof.
  intros H Hacc. specialize (H w). rewrite Hacc in H.
  destruct H as (e & w' & H). exists e, w'. apply mbind_raise, H.
Qed.

Section OutcomeFacts.
Variable xf_refuses : list xml_event -> xml_event -> option exn.
Variable cfg_namespaces : option (list (string * string)).
Variable cfg_role_template : template.
Variable cfg_datagroup_template : template.
Variable cfg_fixed_resources : list (string * string).
Variable uuid4 : nat -> string.

Local Abbreviation run :=
  (add_role_structure xf_refuses cfg_namespaces cfg_role_template
     cfg_datagroup_template cfg_fixed_resources uuid4).
Local Abbreviation fixed := (fixed_get cfg_fixed_resources).

(** Formatting failed: the exception leaves, nothing is written. *)
Lemma run_names_raise data folder_uid logger w e :
  format cfg_role_template data = Raise e
  \/ ((exists rn, format cfg_role_template data = Ok rn)
      /\ format cfg_datagroup_template data = Raise e) ->
  run data folder_uid logger w
  = (Raise e, failed_names e data logger (started data logger w)).
Proof.
  intros H. rewrite run_unfold.
  apply mbind_raise, format_names_raise, H.
Qed.

Lemma role_block_no_cim role_uid privilege_uid folder_uid role_name w :
  dict_get (namespaces cfg_namespaces) "cim" = None ->
  role_block xf_refuses cfg_namespaces role_uid privilege_uid folder_uid role_name w
  = (Raise (KeyError "cim"), w).
Proof.
  intros H. unfold role_block, cim_element_rdf, ns, World.mbind.
  rewrite H. reflexivity.
Qed.

Lemma role_block_no_rdf role_uid privilege_uid folder_uid role_name w cim :
  dict_get (namespaces cfg_namespaces) "cim" = Some cim ->
  dict_get (namespaces cfg_namespaces) "rdf" = None ->
  role_block xf_refuses cfg_namespaces role_uid privilege_uid folder_uid role_name w
  = (Raise (KeyError "rdf"), w).
Proof.
  intros Hc Hr. unfold role_block, cim_element_rdf, ns, World.mbind.
  rewrite Hc, Hr. reflexivity.
Qed.

Section Configured.
Variables cim rdf : string.
Hypothesis Hcim : dict_get (namespaces cfg_namespaces) "cim" = Some cim.
Hypothesis Hrdf : dict_get (namespaces cfg_namespaces) "rdf" = Some rdf.
Variable data : Row.
Variables folder_uid rn dn : string.
Variable logger : option Logger.
Variable w : world.
Hypothesis Hrn : format cfg_role_template data = Ok rn.
Hypothesis Hdn : format cfg_datagroup_template data = Ok dn.

Local Abbreviation three_events :=
  (three_events cim rdf cfg_fixed_resources uuid4 (uids w) folder_uid rn dn).

Lemma run_three :
  accepted xf_refuses (xf w) three_events = true ->
  exists w3,
    xf w3 = xf w ++ three_events /\ fs w3 = fs w
    /\ run data folder_uid logger w
       = match first_uid_field data with
         | None => (Raise ValueError, w3)
         | Some f =>
             World.mbind
               (objectref_block xf_refuses cfg_namespaces (uuid4 (3 + uids w))
                  (uuid4 (2 + uids w)) (cell data f))
               (fun _ => say logger DEBUG (StructureDone f (cell data f)))
               w3
         end.
Proof.
  intros Hacc. unfold Spec.three_events in Hacc.
  rewrite !accepted_app in Hacc.
  apply andb_true_iff in Hacc as [Hrole Hacc].
  apply andb_true_iff in Hacc as [Hpriv Hdg].
  eexists. split; [|split]; cycle 2.
  - rewrite run_unfold.
    erewrite mbind_ok by (apply format_names_ok; eassumption).
    cbv zeta. unfold say at 1 2.
    cbn [World.mbind].
    erewrite mbind_ok
      by (apply (writes_ok xf_refuses); [eapply writes_role; eassumption|exact Hrole]).
    erewrite mbind_ok
      by (apply (writes_ok xf_refuses); [eapply writes_privilege; eassumption|exact Hpriv]).
    erewrite mbind_ok
      by (apply (writes_ok xf_refuses); [eapply writes_datagroup; eassumption|exact Hdg]).
    destruct (first_uid_field data) as [f|] eqn:Hf; [|reflexivity].
    destruct (first_uid_field_spec data f Hf) as (_ & -> & _).
    reflexivity.
  - unfold Spec.three_events. cbn [xf set_xf set_log started set_uids uids].
    rewrite <- !app_assoc. reflexivity.
  - reflexivity.
Qed.

(** When the writer refuses one of the requests for the first three
    entities, the call raises. *)
Lemma run_three_refused :
  accepted xf_refuses (xf w) three_events = false ->
  exists e w', run data folder_uid logger w = (Raise e, w').
Proof.
  intros Hacc. unfold Spec.three_events in Hacc.
  rewrite !accepted_app in Hacc.
  rewrite run_unfold.
  erewrite mbind_ok by (apply format_names_ok; eassumption).
  cbv zeta. unfold say at 1 2. cbn [World.mbind].
  match type of Hacc with
  | accepted _ _ ?evs && _ = false =>
      destruct (accepted xf_refuses (xf w) evs) eqn:Hrole
  end.
  2:{ eapply writes_refused; [eapply writes_role; eassumption|exact Hrole]. }
  erewrite mbind_ok
    by (apply (writes_ok xf_refuses); [eapply writes_role; eassumption|exact Hrole]).
  cbn [andb] in Hacc.
  match type of Hacc with
  | accepted _ ?pre ?evs && _ = false =>
      destruct (accepted xf_refuses pre evs) eqn:Hpriv
  end.
  2:{ eapply writes_refused; [eapply writes_privilege; eassumption|exact Hpriv]. }
  erewrite mbind_ok
    by (apply (writes_ok xf_refuses); [eapply writes_privilege; eassumption|exact Hpriv]).
  cbn [andb] in Hacc.
  eapply writes_refused; [eapply writes_datagroup; eassumption|exact Hacc].
Qed.
End Configured.
End OutcomeFacts.

Lemma dict_get_here {V} (k : string) (v : V) d :
  dict_get ((k, v) :: d) k = Some v.
Proof. cbn [dict_get]. rewrite decide_True by reflexivity. reflexivity. Qed.

Ltac eval_closed_eqb :=
  repeat match goal with
         | |- context [String.eqb ?a ?b] =>
             let r := eval vm_compute in (String.eqb a b) in
             change (String.eqb a b) with r
         end.

Ltac read_graph :=
  unfold about, reference, child_of;
  cbn [content_of tag_of List.find has_tag option_map rev app];
  rewrite ?clark_eqb; eval_closed_eqb; cbv iota;
  cbn [attr_of content_of option_map]; rewrite ?dict_get_here.

(** The four trees the events of one row read back as, and what they hold. *)
Lemma graph_of_row cim rdf fixed uuid4 n folder_uid rn dn object_uid :
  exists role priv dg obj,
    written_of (three_events cim rdf fixed uuid4 n folder_uid rn dn
                ++ fourth_events cim rdf uuid4 n object_uid)
    = Some [role; priv; dg; obj]
    /\ (tag_of role = Some (clark cim "Role")
        /\ tag_of priv = Some (clark cim "Privilege")
        /\ tag_of dg = Some (clark cim "DataGroup")
        /\ tag_of obj = Some (clark cim "ObjectReference"))
    /\ (about rdf role = Some ("#_" +:+ uuid4 n)
        /\ about rdf priv = Some ("#_" +:+ uuid4 (1 + n))
        /\ about rdf dg = Some ("#_" +:+ uuid4 (2 + n))
        /\ about rdf obj = Some ("#_" +:+ uuid4 (3 + n)))
    /\ (reference cim rdf "Role.Privileges" role = about rdf priv
        /\ reference cim rdf "Privilege.DataItems" priv = about rdf dg
        /\ reference cim rdf "DataGroup.Objects" dg = about rdf obj)
    /\ (reference cim rdf "Privilege.Role" priv = about rdf role
        /\ reference cim rdf "DataItem.Privileges" dg = about rdf priv
        /\ reference cim rdf "ObjectReference.Group" obj = about rdf dg)
    /\ option_map content_of (child_of (clark cim "ObjectReference.objectUid") obj)
       = Some (text_nodes object_uid).
Proof.
  destruct object_uid as [s|]; do 4 eexists; (split; [reflexivity|]);
    repeat split; read_graph; reflexivity.
Qed.

Lemma graph_of_three cim rdf fixed uuid4 n folder_uid rn dn :
  exists role priv dg,
    written_of (three_events cim rdf fixed uuid4 n folder_uid rn dn)
    = Some [role; priv; dg]
    /\ (tag_of role = Some (clark cim "Role")
        /\ tag_of priv = Some (clark cim "Privilege")
        /\ tag_of dg = Some (clark cim "DataGroup"))
    /\ Forall (fun e => has_tag (clark cim "ObjectReference") e = false)
              [role; priv; dg].
Proof.
  do 3 eexists. split; [reflexivity|]. split; [repeat split|].
  repeat constructor; cbn [has_tag]; rewrite clark_eqb; reflexivity.
Qed.

Section Outcomes.
Variable xf_refuses : list xml_event -> xml_event -> option exn.
Variable cfg_namespaces : option (list (string * string)).
Variable cfg_role_template : template.
Variable cfg_datagroup_template : template.
Variable cfg_fixed_resources : list (string * string).
Variable uuid4 : nat -> string.

Local Abbreviation run :=
  (add_role_structure xf_refuses cfg_namespaces cfg_role_template
     cfg_datagroup_template cfg_fixed_resources uuid4).

Lemma run_no_namespace data folder_uid logger w rn dn :
  format cfg_role_template data = Ok rn ->
  format cfg_datagroup_template data = Ok dn ->
  dict_get (namespaces cfg_namespaces) "cim" = None
  \/ dict_get (namespaces cfg_namespaces) "rdf" = None ->
  exists key w', run data folder_uid logger w = (Raise (KeyError key), w')
                 /\ xf w' = xf w.
Proof.
  intros Hrn Hdn Hns. rewrite run_unfold.
  erewrite mbind_ok by (apply format_names_ok; eassumption).
  cbv zeta. unfold say at 1 2. cbn [World.mbind].
  destruct (dict_get (namespaces cfg_namespaces) "cim") as [cim|] eqn:Hcim.
  - destruct Hns as [Hns|Hns]; [discriminate|].
    erewrite mbind_raise by (eapply role_block_no_rdf; eassumption).
    do 2 eexists. split; reflexivity.
  - erewrite mbind_raise by (apply role_block_no_cim; assumption).
    do 2 eexists. split; reflexivity.
Qed.

Lemma run_ok data folder_uid logger w cim rdf rn dn f :
  dict_get (namespaces cfg_namespaces) "cim" = Some cim ->
  dict_get (namespaces cfg_namespaces) "rdf" = Some rdf ->
  format cfg_role_template data = Ok rn ->
  format cfg_datagroup_template data = Ok dn ->
  first_uid_field data = Some f ->
  accepted xf_refuses (xf w)
    (three_events cim rdf cfg_fixed_resources uuid4 (uids w) folder_uid rn dn
     ++ fourth_events cim rdf uuid4 (uids w) (cell data f)) = true ->
  exists w', run data folder_uid logger w = (Ok tt, w')
    /\ xf w' = xf w
               ++ three_events cim rdf cfg_fixed_resources uuid4 (uids w)
                               folder_uid rn dn
               ++ fourth_events cim rdf uuid4 (uids w) (cell data f)
    /\ fs w' = fs w.
Proof.
  intros Hcim Hrdf Hrn Hdn Hf Hacc.
  rewrite accepted_app in Hacc. apply andb_true_iff in Hacc as [Hacc3 Hacc4].
  destruct (run_three xf_refuses cfg_namespaces cfg_role_template
              cfg_datagroup_template
              cfg_fixed_resources uuid4 cim rdf Hcim Hrdf data folder_uid
              rn dn logger w Hrn Hdn Hacc3) as (w3 & Hx & Hfs & Hrun).
  rewrite Hf in Hrun. rewrite Hrun. rewrite <- Hx in Hacc4.
  erewrite mbind_ok
    by (apply (writes_ok xf_refuses); [eapply writes_objectref; eassumption|exact Hacc4]).
  eexists. split; [reflexivity|].
  cbn [say xf fs set_log set_xf]. rewrite Hx, Hfs, <- app_assoc.
  split; reflexivity.
Qed.

(** With a field for the object, the call raises when the writer refuses
    one of its requests. *)
Lemma run_refused data folder_uid logger w cim rdf rn dn f :
  dict_get (namespaces cfg_namespaces) "cim" = Some cim ->
  dict_get (namespaces cfg_namespaces) "rdf" = Some rdf ->
  format cfg_role_template data = Ok rn ->
  format cfg_datagroup_template data = Ok dn ->
  first_uid_field data = Some f ->
  accepted xf_refuses (xf w)
    (three_events cim rdf cfg_fixed_resources uuid4 (uids w) folder_uid rn dn
     ++ fourth_events cim rdf uuid4 (uids w) (cell data f)) = false ->
  exists e w', run data folder_uid logger w = (Raise e, w').
Proof.
  intros Hcim Hrdf Hrn Hdn Hf Hacc.
  rewrite accepted_app in Hacc.
  destruct (accepted xf_refuses (xf w)
              (three_events cim rdf cfg_fixed_resources uuid4 (uids w)
                 folder_uid rn dn)) eqn:Hacc3.
  - cbn [andb] in Hacc.
    destruct (run_three xf_refuses cfg_namespaces cfg_role_template
                cfg_datagroup_template
                cfg_fixed_resources uuid4 cim rdf Hcim Hrdf data folder_uid
                rn dn logger w Hrn Hdn Hacc3) as (w3 & Hx & Hfs & Hrun).
    rewrite Hf in Hrun. rewrite Hrun. rewrite <- Hx in Hacc.
    eapply writes_refused; [eapply writes_objectref; eassumption|exact Hacc].
  - exact (run_three_refused xf_refuses cfg_namespaces cfg_role_template
             cfg_datagroup_template cfg_fixed_resources uuid4 cim rdf Hcim Hrdf
             data folder_uid rn dn logger w Hrn Hdn Hacc3).
Qed.

Lemma run_no_uid data folder_uid logger w cim rdf rn dn :
  dict_get (namespaces cfg_namespaces) "cim" = Some cim ->
  dict_get (namespaces cfg_namespaces) "rdf" = Some rdf ->
  format cfg_role_template data = Ok rn ->
  format cfg_datagroup_template data = Ok dn ->
  first_uid_field data = None ->
  accepted xf_refuses (xf w)
    (three_events cim rdf cfg_fixed_resources uuid4 (uids w) folder_uid rn dn)
  = true ->
  exists w', run data folder_uid logger w = (Raise ValueError, w')
    /\ xf w' = xf w
               ++ three_events cim rdf cfg_fixed_resources uuid4 (uids w)
                               folder_uid rn dn.
Proof.
  intros Hcim Hrdf Hrn Hdn Hf Hacc.
  destruct (run_three xf_refuses cfg_namespaces cfg_role_template
              cfg_datagroup_template
              cfg_fixed_resources uuid4 cim rdf Hcim Hrdf data folder_uid
              rn dn logger w Hrn Hdn Hacc) as (w3 & Hx & Hfs & Hrun).
  rewrite Hf in Hrun. exists w3. split; assumption.
Qed.

(** A row without a field for the object makes the call raise, whatever
    the writer does. *)
Lemma run_no_uid_raises data folder_uid logger w cim rdf rn dn :
  dict_get (namespaces cfg_namespaces) "cim" = Some cim ->
  dict_get (namespaces cfg_namespaces) "rdf" = Some rdf ->
  format cfg_role_template data = Ok rn ->
  format cfg_datagroup_template data = Ok dn ->
  first_uid_field data = None ->
  exists e w', run data folder_uid logger w = (Raise e, w').
Proof.
  intros Hcim Hrdf Hrn Hdn Hf.
  destruct (accepted xf_refuses (xf w)
              (three_events cim rdf cfg_fixed_resources uuid4 (uids w)
                 folder_uid rn dn)) eqn:Hacc.
  - destruct (run_no_uid data folder_uid logger w cim rdf rn dn
                Hcim Hrdf Hrn Hdn Hf Hacc) as (w1 & Hr & _).
    exists ValueError, w1. exact Hr.
  - exact (run_three_refused xf_refuses cfg_namespaces cfg_role_template
             cfg_datagroup_template cfg_fixed_resources uuid4 cim rdf Hcim Hrdf
             data folder_uid rn dn logger w Hrn Hdn Hacc).
Qed.

(** A call that returns has found the two namespaces, both names and a
    field for the object, and the writer has taken all it was asked for. *)
Lemma run_ok_inv data folder_uid logger w w' :
  run data folder_uid logger w = (Ok tt, w') ->
  exists cim rdf rn dn f,
    dict_get (namespaces cfg_namespaces) "cim" = Some cim
    /\ dict_get (namespaces cfg_namespaces) "rdf" = Some rdf
    /\ format cfg_role_template data = Ok rn
    /\ format cfg_datagroup_template data = Ok dn
    /\ first_uid_field data = Some f
    /\ accepted xf_refuses (xf w)
         (three_events cim rdf cfg_fixed_resources uuid4 (uids w) folder_uid
            rn dn
          ++ fourth_events cim rdf uuid4 (uids w) (cell data f)) = true.
Proof.
  intros Hrun.
  destruct (format cfg_role_template data) as [rn|e] eqn:Hrn.
  2:{ rewrite (run_names_raise _ _ _ _ _ _ data folder_uid logger w e) in Hrun
        by (left; exact Hrn). discriminate Hrun. }
  destruct (format cfg_datagroup_template data) as [dn|e] eqn:Hdn.
  2:{ rewrite (run_names_raise _ _ _ _ _ _ data folder_uid logger w e) in Hrun
        by (right; split; [eexists; exact Hrn|exact Hdn]). discriminate Hrun. }
  destruct (dict_get (namespaces cfg_namespaces) "cim") as [cim|] eqn:Hcim.
  2:{ destruct (run_no_namespace data folder_uid logger w rn dn Hrn Hdn
                  (or_introl Hcim)) as (key & w1 & Hr & _). congruence. }
  destruct (dict_get (namespaces cfg_namespaces) "rdf") as [rdf|] eqn:Hrdf.
  2:{ destruct (run_no_namespace data folder_uid logger w rn dn Hrn Hdn
                  (or_intror Hrdf)) as (key & w1 & Hr & _). congruence. }
  destruct (first_uid_field data) as [f|] eqn:Hf.
  2:{ destruct (run_no_uid_raises data folder_uid logger w cim rdf rn dn
                  Hcim Hrdf Hrn Hdn Hf) as (e & w1 & Hr). congruence. }
  exists cim, rdf, rn, dn, f. repeat split; try reflexivity.
  destruct (accepted xf_refuses (xf w)
              (three_events cim rdf cfg_fixed_resources uuid4 (uids w)
                 folder_uid rn dn
               ++ fourth_events cim rdf uuid4 (uids w) (cell data f)))
    eqn:Hacc; [reflexivity|].
  destruct (run_refused data folder_uid logger w cim rdf rn dn f
              Hcim Hrdf Hrn Hdn Hf Hacc) as (e & w1 & Hr). congruence.
Qed.
End Outcomes.

(** C7, as amended.  When a name template refers to a field the row does
    not have, the call ends in an exception, which its caller receives, and
    nothing has been written for the row, so no Role element.  The error is
    logged, when a logger was given, only if the exception is a [KeyError];
    it is the [KeyError] of a field the row does not have when the
    templates are made of text and bare field names, none of them a
    number. *)
Theorem missing_template_field_raises
    (xf_refuses : list xml_event -> xml_event -> option exn)
    (cfg_namespaces : option (list (string * string)))
    (cfg_role_template cfg_datagroup_template : template)
    (cfg_fixed_resources : list (string * string)) (uuid4 : nat -> string)
    (data : Row) (folder_uid : string) (logger : option Logger) (w : world) :
  references_absent cfg_role_template data
  \/ references_absent cfg_datagroup_template data ->
  exists e w',
    add_role_structure xf_refuses cfg_namespaces cfg_role_template
                       cfg_datagroup_template cfg_fixed_resources uuid4
                       data folder_uid logger w
    = (Raise e, w')
    /\ xf w' = xf w /\ fs w' = fs w
    /\ log w' = log w ++ start_records data logger
                ++ match e with
                   | KeyError _ => tell logger ERROR (TemplateFieldMissing e data)
                   | _ => []
                   end
    /\ (plain cfg_role_template = true -> plain cfg_datagroup_template = true ->
        named_only cfg_role_template -> named_only cfg_datagroup_template ->
        exists name,
          e = KeyError name
          /\ name ∈ fields_of cfg_role_template ++ fields_of cfg_datagroup_template
          /\ dict_get data name = None).
Proof.
  intros Habs.
  assert (Hcase : exists e,
            format cfg_role_template data = Raise e
            \/ ((exists rn, format cfg_role_template data = Ok rn)
                /\ format cfg_datagroup_template data = Raise e)).
  { destruct (format cfg_role_template data) as [rn|e] eqn:Hrn.
    - destruct Habs as [Habs|Habs].
      + destruct (format_absent_raises _ _ Habs) as (e & He). congruence.
      + destruct (format_absent_raises _ _ Habs) as (e & He).
        exists e. right. split; [eexists; reflexivity|exact He].
    - exists e. left. reflexivity. }
  destruct Hcase as (e & Hfmt).
  exists e. eexists. split; [apply run_names_raise, Hfmt|].
  split; [destruct e; reflexivity|]. split; [destruct e; reflexivity|].
  split.
  { destruct e; cbn [failed_names started xf fs log set_log set_uids];
      rewrite <- ?app_assoc, ?app_nil_r; reflexivity. }
  intros Hpr Hpd Hnr Hnd.
  destruct (format_plain_cases cfg_role_template data Hpr Hnr)
    as [[rn Hrn]|(n & Hn & Hin & Hget)].
  - destruct Hfmt as [Hfmt|[_ Hfmt]]; [congruence|].
    destruct Habs as [Habs|Habs].
    + destruct (format_absent _ _ Hpr Hnr Habs) as (n & Hn & _). congruence.
    + destruct (format_absent _ _ Hpd Hnd Habs) as (n & Hn & Hin & Hget).
      exists n. split; [congruence|].
      split; [apply elem_of_app; right; exact Hin|exact Hget].
  - destruct Hfmt as [Hfmt|[[rn Hrn] _]]; [|congruence].
    exists n. split; [congruence|].
    split; [apply elem_of_app; left; exact Hin|exact Hget].
Qed.

Lemma missing_template_field_raises_witness :
  exists w',
    add_role_structure Samples.xf_refuses Samples.namespaces Samples.role_template
      Samples.datagroup_template [] Samples.uuid4
      [("user_uid", Some "3fa85f64-5717-4562-b3fc-2c963f66afa6")]
      "folder" (Some "log") Samples.w0
    = (Raise (KeyError "org_name"), w')
    /\ xf w' = [].
Proof.
  destruct (missing_template_field_raises Samples.xf_refuses Samples.namespaces
              Samples.role_template Samples.datagroup_template []
              Samples.uuid4
              [("user_uid", Some "3fa85f64-5717-4562-b3fc-2c963f66afa6")]
              "folder" (Some "log") Samples.w0)
    as (e & w' & Hrun & Hxf & _ & _ & Hname).
  - left. exists "org_name". split; [apply list_elem_of_here|reflexivity].
  - destruct Hname as (name & -> & Hin & _).
    + reflexivity.
    + reflexivity.
    + intros name Hin. apply list_elem_of_In in Hin.
      destruct Hin as [<-|[]]. reflexivity.
    + intros name Hin. apply list_elem_of_In in Hin.
      destruct Hin as [<-|[]]. reflexivity.
    + exists w'. split; [|exact Hxf].
      apply list_elem_of_In in Hin. destruct Hin as [<-|[<-|[]]]; exact Hrun.
Defined.

(** C7 as worded fails: the role template [{0} {org_name}] refers to
    [org_name], which the row does not have, and the call ends in the
    [IndexError] of the numbered field, which is not logged; the log holds
    the record of the start only. *)
Lemma numbered_field_fails_unlogged :
  let data := [("user_uid", Some "3fa85f64-5717-4562-b3fc-2c963f66afa6")] in
  let role_template := [Field "0"; Literal " "; Field "org_name"] in
  let out := add_role_structure Samples.xf_refuses Samples.namespaces
               role_template Samples.datagroup_template [] Samples.uuid4
               data "folder" (Some "log") Samples.w0 in
  references_absent role_template data
  /\ out.1 = Raise IndexError
  /\ log out.2
     = [mkRecord "log" DEBUG
          (StructureStart "user_uid" "3fa85f64-5717-4562-b3fc-2c963f66afa6")]
  /\ xf out.2 = [].
Proof.
  cbv zeta. split.
  - exists "org_name". split; [|reflexivity].
    apply list_elem_of_further, list_elem_of_here.
  - vm_compute. repeat split; reflexivity.
Qed.

(** C3.  When the call returns, what it wrote reads back as four elements,
    Role, Privilege, DataGroup and ObjectReference, each with its identity,
    and the references close the cycle in both directions: the Role's
    Role.Privileges is the Privilege's identity, the Privilege's
    Privilege.DataItems the DataGroup's, the DataGroup's DataGroup.Objects
    the ObjectReference's; back, Privilege.Role is the Role's identity,
    DataItem.Privileges the Privilege's, ObjectReference.Group the
    DataGroup's. *)
Theorem references_form_linked_cycle
    (xf_refuses : list xml_event -> xml_event -> option exn)
    (cfg_namespaces : option (list (string * string)))
    (cfg_role_template cfg_datagroup_template : template)
    (cfg_fixed_resources : list (string * string)) (uuid4 : nat -> string)
    (data : Row) (folder_uid : string) (logger : option Logger)
    (w w' : world) :
  add_role_structure xf_refuses cfg_namespaces cfg_role_template cfg_datagroup_template
                     cfg_fixed_resources uuid4 data folder_uid logger w
  = (Ok tt, w') ->
  exists cim rdf evs role priv dg obj,
    dict_get (namespaces cfg_namespaces) "cim" = Some cim
    /\ dict_get (namespaces cfg_namespaces) "rdf" = Some rdf
    /\ xf w' = xf w ++ evs
    /\ written_of evs = Some [role; priv; dg; obj]
    /\ (tag_of role = Some (clark cim "Role")
        /\ tag_of priv = Some (clark cim "Privilege")
        /\ tag_of dg = Some (clark cim "DataGroup")
        /\ tag_of obj = Some (clark cim "ObjectReference"))
    /\ (about rdf role = Some ("#_" +:+ uuid4 (uids w))
        /\ about rdf priv = Some ("#_" +:+ uuid4 (1 + uids w))
        /\ about rdf dg = Some ("#_" +:+ uuid4 (2 + uids w))
        /\ about rdf obj = Some ("#_" +:+ uuid4 (3 + uids w)))
    /\ (reference cim rdf "Role.Privileges" role = about rdf priv
        /\ reference cim rdf "Privilege.DataItems" priv = about rdf dg
        /\ reference cim rdf "DataGroup.Objects" dg = about rdf obj)
    /\ (reference cim rdf "Privilege.Role" priv = about rdf role
        /\ reference cim rdf "DataItem.Privileges" dg = about rdf priv
        /\ reference cim rdf "ObjectReference.Group" obj = about rdf dg).
Proof.
  intros Hrun.
  destruct (run_ok_inv _ _ _ _ _ _ _ _ _ _ _ Hrun)
    as (cim & rdf & rn & dn & f & Hcim & Hrdf & Hrn & Hdn & Hf & Hacc).
  destruct (run_ok xf_refuses cfg_namespaces cfg_role_template
              cfg_datagroup_template
              cfg_fixed_resources uuid4 data folder_uid logger w cim rdf rn dn f
              Hcim Hrdf Hrn Hdn Hf Hacc) as (w1 & Hrun1 & Hxf & _).
  rewrite Hrun in Hrun1. injection Hrun1 as <-.
  destruct (graph_of_row cim rdf cfg_fixed_resources uuid4 (uids w) folder_uid
              rn dn (cell data f))
    as (role & priv & dg & obj & Hw & Htags & Hab & Hfw & Hbw & _).
  exists cim, rdf. eexists. exists role, priv, dg, obj.
  split; [exact Hcim|]. split; [exact Hrdf|]. split; [exact Hxf|].
  split; [exact Hw|]. split; [exact Htags|]. split; [exact Hab|].
  split; [exact Hfw|exact Hbw].
Qed.

Lemma references_form_linked_cycle_witness :
  let run := add_role_structure Samples.xf_refuses Samples.namespaces
               Samples.role_template
               Samples.datagroup_template [] Samples.uuid4
               [("org_name", Some "Finance");
                ("user_uid", Some "3fa85f64-5717-4562-b3fc-2c963f66afa6")]
               "folder" None (Samples.in_rdf Samples.w0) in
  run = (Ok tt, run.2)
  /\ exists cim rdf evs role priv dg obj,
       xf run.2 = xf (Samples.in_rdf Samples.w0) ++ evs
       /\ written_of evs = Some [role; priv; dg; obj]
       /\ reference cim rdf "Role.Privileges" role = about rdf priv
       /\ about rdf priv = Some ("#_" +:+ Samples.uuid4 1).
Proof.
  cbv zeta.
  match goal with
  | |- ?m ?w = _ /\ _ =>
      assert (Hrun : m w = (Ok tt, (m w).2)) by (vm_compute; reflexivity)
  end.
  split; [exact Hrun|].
  destruct (references_form_linked_cycle Samples.xf_refuses
              Samples.namespaces Samples.role_template
              Samples.datagroup_template [] Samples.uuid4
              [("org_name", Some "Finance");
               ("user_uid", Some "3fa85f64-5717-4562-b3fc-2c963f66afa6")]
              "folder" None (Samples.in_rdf Samples.w0) _ Hrun)
    as (cim & rdf & evs & role & priv & dg & obj & _ & _ & Hxf & Hw & _
        & (_ & Hp & _) & (Hrp & _) & _).
  exists cim, rdf, evs, role, priv, dg, obj.
  split; [exact Hxf|]. split; [exact Hw|]. split; [exact Hrp|exact Hp].
Defined.

(** C2, as amended.  With the two namespaces configured and both names
    formatted, the object is taken from the first field, in the row's
    order, whose lower-cased name contains [_uid]: when the writer takes
    what the call asks for, the call returns and has written the four
    entities, and the ObjectReference holds that field's value as its
    objectUid; when the writer refuses a request, the call raises.  A row
    with no such field makes the call raise: when the writer takes the
    first three entities, Role, Privilege and DataGroup are written and
    the call ends in [ValueError] without an ObjectReference. *)
Theorem object_uid_from_first__uid_field
    (xf_refuses : list xml_event -> xml_event -> option exn)
    (cfg_namespaces : option (list (string * string)))
    (cfg_role_template cfg_datagroup_template : template)
    (cfg_fixed_resources : list (string * string)) (uuid4 : nat -> string)
    (data : Row) (folder_uid : string) (logger : option Logger) (w : world)
    (cim rdf rn dn : string) :
  dict_get (namespaces cfg_namespaces) "cim" = Some cim ->
  dict_get (namespaces cfg_namespaces) "rdf" = Some rdf ->
  format cfg_role_template data = Ok rn ->
  format cfg_datagroup_template data = Ok dn ->
  let run := add_role_structure xf_refuses cfg_namespaces cfg_role_template
               cfg_datagroup_template cfg_fixed_resources uuid4
               data folder_uid logger w in
  let three := three_events cim rdf cfg_fixed_resources uuid4 (uids w)
                            folder_uid rn dn in
  (forall pre f val post,
     data = pre ++ (f, val) :: post ->
     Forall (fun kv => names__uid kv.1 = false) pre ->
     names__uid f = true ->
     let fourth := fourth_events cim rdf uuid4 (uids w) val in
     (accepted xf_refuses (xf w) (three ++ fourth) = true ->
      exists w' role priv dg obj,
        run = (Ok tt, w')
        /\ xf w' = xf w ++ three ++ fourth
        /\ written_of (three ++ fourth) = Some [role; priv; dg; obj]
        /\ tag_of obj = Some (clark cim "ObjectReference")
        /\ option_map content_of
             (child_of (clark cim "ObjectReference.objectUid") obj)
           = Some (text_nodes val))
     /\ (accepted xf_refuses (xf w) (three ++ fourth) = false ->
         exists e w', run = (Raise e, w')))
  /\ (Forall (fun kv => names__uid kv.1 = false) data ->
      (exists e w', run = (Raise e, w'))
      /\ (accepted xf_refuses (xf w) three = true ->
          exists w' role priv dg,
            run = (Raise ValueError, w')
            /\ xf w' = xf w ++ three
            /\ written_of three = Some [role; priv; dg]
            /\ tag_of role = Some (clark cim "Role")
            /\ tag_of priv = Some (clark cim "Privilege")
            /\ tag_of dg = Some (clark cim "DataGroup")
            /\ Forall (fun e => has_tag (clark cim "ObjectReference") e = false)
                      [role; priv; dg])).
Proof.
  intros Hcim Hrdf Hrn Hdn run three. subst run three. split.
  - intros pre f val post -> Hpre Hf fourth. subst fourth.
    destruct (first_uid_field_found pre f val post Hpre Hf) as [Hfirst Hget].
    assert (Hcell : cell (pre ++ (f, val) :: post) f = val).
    { unfold cell. rewrite Hget. reflexivity. }
    split; intros Hacc; rewrite <- Hcell in Hacc.
    + destruct (run_ok xf_refuses cfg_namespaces cfg_role_template
                  cfg_datagroup_template
                  cfg_fixed_resources uuid4 _ folder_uid logger w cim rdf rn dn f
                  Hcim Hrdf Hrn Hdn Hfirst Hacc) as (w1 & Hrun & Hxf & _).
      destruct (graph_of_row cim rdf cfg_fixed_resources uuid4 (uids w) folder_uid
                  rn dn val)
        as (role & priv & dg & obj & Hw & (_ & _ & _ & Htag) & _ & _ & _ & Hobj).
      rewrite Hcell in Hxf.
      exists w1, role, priv, dg, obj.
      split; [exact Hrun|]. split; [exact Hxf|]. split; [exact Hw|].
      split; [exact Htag|exact Hobj].
    + exact (run_refused xf_refuses cfg_namespaces cfg_role_template
               cfg_datagroup_template cfg_fixed_resources uuid4 _ folder_uid
               logger w cim rdf rn dn f Hcim Hrdf Hrn Hdn Hfirst Hacc).
  - intros Hnone. apply first_uid_field_none in Hnone. split.
    + exact (run_no_uid_raises xf_refuses cfg_namespaces cfg_role_template
               cfg_datagroup_template cfg_fixed_resources uuid4 data folder_uid
               logger w cim rdf rn dn Hcim Hrdf Hrn Hdn Hnone).
    + intros Hacc.
      destruct (run_no_uid xf_refuses cfg_namespaces cfg_role_template
                  cfg_datagroup_template
                  cfg_fixed_resources uuid4 data folder_uid logger w cim rdf rn dn
                  Hcim Hrdf Hrn Hdn Hnone Hacc) as (w1 & Hrun & Hxf).
      destruct (graph_of_three cim rdf cfg_fixed_resources uuid4 (uids w)
                  folder_uid rn dn)
        as (role & priv & dg & Hw & (Ht1 & Ht2 & Ht3) & Hno).
      exists w1, role, priv, dg.
      split; [exact Hrun|]. split; [exact Hxf|]. split; [exact Hw|].
      split; [exact Ht1|]. split; [exact Ht2|]. split; [exact Ht3|exact Hno].
Qed.

Lemma object_uid_from_first__uid_field_witness :
  let first := "3fa85f64-5717-4562-b3fc-2c963f66afa6" in
  let data := [("org_name", Some "Finance"); ("user_uid", Some first);
               ("other_uid", Some "11111111-2222-3333-4444-555555555555")] in
  exists w' evs role priv dg obj,
    add_role_structure Samples.xf_refuses Samples.namespaces Samples.role_template
      Samples.datagroup_template [] Samples.uuid4 data "folder" None
      (Samples.in_rdf Samples.w0)
    = (Ok tt, w')
    /\ xf w' = xf (Samples.in_rdf Samples.w0) ++ evs
    /\ written_of evs = Some [role; priv; dg; obj]
    /\ option_map content_of
         (child_of (clark "http://iec.ch/TC57/2014/CIM-schema-cim16#"
                          "ObjectReference.objectUid") obj)
       = Some [WText first].
Proof.
  cbv zeta.
  destruct (proj1 (proj1 (object_uid_from_first__uid_field Samples.xf_refuses
              Samples.namespaces
              Samples.role_template Samples.datagroup_template [] Samples.uuid4
              [("org_name", Some "Finance");
               ("user_uid", Some "3fa85f64-5717-4562-b3fc-2c963f66afa6");
               ("other_uid", Some "11111111-2222-3333-4444-555555555555")]
              "folder" None (Samples.in_rdf Samples.w0)
              "http://iec.ch/TC57/2014/CIM-schema-cim16#"
              "http://www.w3.org/1999/02/22-rdf-syntax-ns#"
              "Role Finance" "Group Finance"
              eq_refl eq_refl eq_refl eq_refl)
            [("org_name", Some "Finance")] "user_uid"
            (Some "3fa85f64-5717-4562-b3fc-2c963f66afa6")
            [("other_uid", Some "11111111-2222-3333-4444-555555555555")]
            eq_refl ltac:(repeat constructor) eq_refl))
    as (w' & role & priv & dg & obj & Hrun & Hxf & Hw & _ & Hobj).
  - vm_compute. reflexivity.
  - exists w'. eexists. exists role, priv, dg, obj.
    split; [exact Hrun|]. split; [exact Hxf|]. split; [exact Hw|exact Hobj].
Defined.

(** C2 as worded fails: a row whose only field with [uid] in its name is
    [uid] itself has such a field, and the call, made inside the open
    document with values the writer takes, ends in [ValueError] after the
    first three entities, without an ObjectReference. *)
Lemma plain_uid_field_is_not_the_object :
  let data := [("org_name", Some "Finance");
               ("uid", Some "3fa85f64-5717-4562-b3fc-2c963f66afa6")] in
  let out := add_role_structure Samples.xf_refuses Samples.namespaces
               Samples.role_template Samples.datagroup_template []
               Samples.uuid4 data "folder" None
               (Samples.in_rdf Samples.w0) in
  (exists f, f ∈ dict_keys data /\ names_uid f = true)
  /\ out.1 = Raise ValueError
  /\ exists evs forest,
       xf out.2 = xf (Samples.in_rdf Samples.w0) ++ evs
       /\ written_of evs = Some forest
       /\ map tag_of forest
          = [Some "{http://iec.ch/TC57/2014/CIM-schema-cim16#}Role";
             Some "{http://iec.ch/TC57/2014/CIM-schema-cim16#}Privilege";
             Some "{http://iec.ch/TC57/2014/CIM-schema-cim16#}DataGroup"].
Proof.
  cbv zeta. split; [|split].
  - exists "uid". split; [|reflexivity].
    apply list_elem_of_further, list_elem_of_here.
  - vm_compute. reflexivity.
  - eexists. eexists. split; [vm_compute; reflexivity|].
    split; vm_compute; reflexivity.
Qed.

(** ** Pretty-printing *)

Lemma node_ind_nested (P : node -> Prop) :
  (forall tag attrib text children tail,
      Forall P children -> P (Element tag attrib text children tail)) ->
  (forall content tail, P (Misc content tail)) ->
  forall n, P n.
Proof.
  intros HE HM. fix IH 1. intros [tag attrib text children tail|content tail].
  - apply HE. induction children as [|c cs IHcs]; constructor.
    + apply IH.
    + exact IHcs.
  - apply HM.
Qed.

Lemma all_chars_repeat p s n :
  all_chars p s = true -> all_chars p (repeat_str s n) = true.
Proof.
  intros Hs. induction n as [|n IH]; [reflexivity|].
  cbn [repeat_str]. rewrite all_chars_app, Hs, IH. reflexivity.
Qed.

Lemma indentation_blank space level :
  all_chars isspace space = true ->
  has_non_whitespace (Some (indentation space level)) = false.
Proof.
  intros Hs. unfold has_non_whitespace, indentation.
  cbn [is_empty all_chars negb andb].
  change (isspace "010") with true. cbn [andb].
  rewrite (all_chars_repeat _ _ _ Hs). reflexivity.
Qed.

Lemma tail_of_set_tail n t : tail_of (set_tail n t) = t.
Proof. destruct n; reflexivity. Qed.

Lemma set_tail_twice n t u : set_tail (set_tail n t) u = set_tail n u.
Proof. destruct n; reflexivity. Qed.

Lemma has_child_set_tail n t : has_child (set_tail n t) = has_child n.
Proof. destruct n; reflexivity. Qed.

Lemma is_last_indent_tails child here after cs :
  is_last (indent_tails child here after cs) = is_last cs.
Proof. destruct cs; reflexivity. Qed.

Lemma has_child_indent_children space level n :
  has_child (indent_children space level n) = has_child n.
Proof.
  destruct n as [tag attrib text [|c cs] tail|content tail]; reflexivity.
Qed.

Lemma tail_of_indent_children space level n :
  tail_of (indent_children space level n) = tail_of n.
Proof. destruct n; reflexivity. Qed.

Lemma indent_children_set_tail space level n t :
  indent_children space level (set_tail n t)
  = set_tail (indent_children space level n) t.
Proof. destruct n; reflexivity. Qed.

(** The loop over the children changes nothing the second time, when the
    indentations are blank and [child] behaves so on each of them. *)
Lemma indent_tails_twice (child : node -> node) here after cs :
  has_non_whitespace (Some here) = false ->
  has_non_whitespace (Some after) = false ->
  (forall n, has_child (child n) = has_child n) ->
  (forall n t, child (set_tail n t) = set_tail (child n) t) ->
  Forall (fun c => child (child c) = child c) cs ->
  indent_tails child here after (indent_tails child here after cs)
  = indent_tails child here after cs.
Proof.
  intros Hhere Hafter Hkeep Hcomm Hcs.
  induction Hcs as [|c cs Hc Hcs IH]; [reflexivity|].
  cbn [indent_tails]. rewrite IH, is_last_indent_tails. f_equal.
  set (t := if is_last cs then after else here).
  assert (Ht : has_non_whitespace (Some t) = false)
    by (unfold t; destruct (is_last cs); assumption).
  assert (Hc1 : forall c1, c1 = (if has_child c then child c else c) ->
                 (if has_child c1 then child c1 else c1) = c1).
  { intros c1 ->. destruct (has_child c) eqn:E.
    - rewrite Hkeep, E. exact Hc.
    - rewrite E. reflexivity. }
  specialize (Hc1 _ eq_refl).
  generalize dependent (if has_child c then child c else c). intros c1 Hc1.
  destruct (has_non_whitespace (tail_of c1)) eqn:Hnw.
  - rewrite Hc1, Hnw. reflexivity.
  - rewrite has_child_set_tail, Hcomm.
    destruct (has_child c1) eqn:E.
    + rewrite Hc1, tail_of_set_tail, Ht, set_tail_twice. reflexivity.
    + rewrite tail_of_set_tail, Ht, set_tail_twice. reflexivity.
Qed.

Lemma indent_children_twice space :
  all_chars isspace space = true ->
  forall n level,
    indent_children space level (indent_children space level n)
    = indent_children space level n.
Proof.
  intros Hs. induction n as [tag attrib text children tail IH|content tail]
    using node_ind_nested; intros level; [|reflexivity].
  cbn [indent_children]. f_equal.
  - destruct (has_non_whitespace text) eqn:Hnw.
    + rewrite Hnw. reflexivity.
    + rewrite (indentation_blank space level Hs). reflexivity.
  - apply indent_tails_twice.
    + apply indentation_blank, Hs.
    + apply indentation_blank, Hs.
    + intros n. apply has_child_indent_children.
    + intros n t. apply indent_children_set_tail.
    + apply (Forall_impl _ _ _ IH). intros c Hc. apply Hc.
Qed.

Lemma indent_twice root space :
  all_chars isspace space = true ->
  indent (indent root space) space = indent root space.
Proof.
  intros Hs. unfold indent. destruct (has_child root) eqn:E.
  - rewrite has_child_indent_children, E. apply indent_children_twice, Hs.
  - rewrite E. reflexivity.
Qed.

Lemma indent_tree_twice tree : indent_tree (indent_tree tree) = indent_tree tree.
Proof.
  unfold indent_tree. cbn [before_root getroot after_root].
  rewrite indent_twice by reflexivity. reflexivity.
Qed.

(** C9.  Applying the indentation pass to a file it has already rewritten
    leaves the file, byte for byte, as it was: the second pass returns and
    the world is unchanged.  The parser is taken to read back the tree that
    the writer wrote for the indented document. *)
Theorem pretty_printing_is_idempotent
    (xml_parse : list Byte.byte -> option ElementTree)
    (xml_write : ElementTree -> list Byte.byte)
    (file_path : string) (w w1 : world) :
  (forall raw tree,
      fs w !! file_path = Some raw -> xml_parse raw = Some tree ->
      xml_parse (xml_write (indent_tree tree)) = Some (indent_tree tree)) ->
  format_xml_pretty xml_parse xml_write file_path w = (Ok tt, w1) ->
  format_xml_pretty xml_parse xml_write file_path w1 = (Ok tt, w1)
  /\ fs w1 !! file_path
     = option_map (fun tree => xml_write (indent_tree tree))
                  (fs w !! file_path ≫= xml_parse).
Proof.
  intros Hround. unfold format_xml_pretty, pretty_bytes.
  destruct (fs w !! file_path) as [raw|] eqn:Hraw; [|discriminate].
  destruct (xml_parse raw) as [tree|] eqn:Htree; [|discriminate].
  intros [= <-]. cbn [fs set_fs]. rewrite lookup_insert_eq.
  rewrite (Hround raw tree eq_refl Htree), indent_tree_twice, insert_insert_eq.
  split; [reflexivity|]. cbn. rewrite Htree. reflexivity.
Qed.

Lemma pretty_printing_is_idempotent_witness :
  let w := mkWorld (<["out.xml" := Samples.bytes_of "<a><b/><c>x</c></a>"]> ∅)
                   0 0 [] [] in
  let once := format_xml_pretty Samples.xml_parse Samples.xml_write "out.xml" w in
  once.1 = Ok tt
  /\ format_xml_pretty Samples.xml_parse Samples.xml_write "out.xml" once.2
     = (Ok tt, once.2)
  /\ option_map Samples.chars_of (fs once.2 !! "out.xml")
     = Some (Samples.declaration +:+ "<a>" +:+ Samples.nl +:+ "  <b/>"
             +:+ Samples.nl +:+ "  <c>x</c>" +:+ Samples.nl +:+ "</a>"
             +:+ Samples.nl).
Proof.
  cbv zeta.
  set (w := mkWorld (<["out.xml" := Samples.bytes_of "<a><b/><c>x</c></a>"]> ∅)
                    0 0 [] []).
  assert (Honce : format_xml_pretty Samples.xml_parse Samples.xml_write "out.xml" w
                  = (Ok tt, (format_xml_pretty Samples.xml_parse Samples.xml_write
                               "out.xml" w).2))
    by (vm_compute; reflexivity).
  split; [vm_compute; reflexivity|]. split.
  - apply (pretty_printing_is_idempotent Samples.xml_parse Samples.xml_write
             "out.xml" w _); [|exact Honce].
    intros raw tree Hraw Htree. vm_compute in Hraw. injection Hraw as <-.
    vm_compute in Htree. injection Htree as <-. vm_compute. reflexivity.
  - vm_compute. reflexivity.
Defined.

(** ** The batch *)

Lemma mbind_ok_inv {A B} (m : M A) (k : A -> M B) w b w' :
  World.mbind m k w = (Ok b, w') ->
  exists a w1, m w = (Ok a, w1) /\ k a w1 = (Ok b, w').
Proof.
  unfold World.mbind. destruct (m w) as [[a|e] w1]; [|discriminate].
  intros H. exists a, w1. split; [reflexivity|exact H].
Qed.

(** ** The batch *)

Lemma split_on_absent sep s : no_char sep s = true -> split_on sep s = [s].
Proof.
  unfold no_char. induction s as [|c s IH]; [reflexivity|].
  cbn [all_chars split_on]. intros H. apply andb_prop in H as [Hc Hs].
  apply negb_true_iff in Hc. rewrite Hc, (IH Hs). reflexivity.
Qed.

Lemma path_name_plain s :
  no_char "/" s = true -> s <> EmptyString -> s <> "." -> path_name s = s.
Proof.
  intros Hs Hne Hdot. unfold path_name. rewrite (split_on_absent _ _ Hs).
  rewrite filter_cons, filter_nil. case_decide as H; [reflexivity|].
  exfalso. apply H. split; [|exact Hdot]. destruct s; [contradiction|reflexivity].
Qed.

Lemma cut_last_dot_absent s : no_char "." s = true -> cut_last_dot s = None.
Proof.
  unfold no_char. induction s as [|c s IH]; [reflexivity|].
  cbn [all_chars cut_last_dot]. intros H. apply andb_prop in H as [Hc Hs].
  apply negb_true_iff in Hc. rewrite (IH Hs), Hc. reflexivity.
Qed.

Lemma cut_last_dot_ext base ext :
  no_char "." ext = true ->
  cut_last_dot (base +:+ String "." ext) = Some (base, ext).
Proof.
  intros Hext. induction base as [|c base IH].
  - change (cut_last_dot (String "." ext) = Some (EmptyString, ext)).
    cbn [cut_last_dot]. rewrite (cut_last_dot_absent _ Hext). reflexivity.
  - change (cut_last_dot (String c (base +:+ String "." ext))
            = Some (String c base, ext)).
    cbn [cut_last_dot]. rewrite IH. reflexivity.
Qed.

Lemma no_char_app c s t :
  no_char c (s +:+ t) = no_char c s && no_char c t.
Proof. apply all_chars_app. Qed.

(** The stem of a name without a slash: what stands before the last dot
    when something stands on both sides of it, the name itself when it has
    no dot. *)
Lemma stem_of_name base ext :
  no_char "/" base = true -> no_char "/" ext = true ->
  no_char "." ext = true ->
  base <> EmptyString -> ext <> EmptyString ->
  stem (base +:+ "." +:+ ext) = base
  /\ (no_char "." base = true -> base <> "." -> stem base = base).
Proof.
  intros Hb He Hd Hbne Hene. split.
  - unfold stem. rewrite path_name_plain.
    + change ("." +:+ ext) with (String "." ext). rewrite (cut_last_dot_ext _ _ Hd).
      destruct base; [contradiction|]. destruct ext; [contradiction|]. reflexivity.
    + rewrite no_char_app, Hb. change ("." +:+ ext) with (String "." ext).
      unfold no_char in *. cbn [all_chars]. rewrite He. reflexivity.
    + destruct base; [contradiction|discriminate].
    + destruct base as [|c base]; [contradiction|].
      destruct base; [destruct ext; [contradiction|discriminate]|discriminate].
  - intros Hnd Hdot. unfold stem.
    rewrite (path_name_plain _ Hb Hbne Hdot), (cut_last_dot_absent _ Hnd).
    reflexivity.
Qed.

Lemma stem_without_dot name :
  no_char "/" name = true -> no_char "." name = true -> stem name = name.
Proof.
  intros Hs Hd. destruct name as [|c name]; [reflexivity|].
  unfold stem. rewrite path_name_plain, (cut_last_dot_absent _ Hd).
  - reflexivity.
  - exact Hs.
  - discriminate.
  - intros Heq. rewrite Heq in Hd. discriminate Hd.
Qed.

Section BatchFacts.
Variable xf_refuses : list xml_event -> xml_event -> option exn.
Variable decode_strict : string -> list Byte.byte -> result string.
Variable decode_replace : string -> list Byte.byte -> string.
Variable csv_reader_lines : string -> string -> list (list string).
Variable csv_reader_error : string -> string -> option exn.
Variable uuid4 : nat -> string.
Variable now : nat -> string.
Variable writable : string -> bool.
Variable render : list xml_event -> list Byte.byte.
Variable xml_parse : list Byte.byte -> option ElementTree.
Variable xml_write : ElementTree -> list Byte.byte.
Variable chardet_detect : list Byte.byte -> option string * Q.
Variable Path_join : string -> string -> string.
Variable cfg_default_delimiter : string.
Variable cfg_namespaces : option (list (string * string)).
Variable cfg_model_version : option string.
Variable cfg_model_name : option string.
Variable cfg_me_namespace : option string.
Variable cfg_role_template : template.
Variable cfg_datagroup_template : template.
Variable cfg_fixed_resources : list (string * string).
Variable cfg_required_fields : list string.
Variable cfg_processor_model_version : string.
Variable cfg_processor_model_name : string.

Local Abbreviation process :=
  (process_csv_file_stream xf_refuses decode_strict decode_replace csv_reader_lines csv_reader_error uuid4
     now writable render xml_parse xml_write chardet_detect
     cfg_default_delimiter cfg_namespaces cfg_model_version cfg_model_name
     cfg_me_namespace cfg_role_template cfg_datagroup_template
     cfg_fixed_resources cfg_required_fields cfg_processor_model_version
     cfg_processor_model_name).
Local Abbreviation try_file :=
  (attempt xf_refuses decode_strict decode_replace csv_reader_lines csv_reader_error uuid4
     now writable render xml_parse xml_write chardet_detect
     cfg_default_delimiter cfg_namespaces cfg_model_version cfg_model_name
     cfg_me_namespace cfg_role_template cfg_datagroup_template
     cfg_fixed_resources cfg_required_fields cfg_processor_model_version
     cfg_processor_model_name).
Local Abbreviation files :=
  (process_files xf_refuses decode_strict decode_replace csv_reader_lines csv_reader_error uuid4
     now writable render xml_parse xml_write chardet_detect Path_join
     cfg_default_delimiter cfg_namespaces cfg_model_version cfg_model_name
     cfg_me_namespace cfg_role_template cfg_datagroup_template
     cfg_fixed_resources cfg_required_fields cfg_processor_model_version
     cfg_processor_model_name).
Local Abbreviation batch :=
  (process_file_list xf_refuses decode_strict decode_replace csv_reader_lines csv_reader_error uuid4
     now writable render xml_parse xml_write chardet_detect Path_join
     cfg_default_delimiter cfg_namespaces cfg_model_version cfg_model_name
     cfg_me_namespace cfg_role_template cfg_datagroup_template
     cfg_fixed_resources cfg_required_fields cfg_processor_model_version
     cfg_processor_model_name).

(** One file never raises: what it returns is the verdict of the attempt
    made once the start of the file is logged. *)
Lemma process_returns_verdict folder_uid csv_file_path xml_file_path logger w :
  exists w',
    process folder_uid csv_file_path xml_file_path logger w
    = (Ok (verdict (try_file folder_uid csv_file_path xml_file_path logger
                      (set_log (log w ++ [mkRecord logger INFO
                                   (FileStart csv_file_path xml_file_path)]) w))),
       w').
Proof.
  unfold process_csv_file_stream, attempt, verdict.
  cbv [World.mbind say tell try_except ret fst].
  match goal with
  | |- context [detect ?a ?b ?c ?d] => destruct (detect a b c d) as [[encoding|e] w1]
  end.
  - match goal with
    | |- context [convert ?a1 ?a2 ?a3 ?a4 ?a5 ?a6 ?a7 ?a8 ?a9 ?a10 ?a11 ?a12 ?a13
                    ?a14 ?a15 ?a16 ?a17 ?a18 ?a19 ?a20 ?a21 ?a22 ?a23 ?a24 ?a25
                    ?a26 ?a27 ?a28] =>
        destruct (convert a1 a2 a3 a4 a5 a6 a7 a8 a9 a10 a11 a12 a13 a14 a15 a16
                    a17 a18 a19 a20 a21 a22 a23 a24 a25 a26 a27 a28) as [[b|e] w2]
    end; eexists; reflexivity.
  - eexists. reflexivity.
Qed.

Lemma files_app folder_uid csv_dir logger_factory l1 l2 results w :
  files folder_uid csv_dir logger_factory (l1 ++ l2) results w
  = match files folder_uid csv_dir logger_factory l1 results w with
    | (Ok r, w1) => files folder_uid csv_dir logger_factory l2 r w1
    | (Raise e, w1) => (Raise e, w1)
    end.
Proof.
  revert results w. induction l1 as [|f l1 IH]; intros results w.
  - reflexivity.
  - cbn [app process_files]. cbv [World.mbind say tell].
    match goal with
    | |- context [process_csv_file_stream ?a1 ?a2 ?a3 ?a4 ?a5 ?a6 ?a7 ?a8 ?a9
                    ?a10 ?a11 ?a12 ?a13 ?a14 ?a15 ?a16 ?a17 ?a18 ?a19 ?a20 ?a21
                    ?a22 ?a23 ?a24 ?a25 ?a26 ?a27 ?a28] =>
        destruct (process_csv_file_stream a1 a2 a3 a4 a5 a6 a7 a8 a9 a10 a11
                    a12 a13 a14 a15 a16 a17 a18 a19 a20 a21 a22 a23 a24 a25 a26
                    a27 a28)
          as [[b|e] w1]
    end; [apply IH|reflexivity].
Qed.

(** What the loop does with one file name. *)
Lemma files_cons folder_uid csv_dir logger_factory f rest results w :
  exists w1,
    files folder_uid csv_dir logger_factory (f :: rest) results w
    = files folder_uid csv_dir logger_factory rest
        (<[f := verdict (try_file folder_uid (Path_join csv_dir f)
                           (Path_join csv_dir (stem f +:+ ".xml"))
                           (logger_factory f)
                           (announced (logger_factory f) f (Path_join csv_dir f)
                              (Path_join csv_dir (stem f +:+ ".xml")) w))]>
           results)
        w1.
Proof.
  cbn [process_files].
  destruct (process_returns_verdict folder_uid (Path_join csv_dir f)
              (Path_join csv_dir (stem f +:+ ".xml")) (logger_factory f)
              (set_log (log w ++ [mkRecord (logger_factory f) INFO
                                    (BatchFileStart f)]) w)) as [w1 Hp].
  cbv [World.mbind say tell]. rewrite Hp.
  eexists. unfold announced. cbn [log set_log]. rewrite <- app_assoc. reflexivity.
Qed.

(** The loop returns, and keeps the entries of the names it does not meet. *)
Lemma files_returns folder_uid csv_dir logger_factory l results w :
  exists results' w',
    files folder_uid csv_dir logger_factory l results w = (Ok results', w')
    /\ (forall f, is_Some (results' !! f) <-> f ∈ l \/ is_Some (results !! f))
    /\ (forall f, f ∉ l -> results' !! f = results !! f).
Proof.
  revert results w. induction l as [|g l IH]; intros results w.
  - exists results, w. split; [reflexivity|]. split.
    + intros f. rewrite elem_of_nil. tauto.
    + reflexivity.
  - destruct (files_cons folder_uid csv_dir logger_factory g l results w)
      as [w1 ->].
    match goal with
    | |- context [<[g := ?v]> results] =>
        destruct (IH (<[g := v]> results) w1) as (results' & w' & -> & Hdom & Hkeep)
    end.
    exists results', w'. split; [reflexivity|]. split.
    + intros f. rewrite Hdom, elem_of_cons.
      destruct (decide (g = f)) as [->|Hne].
      * rewrite lookup_insert_eq. split; [intros _|intros _; right; eexists; reflexivity].
        left. left. reflexivity.
      * rewrite lookup_insert_ne by exact Hne. split.
        -- intros [H|H]; [left; right; exact H|right; exact H].
        -- intros [[->|H]|H]; [contradiction|left; exact H|right; exact H].
    + intros f Hf. apply not_elem_of_cons in Hf as [Hne Hf].
      rewrite (Hkeep f Hf). apply lookup_insert_ne. congruence.
Qed.


(** An attempt returns nothing but [true]. *)
Lemma attempt_returns_true folder_uid csv_file_path xml_file_path logger w b w' :
  try_file folder_uid csv_file_path xml_file_path logger w = (Ok b, w') ->
  b = true.
Proof.
  unfold attempt, convert. intros H.
  repeat (apply mbind_ok_inv in H as (? & ? & _ & H)).
  injection H as <- _. reflexivity.
Qed.
End BatchFacts.

(** The scenario of the specification: of three files the second raises
    while its names are formatted; the batch reports it as failed and the
    other two as done. *)
Example batch_of_three_files :
  match (Samples.batch ["one.csv"; "two.csv"; "three.csv"] Samples.three_files).1 with
  | Ok results =>
      results !! "one.csv" = Some true
      /\ results !! "two.csv" = Some false
      /\ results !! "three.csv" = Some true
  | Raise _ => False
  end
  /\ (Samples.try_file "two.csv"
        (announced "two.csv" "two.csv" "d/two.csv" "d/two.xml"
           (Samples.batch ["one.csv"] Samples.three_files).2)).1
     = Raise (KeyError "org_name").
Proof. vm_compute. repeat split; reflexivity. Qed.

Lemma validation_checks_uuid_of__uid_fields_witness :
  (check_required_fields
     [("org_name", Some "Finance");
      ("user_uid", Some " 3fa85f64-5717-4562-b3fc-2c963f66afa6 ")]
     ["org_name"; "user_uid"]).1 = true
  /\ (check_required_fields
        [("org_name", Some "Sales"); ("user_uid", Some "not-a-uuid")]
        ["org_name"; "user_uid"]).1 <> true.
Proof.
  split.
  - apply (proj2 (validation_checks_uuid_of__uid_fields _ _)).
    intros field Hin. apply list_elem_of_In in Hin.
    destruct Hin as [<-|[<-|[]]]; eexists;
      (split; [reflexivity|split; [discriminate|]]);
      intros Hn; vm_compute in Hn;
      first [discriminate Hn|vm_compute; reflexivity].
  - intros H.
    destruct (proj1 (validation_checks_uuid_of__uid_fields _ _) H "user_uid")
      as (val & Hval & _ & Huuid).
    + apply list_elem_of_further, list_elem_of_here.
    + injection Hval as <-. specialize (Huuid eq_refl).
      vm_compute in Huuid. discriminate Huuid.
Defined.

(** * Further properties

    Properties of the same code beyond the claims of the specification. *)

(** ** More on validation *)

(** X1.  The message of a refusal names the first required field, in the order
    of the list, that the row does not satisfy, and tells an absent or blank
    value from a value that is no UUID; an accepted row has the empty
    message. *)
Theorem refusal_names_first_violated_field
    (row : Row) (required_fields : list string) :
  match check_required_fields row required_fields with
  | (true, msg) => msg = NoError /\ Forall (field_ok row) required_fields
  | (false, msg) =>
      exists pre field post,
        required_fields = pre ++ field :: post
        /\ Forall (field_ok row) pre
        /\ ((msg = FieldMissing field
             /\ (row_get row field = None
                 \/ exists val, row_get row field = Some val
                                /\ strip val = EmptyString))
            \/ (exists val, row_get row field = Some val
                  /\ strip val <> EmptyString
                  /\ names__uid field = true
                  /\ is_valid_uuid (strip val) = false
                  /\ msg = FieldNotUuid field (strip val)))
  end.
Proof.
  induction required_fields as [|field rest IH].
  - split; [reflexivity|constructor].
  - rewrite check_required_fields_cons. cbv zeta.
    destruct (row_get row field) as [val|] eqn:Hget; cbn [is_none str_of orb].
    2:{ exists [], field, rest. split; [reflexivity|]. split; [constructor|].
        left. split; [reflexivity|]. left. exact Hget. }
    destruct (is_empty (strip val)) eqn:He.
    { apply is_empty_true in He. exists [], field, rest.
      split; [reflexivity|]. split; [constructor|].
      left. split; [reflexivity|]. right. exists val. split; [exact Hget|exact He]. }
    assert (Hne : strip val <> EmptyString).
    { intros Hs. apply is_empty_true in Hs. congruence. }
    destruct (contains "_uid" (lower field)) eqn:Hu.
    + destruct (is_valid_uuid (strip val)) eqn:Hv; cbn [negb].
      * assert (Hok : field_ok row field).
        { exists val. split; [exact Hget|]. split; [exact Hne|]. intros _. exact Hv. }
        destruct (check_required_fields row rest) as [[] msg].
        -- destruct IH as [-> Hrest]. split; [reflexivity|]. constructor; assumption.
        -- destruct IH as (pre & f & post & -> & Hpre & Hmsg).
           exists (field :: pre), f, post. split; [reflexivity|].
           split; [constructor; assumption|exact Hmsg].
      * exists [], field, rest. split; [reflexivity|]. split; [constructor|].
        right. exists val. repeat split; try assumption.
    + assert (Hok : field_ok row field).
      { exists val. split; [exact Hget|]. split; [exact Hne|].
        unfold names__uid. rewrite Hu. discriminate. }
      destruct (check_required_fields row rest) as [[] msg].
      * destruct IH as [-> Hrest]. split; [reflexivity|]. constructor; assumption.
      * destruct IH as (pre & f & post & -> & Hpre & Hmsg).
        exists (field :: pre), f, post. split; [reflexivity|].
        split; [constructor; assumption|exact Hmsg].
Qed.

(** X2.  Validation reads nothing but the cells of the required fields: two rows
    that agree on them get the same verdict and the same message. *)
Theorem validation_reads_required_cells_only
    (row row' : Row) (required_fields : list string) :
  (forall field, field ∈ required_fields ->
                 row_get row field = row_get row' field) ->
  check_required_fields row required_fields
  = check_required_fields row' required_fields.
Proof.
  induction required_fields as [|field rest IH]; intros Hsame; [reflexivity|].
  rewrite !check_required_fields_cons. cbv zeta.
  rewrite <- (Hsame field) by apply list_elem_of_here.
  rewrite IH by (intros f Hf; apply Hsame, list_elem_of_further, Hf).
  reflexivity.
Qed.

Lemma validation_reads_required_cells_only_witness :
  check_required_fields [("a", Some "x"); ("b", Some "y")] ["a"]
  = check_required_fields [("b", None); ("a", Some "x")] ["a"].
Proof.
  apply validation_reads_required_cells_only.
  intros field Hin. apply list_elem_of_In in Hin. destruct Hin as [<-|[]].
  reflexivity.
Defined.

Lemma passes_iff_all_ok row required_fields :
  passes required_fields row = true <-> Forall (field_ok row) required_fields.
Proof.
  unfold passes. induction required_fields as [|field rest IH].
  - split; [constructor|reflexivity].
  - rewrite check_field_ok, IH. split.
    + intros [Hf Hrest]. constructor; assumption.
    + intros H. inversion H; subst. split; assumption.
Qed.

(** X3.  A row that passes for a list of required fields passes for every list
    made of some of these fields, in any order and with repetitions. *)
Theorem fewer_required_fields_still_pass
    (row : Row) (required_fields fewer : list string) :
  (forall field, field ∈ fewer -> field ∈ required_fields) ->
  passes required_fields row = true -> passes fewer row = true.
Proof.
  rewrite !passes_iff_all_ok, !Forall_forall. intros Hsub Hall field Hin.
  apply Hall, Hsub, Hin.
Qed.

Lemma fewer_required_fields_still_pass_witness :
  passes ["user_uid"; "org_name"; "user_uid"]
         [("org_name", Some "Finance");
          ("user_uid", Some "3fa85f64-5717-4562-b3fc-2c963f66afa6")] = true.
Proof.
  apply (fewer_required_fields_still_pass _ ["org_name"; "user_uid"]).
  - intros field Hin. apply list_elem_of_In in Hin. apply list_elem_of_In.
    destruct Hin as [<-|[<-|[<-|[]]]]; cbn; tauto.
  - vm_compute. reflexivity.
Defined.

(** ** The length of what passes the UUID check *)

Lemma length_remove_from old skip s :
  String.length (remove_from old skip s) <= String.length s.
Proof.
  revert skip. induction s as [|c s IH]; intros skip; [reflexivity|].
  cbn [remove_from String.length]. destruct skip as [|k].
  - destruct (startswith old (String c s)).
    + specialize (IH (Nat.pred (String.length old))). lia.
    + cbn [String.length]. specialize (IH 0). lia.
  - specialize (IH k). lia.
Qed.

Lemma length_lstrip_by p s : String.length (lstrip_by p s) <= String.length s.
Proof.
  induction s as [|c s IH]; [reflexivity|]. cbn [lstrip_by String.length].
  destruct (p c); cbn [String.length]; lia.
Qed.

Lemma length_rstrip_by p s : String.length (rstrip_by p s) <= String.length s.
Proof.
  induction s as [|c s IH]; [reflexivity|]. cbn [rstrip_by String.length].
  destruct (is_empty (rstrip_by p s) && p c); cbn [String.length]; lia.
Qed.

Lemma length_uuid_hex s : String.length (uuid_hex s) <= String.length s.
Proof.
  unfold uuid_hex, remove_all, strip_by.
  pose proof (length_remove_from "urn:" 0 s).
  pose proof (length_remove_from "uuid:" 0 (remove_from "urn:" 0 s)).
  pose proof (length_lstrip_by is_brace (remove_from "uuid:" 0 (remove_from "urn:" 0 s))).
  pose proof (length_rstrip_by is_brace
                (lstrip_by is_brace (remove_from "uuid:" 0 (remove_from "urn:" 0 s)))).
  pose proof (length_remove_from "-" 0
                (rstrip_by is_brace
                   (lstrip_by is_brace
                      (remove_from "uuid:" 0 (remove_from "urn:" 0 s))))).
  lia.
Qed.

(** X4.  No value shorter than 32 characters passes the UUID check, the empty
    value included, and what passes leaves exactly 32 characters once the
    markers, braces and dashes are gone. *)
Theorem valid_uuid_has_32_characters (val : string) :
  is_valid_uuid val = true ->
  String.length (uuid_hex val) = 32 /\ 32 <= String.length val.
Proof.
  unfold is_valid_uuid, UUID. intros H.
  destruct (String.length (uuid_hex val) =? 32)%nat eqn:E; [|discriminate H].
  apply Nat.eqb_eq in E. split; [exact E|].
  pose proof (length_uuid_hex val). lia.
Qed.

Lemma valid_uuid_has_32_characters_witness :
  String.length (uuid_hex "{3fa85f64-5717-4562-b3fc-2c963f66afa6}") = 32
  /\ 32 <= String.length "{3fa85f64-5717-4562-b3fc-2c963f66afa6}".
Proof.
  apply valid_uuid_has_32_characters. vm_compute. reflexivity.
Defined.

(** ** More on the row reader *)

Section ReaderMore.
Variable decode_strict : string -> list Byte.byte -> result string.
Variable decode_replace : string -> list Byte.byte -> string.
Variable csv_reader_lines : string -> string -> list (list string).
Variable csv_reader_error : string -> string -> option exn.
Variable default_delimiter : string.

Local Abbreviation reader :=
  (iter_csv_rows decode_strict decode_replace csv_reader_lines csv_reader_error default_delimiter).

Lemma records_app evs1 evs2 :
  records (evs1 ++ evs2) = records evs1 ++ records evs2.
Proof. unfold records. apply omap_app. Qed.

Lemma records_logged recs : records (logged recs) = recs.
Proof. induction recs as [|r recs IH]; [reflexivity|]. cbn. f_equal. exact IH. Qed.

Lemma rows_loop_checked path required logger start rows at_end :
  yields at_end = [] ->
  Forall (fun item => passes required item.2 = true
                      /\ start <= item.1 < start + length rows)
         (yields (rows_loop path required logger start rows at_end)).
Proof.
  intros Hend.
  revert start. induction rows as [|r rows IH]; intros start;
    [cbn [rows_loop]; rewrite Hend; constructor|].
  cbn [rows_loop]. destruct (normalize_row r) as [row|e].
  2:{ rewrite yields_logged. constructor. }
  destruct (check_required_fields row required) as [ok err] eqn:Hc.
  assert (Hrest : Forall (fun item => passes required item.2 = true
                            /\ start <= item.1 < start + length (r :: rows))
                    (yields (rows_loop path required logger (S start) rows
                               at_end))).
  { eapply Forall_impl; [apply IH|]. cbn [length]. intros item [Hp Hn].
    split; [exact Hp|lia]. }
  destruct ok; cbn [negb].
  - rewrite yields_yield. constructor; [|exact Hrest].
    cbn [fst snd length]. unfold passes. rewrite Hc. split; [reflexivity|lia].
  - rewrite yields_app, yields_logged. exact Hrest.
Qed.

Lemma rows_loop_increasing path required logger start rows at_end :
  yields at_end = [] ->
  StronglySorted lt
    (yields (rows_loop path required logger start rows at_end)).*1.
Proof.
  intros Hend.
  revert start. induction rows as [|r rows IH]; intros start;
    [cbn [rows_loop]; rewrite Hend; constructor|].
  cbn [rows_loop]. destruct (normalize_row r) as [row|e].
  2:{ rewrite yields_logged. constructor. }
  destruct (check_required_fields row required) as [[] err]; cbn [negb].
  - rewrite yields_yield. cbn [fmap list_fmap fst]. constructor; [apply IH|].
    apply Forall_fmap.
    eapply Forall_impl;
      [apply (rows_loop_checked path required logger (S start) rows at_end Hend)|].
    intros item [_ Hn]. cbn. lia.
  - rewrite yields_app, yields_logged. apply IH.
Qed.

Lemma parse_rows_checked path required logger delimiter content :
  Forall (fun item => passes required item.2 = true /\ 2 <= item.1)
         (yields (parse_rows csv_reader_lines csv_reader_error path required logger delimiter content))
  /\ StronglySorted lt
       (yields (parse_rows csv_reader_lines csv_reader_error path required logger delimiter content)).*1.
Proof.
  unfold parse_rows. destruct (csv_reader_lines delimiter content) as [|header lines].
  - destruct (csv_reader_error delimiter content);
      [rewrite yields_reader_raised|rewrite yields_logged]; split; constructor.
  - split; [|apply rows_loop_increasing, yields_reader_raised].
    eapply Forall_impl;
      [apply rows_loop_checked, yields_reader_raised|]. intros item [Hp Hn].
    split; [exact Hp|lia].
Qed.

(** X5.  Whatever the file holds and however it is decoded, every row the reader
    yields has passed validation, and the line numbers it is yielded with
    start at 2 and grow strictly. *)
Theorem reader_yields_only_checked_rows
    (path : string) (raw : list Byte.byte) (encoding : string)
    (required : list string) (logger : option Logger)
    (delimiter : option string) :
  let out := yields (reader path raw encoding required logger delimiter) in
  Forall (fun item => passes required item.2 = true /\ 2 <= item.1) out
  /\ StronglySorted lt out.*1.
Proof.
  cbv zeta. rewrite iter_csv_rows_parts, yields_app, yields_logged. cbn [app].
  destruct (read_content decode_strict decode_replace logger raw encoding).2
    as [[content used]|e]; [apply parse_rows_checked|].
  split; constructor.
Qed.

Lemma try_encodings_any_logger logger raw encs :
  (try_encodings decode_strict logger raw encs).2
  = (try_encodings decode_strict None raw encs).2
  /\ (try_encodings decode_strict None raw encs).1 = [].
Proof.
  induction encs as [|enc encs [IH1 IH2]]; [split; reflexivity|].
  cbn [try_encodings].
  destruct (decode_strict enc raw) as [content|[]]; try (split; reflexivity).
  destruct (try_encodings decode_strict logger raw encs) as [recs r].
  destruct (try_encodings decode_strict None raw encs) as [recs' r'].
  cbn [fst snd] in *. subst. split; reflexivity.
Qed.

Lemma read_content_any_logger logger raw encoding :
  (read_content decode_strict decode_replace logger raw encoding).2
  = (read_content decode_strict decode_replace None raw encoding).2
  /\ (read_content decode_strict decode_replace None raw encoding).1 = [].
Proof.
  unfold read_content.
  destruct (try_encodings_any_logger logger raw (encodings_to_try encoding))
    as [H1 H2].
  destruct (try_encodings decode_strict logger raw (encodings_to_try encoding))
    as [recs r].
  destruct (try_encodings decode_strict None raw (encodings_to_try encoding))
    as [recs' r'].
  cbn [fst snd] in *. subst.
  destruct r' as [[[content used]|]|e]; split; reflexivity.
Qed.

Lemma rows_loop_any_logger path required logger start rows at_end at_end' :
  yields at_end = [] -> yields at_end' = [] -> records at_end' = [] ->
  yields (rows_loop path required logger start rows at_end)
  = yields (rows_loop path required None start rows at_end')
  /\ records (rows_loop path required None start rows at_end') = [].
Proof.
  intros Hy Hy' Hr'.
  revert start. induction rows as [|r rows IH]; intros start;
    [cbn [rows_loop]; rewrite Hy, Hy', Hr'; split; reflexivity|].
  cbn [rows_loop]. destruct (normalize_row r) as [row|e].
  2:{ rewrite !yields_logged. split; reflexivity. }
  destruct (IH (S start)) as [IH1 IH2].
  destruct (check_required_fields row required) as [[] err]; cbn [negb].
  - rewrite !yields_yield, IH1. split; [reflexivity|exact IH2].
  - rewrite !yields_app, !yields_logged, records_app, records_logged, IH1, IH2.
    split; reflexivity.
Qed.

(** X6.  The logger only listens: the rows yielded are the same with any logger
    and with none, and without a logger nothing is recorded. *)
Theorem reader_rows_do_not_depend_on_logger
    (path : string) (raw : list Byte.byte) (encoding : string)
    (required : list string) (logger : option Logger)
    (delimiter : option string) :
  yields (reader path raw encoding required logger delimiter)
  = yields (reader path raw encoding required None delimiter)
  /\ records (reader path raw encoding required None delimiter) = [].
Proof.
  rewrite !iter_csv_rows_parts, !yields_app, !yields_logged, records_app,
    records_logged.
  destruct (read_content_any_logger logger raw encoding) as [Hc Hr].
  rewrite Hr, Hc. cbn [app].
  destruct (read_content decode_strict decode_replace None raw encoding).2
    as [[content used]|e]; [|split; reflexivity].
  unfold parse_rows.
  destruct (csv_reader_lines _ _) as [|header lines].
  - destruct (csv_reader_error _ _); rewrite ?yields_reader_raised,
      ?yields_logged; split; reflexivity.
  - apply rows_loop_any_logger; try apply yields_reader_raised.
    destruct (csv_reader_error _ _); reflexivity.
Qed.

Lemma rejected_app evs1 evs2 :
  rejected (evs1 ++ evs2) = rejected evs1 ++ rejected evs2.
Proof. unfold rejected. apply omap_app. Qed.

Lemma rejected_read_content logger raw encoding :
  rejected (logged (read_content decode_strict decode_replace logger raw encoding).1)
  = [].
Proof.
  unfold read_content.
  assert (Htry : forall encs,
            rejected (logged (try_encodings decode_strict logger raw encs).1) = []).
  { induction encs as [|enc encs IH]; [reflexivity|]. cbn [try_encodings].
    destruct (decode_strict enc raw) as [content|[]]; try reflexivity.
    destruct (try_encodings decode_strict logger raw encs) as [recs r].
    cbn [fst] in *. unfold logged. rewrite map_app. fold (logged recs).
    rewrite rejected_app, IH. destruct logger; reflexivity. }
  specialize (Htry (encodings_to_try encoding)).
  destruct (try_encodings decode_strict logger raw (encodings_to_try encoding))
    as [recs r].
  cbn [fst] in Htry.
  destruct r as [[[content used]|]|e]; cbn [fst]; unfold logged in *;
    rewrite ?map_app, ?rejected_app, Htry; destruct logger; reflexivity.
Qed.

Lemma rejected_reader_raised path logger error :
  rejected (reader_raised path logger error) = [].
Proof. destruct error; destruct logger; reflexivity. Qed.

Lemma rows_loop_rejected path required l start rows at_end :
  Forall well_formed rows ->
  rejected (rows_loop path required (Some l) start rows at_end)
  = filter (fun item => passes required item.2 = false)
           (numbered start (map row_of rows))
    ++ rejected at_end.
Proof.
  intros Hwf. revert start.
  induction Hwf as [|r rows Hr Hrows IH]; intros start; [reflexivity|].
  cbn [rows_loop]. rewrite (normalize_well_formed r Hr).
  unfold numbered. cbn [map length seq zip_with].
  rewrite filter_cons. cbn [snd].
  case_decide as Hp; unfold passes in Hp;
    destruct (check_required_fields (row_of r) required) as [ok err];
    cbn [fst] in Hp; destruct ok; try congruence; cbn [negb].
  - change (rejected (logged (tell (Some l) ERROR
                                (RowRejected start err (row_of r)))
                      ++ rows_loop path required (Some l) (S start) rows at_end))
      with ((start, row_of r)
            :: rejected (rows_loop path required (Some l) (S start) rows at_end)).
    cbn [app]. f_equal. apply IH.
  - change (rejected (Yield start (row_of r)
                      :: rows_loop path required (Some l) (S start) rows at_end))
      with (rejected (rows_loop path required (Some l) (S start) rows at_end)).
    apply IH.
Qed.

(** With a logger, every row that fits the header gives one event. *)
Lemma rows_loop_length path required l start rows at_end :
  Forall well_formed rows ->
  length (rows_loop path required (Some l) start rows at_end)
  = length rows + length at_end.
Proof.
  intros Hwf. revert start.
  induction Hwf as [|r rows Hr Hrows IH]; intros start; [reflexivity|].
  cbn [rows_loop]. rewrite (normalize_well_formed r Hr).
  destruct (check_required_fields (row_of r) required) as [[] err];
    cbn [negb logged tell map app length]; rewrite IH; reflexivity.
Qed.

Lemma length_filter_split {A} (f : A -> bool) (xs : list A) :
  length (filter (fun x => f x = true) xs)
  + length (filter (fun x => f x = false) xs) = length xs.
Proof.
  induction xs as [|x xs IH]; [reflexivity|].
  rewrite !filter_cons. destruct (f x) eqn:E;
    repeat case_decide; try congruence; cbn [length]; lia.
Qed.

(** X7.  On a file that is decoded, that the CSV reader reads to its end
    without raising, and none of whose lines has more cells than the
    header, every non-empty data line is accounted for: it is either
    yielded or reported to the logger as rejected, with its line number and
    its row, the two counts add up to the number of non-empty data lines,
    and the reader does nothing else after the records of the decoding. *)
Theorem reader_accounts_for_every_line
    (path : string) (raw : list Byte.byte) (encoding : string)
    (required : list string) (logger : Logger) (delimiter : option string)
    (recs : list record) (content used : string)
    (header : list string) (lines : list (list string)) :
  read_content decode_strict decode_replace (Some logger) raw encoding
  = (recs, Ok (content, used)) ->
  csv_reader_lines (default default_delimiter delimiter) content
  = header :: lines ->
  csv_reader_error (default default_delimiter delimiter) content = None ->
  Forall (fun cells => length cells <= length header) lines ->
  let evs := reader path raw encoding required (Some logger) delimiter in
  let rows := numbered 2 (map row_of
                (DictReader (map (fun field => lower (strip field)) header) lines)) in
  rejected evs = filter (fun item => passes required item.2 = false) rows
  /\ length (yields evs) + length (rejected evs)
     = length (filter (fun cells => nonblank cells = true) lines)
  /\ length evs
     = length recs + length (filter (fun cells => nonblank cells = true) lines).
Proof.
  intros Hread Hlines Herr Hfit. cbv zeta.
  assert (Hwf : Forall well_formed
            (DictReader (map (fun field => lower (strip field)) header) lines)).
  { apply well_formed_DictReader. rewrite length_map. exact Hfit. }
  assert (Hrej : rejected (reader path raw encoding required (Some logger) delimiter)
                 = filter (fun item => passes required item.2 = false)
                     (numbered 2 (map row_of
                        (DictReader (map (fun field => lower (strip field)) header)
                                    lines)))).
  { rewrite iter_csv_rows_parts, rejected_app, rejected_read_content. cbn [app].
    rewrite Hread. cbn [snd]. unfold parse_rows. rewrite Hlines.
    rewrite (rows_loop_rejected _ _ _ _ _ _ Hwf), rejected_reader_raised.
    apply app_nil_r. }
  split; [exact Hrej|]. split.
  - rewrite Hrej,
      (iter_csv_rows_yields _ _ _ _ _ _ _ _ _ _ _ _ _ _ _ _ Hread Hlines Hwf).
    rewrite (length_filter_split (fun item => passes required item.2)).
    unfold numbered. rewrite length_zip_with, length_seq, !length_map.
    unfold DictReader. rewrite length_map. lia.
  - rewrite iter_csv_rows_parts, Hread. cbn [fst snd].
    rewrite length_app. unfold logged at 1. rewrite length_map.
    unfold parse_rows. rewrite Hlines, Herr.
    rewrite (rows_loop_length _ _ _ _ _ _ Hwf).
    unfold DictReader. rewrite length_map. cbn [reader_raised length]. lia.
Qed.

(** X8.  A text in which the CSV reader finds no line at all, not even a header,
    yields nothing and is reported once as a failure of the file; a text
    with a header and no data line yields nothing and reports nothing more
    than the opening of the file.  This is for a file that is decoded; when
    the CSV reader itself raises, its exception is what is reported, in
    both cases. *)
Theorem reader_on_files_without_rows
    (path : string) (raw : list Byte.byte) (encoding : string)
    (required : list string) (logger : Logger) (delimiter : option string)
    (recs : list record) (content used : string) :
  read_content decode_strict decode_replace (Some logger) raw encoding
  = (recs, Ok (content, used)) ->
  let found := csv_reader_lines (default default_delimiter delimiter) content in
  let error := csv_reader_error (default default_delimiter delimiter) content in
  let evs := reader path raw encoding required (Some logger) delimiter in
  (found = [] ->
   yields evs = []
   /\ records evs
      = recs ++ [mkRecord logger ERROR
                   (CsvFailed path (default TypeError error))])
  /\ (forall header, found = [header] ->
      yields evs = []
      /\ records evs
         = recs ++ match error with
                   | Some e => [mkRecord logger ERROR (CsvFailed path e)]
                   | None => []
                   end).
Proof.
  intros Hread. cbv zeta.
  rewrite iter_csv_rows_parts, yields_app, yields_logged, records_app,
    records_logged, Hread. cbn [fst snd]. unfold parse_rows. split.
  - intros ->.
    destruct (csv_reader_error _ _); split; reflexivity.
  - intros header ->. cbn.
    destruct (csv_reader_error _ _); split; reflexivity.
Qed.
End ReaderMore.

Lemma reader_accounts_for_every_line_witness :
  let evs := iter_csv_rows Samples.decode_strict Samples.decode_replace
               Samples.csv_reader_lines Samples.csv_reader_error ";" "in.csv" Samples.good_csv "utf-8"
               ["user_uid"] (Some "log") None in
  rejected evs
  = [(3, [("org_name", Some "Sales"); ("user_uid", Some "not-a-uuid")])]
  /\ length (yields evs) + length (rejected evs) = 2.
Proof.
  cbv zeta.
  destruct (reader_accounts_for_every_line
              Samples.decode_strict Samples.decode_replace
              Samples.csv_reader_lines Samples.csv_reader_error ";" "in.csv" Samples.good_csv "utf-8"
              ["user_uid"] "log" None
              [mkRecord "log" INFO (OpenedWith "utf-8")]
              (Samples.chars_of Samples.good_csv) "utf-8"
              ["org_name"; "user_uid"]
              [["Finance"; "3fa85f64-5717-4562-b3fc-2c963f66afa6"];
               ["Sales"; "not-a-uuid"]]) as (Hrej & Hcount & _).
  - vm_compute. reflexivity.
  - vm_compute. reflexivity.
  - reflexivity.
  - repeat constructor.
  - split.
    + refine (eq_trans Hrej _). vm_compute. reflexivity.
    + refine (eq_trans Hcount _). reflexivity.
Defined.

Lemma reader_on_files_without_rows_witness :
  let evs := iter_csv_rows Samples.decode_strict Samples.decode_replace
               Samples.csv_reader_lines Samples.csv_reader_error ";" "empty.csv" [] "utf-8"
               ["user_uid"] (Some "log") None in
  yields evs = []
  /\ records evs = [mkRecord "log" INFO (OpenedWith "utf-8");
                    mkRecord "log" ERROR (CsvFailed "empty.csv" TypeError)].
Proof.
  cbv zeta.
  destruct (proj1 (reader_on_files_without_rows Samples.decode_strict
                     Samples.decode_replace Samples.csv_reader_lines
                     Samples.csv_reader_error ";"
                     "empty.csv" [] "utf-8" ["user_uid"] "log" None
                     [mkRecord "log" INFO (OpenedWith "utf-8")] "" "utf-8"
                     eq_refl) eq_refl)
    as [Hy Hr].
  split; [exact Hy|exact Hr].
Defined.

(** ** Header names *)

Lemma lower_char_idem c : lower_char (lower_char c) = lower_char c.
Proof. destruct c as [[] [] [] [] [] [] [] []]; vm_compute; reflexivity. Qed.

Lemma isspace_lower_char c : isspace (lower_char c) = isspace c.
Proof. destruct c as [[] [] [] [] [] [] [] []]; vm_compute; reflexivity. Qed.

Lemma lower_idem s : lower (lower s) = lower s.
Proof.
  induction s as [|c s IH]; [reflexivity|]. cbn [lower].
  rewrite lower_char_idem, IH. reflexivity.
Qed.

Lemma lstrip_lower s :
  lstrip_by isspace (lower s) = lower (lstrip_by isspace s).
Proof.
  induction s as [|c s IH]; [reflexivity|]. cbn [lower lstrip_by].
  rewrite isspace_lower_char. destruct (isspace c); [exact IH|reflexivity].
Qed.

Lemma is_empty_lower s : is_empty (lower s) = is_empty s.
Proof. destruct s; reflexivity. Qed.

Lemma rstrip_lower s :
  rstrip_by isspace (lower s) = lower (rstrip_by isspace s).
Proof.
  induction s as [|c s IH]; [reflexivity|]. cbn [lower rstrip_by].
  rewrite IH, is_empty_lower, isspace_lower_char.
  destruct (is_empty (rstrip_by isspace s) && isspace c); reflexivity.
Qed.

Lemma strip_lower s : strip (lower s) = lower (strip s).
Proof. unfold strip, strip_by. rewrite lstrip_lower, rstrip_lower. reflexivity. Qed.

Lemma rstrip_by_idem p s : rstrip_by p (rstrip_by p s) = rstrip_by p s.
Proof.
  induction s as [|c s IH]; [reflexivity|]. cbn [rstrip_by].
  destruct (is_empty (rstrip_by p s) && p c) eqn:E; [reflexivity|].
  cbn [rstrip_by]. rewrite IH, E. reflexivity.
Qed.

Lemma lstrip_by_head p s :
  lstrip_by p s = EmptyString
  \/ exists c t, lstrip_by p s = String c t /\ p c = false.
Proof.
  induction s as [|c s IH]; [left; reflexivity|]. cbn [lstrip_by].
  destruct (p c) eqn:E; [exact IH|]. right. exists c, s. split; [reflexivity|exact E].
Qed.

Lemma strip_by_idem p s : strip_by p (strip_by p s) = strip_by p s.
Proof.
  unfold strip_by. destruct (lstrip_by_head p s) as [->|(c & t & -> & Hc)];
    [reflexivity|].
  cbn [rstrip_by]. rewrite Hc, andb_false_r. cbn [lstrip_by]. rewrite Hc.
  cbn [rstrip_by]. rewrite rstrip_by_idem, Hc, andb_false_r. reflexivity.
Qed.

Lemma normalised_idem s :
  lower (strip (lower (strip s))) = lower (strip s).
Proof.
  rewrite strip_lower. unfold strip. rewrite strip_by_idem. apply lower_idem.
Qed.

(** ** Dictionaries *)

Section DictFacts.
Context {K V : Type} `{EqDecision K}.
Implicit Types (d l : list (K * V)) (k : K) (v : V).

Lemma dict_get_set d k v k' :
  dict_get (dict_set d k v) k'
  = if decide (k = k') then Some v else dict_get d k'.
Proof.
  induction d as [|[k0 v0] d IH]; cbn [dict_set dict_get].
  - destruct (decide (k = k')); reflexivity.
  - destruct (decide (k0 = k)) as [->|Hne]; cbn [dict_get].
    + destruct (decide (k = k')); reflexivity.
    + rewrite IH. destruct (decide (k0 = k')) as [->|Hne'];
        [|reflexivity].
      destruct (decide (k = k')); [congruence|reflexivity].
Qed.

Lemma dict_set_fresh d k v :
  k ∉ dict_keys d -> dict_set d k v = d ++ [(k, v)].
Proof.
  induction d as [|[k0 v0] d IH]; intros Hk; [reflexivity|].
  cbn [dict_set]. unfold dict_keys in *. cbn [map fst] in Hk.
  apply not_elem_of_cons in Hk as [Hne Hk].
  destruct (decide (k0 = k)); [congruence|]. rewrite (IH Hk). reflexivity.
Qed.

Lemma dict_keys_set d k v :
  dict_keys (dict_set d k v)
  = if decide (k ∈ dict_keys d) then dict_keys d else dict_keys d ++ [k].
Proof.
  induction d as [|[k0 v0] d IH]; [reflexivity|].
  cbn [dict_set]. unfold dict_keys in *. cbn [map fst].
  destruct (decide (k0 = k)) as [->|Hne]; cbn [map fst].
  - destruct (decide (k ∈ k :: map fst d)) as [|Hn]; [reflexivity|].
    exfalso. apply Hn, list_elem_of_here.
  - rewrite IH. destruct (decide (k ∈ map fst d)) as [Hin|Hin].
    + destruct (decide (k ∈ k0 :: map fst d)) as [|Hn]; [reflexivity|].
      exfalso. apply Hn, list_elem_of_further, Hin.
    + destruct (decide (k ∈ k0 :: map fst d)) as [Hin'|]; [|reflexivity].
      apply elem_of_cons in Hin' as [->|Hin']; [congruence|contradiction].
Qed.

Lemma fold_dict_set_keys l d :
  NoDup (dict_keys d) ->
  NoDup (dict_keys (fold_left (fun d kv => dict_set d kv.1 kv.2) l d))
  /\ forall k, k ∈ dict_keys (fold_left (fun d kv => dict_set d kv.1 kv.2) l d) ->
               k ∈ dict_keys d \/ k ∈ map fst l.
Proof.
  revert d. induction l as [|[k v] l IH]; intros d Hd; cbn [fold_left].
  - split; [exact Hd|]. intros k Hk. left. exact Hk.
  - destruct (IH (dict_set d k v)) as [Hnd Hin].
    + rewrite dict_keys_set. destruct (decide (k ∈ dict_keys d)); [exact Hd|].
      apply NoDup_app. split; [exact Hd|]. split.
      * intros x Hx Hx'. apply list_elem_of_singleton in Hx'. subst. contradiction.
      * apply NoDup_singleton.
    + split; [exact Hnd|]. intros k' Hk'. cbn [map fst].
      destruct (Hin k' Hk') as [Hk''|Hk'']; [|right; apply list_elem_of_further, Hk''].
      cbn [fst snd] in Hk''. rewrite dict_keys_set in Hk''.
      destruct (decide (k ∈ dict_keys d)); [left; exact Hk''|].
      apply elem_of_app in Hk'' as [Hk''|Hk'']; [left; exact Hk''|].
      apply list_elem_of_singleton in Hk''. subst. right. apply list_elem_of_here.
Qed.

Lemma dict_of_keys l :
  NoDup (dict_keys (dict_of l))
  /\ forall k, k ∈ dict_keys (dict_of l) -> k ∈ map fst l.
Proof.
  destruct (fold_dict_set_keys l []) as [Hnd Hin]; [constructor|].
  split; [exact Hnd|]. intros k Hk. destruct (Hin k Hk) as [Hk'|Hk']; [|exact Hk'].
  apply elem_of_nil in Hk'. contradiction.
Qed.

Lemma fold_dict_set_fresh l d :
  NoDup (dict_keys (d ++ l)) ->
  fold_left (fun d kv => dict_set d kv.1 kv.2) l d = d ++ l.
Proof.
  revert d. induction l as [|[k v] l IH]; intros d Hnd; cbn [fold_left].
  - rewrite app_nil_r. reflexivity.
  - cbn [fst snd]. unfold dict_keys in Hnd. rewrite map_app in Hnd. cbn [map fst] in Hnd.
    rewrite dict_set_fresh.
    + rewrite IH; [rewrite <- app_assoc; reflexivity|].
      unfold dict_keys. rewrite <- app_assoc, map_app. exact Hnd.
    + apply NoDup_app in Hnd as (_ & Hdis & _). intros Hk.
      apply (Hdis k Hk), list_elem_of_here.
Qed.

Lemma dict_of_distinct l : NoDup (dict_keys l) -> dict_of l = l.
Proof. intros H. unfold dict_of. rewrite fold_dict_set_fresh; [reflexivity|exact H]. Qed.

Lemma dict_get_zip (ks : list K) (vs : list V) i k :
  NoDup ks -> length vs = length ks -> ks !! i = Some k ->
  dict_get (zip ks vs) k = vs !! i.
Proof.
  revert vs i. induction ks as [|k0 ks IH]; intros vs i Hnd Hlen Hi.
  - rewrite lookup_nil in Hi. discriminate.
  - destruct vs as [|v vs]; [discriminate|]. cbn [zip zip_with dict_get].
    apply NoDup_cons in Hnd as [Hk0 Hnd]. destruct i as [|i]; cbn in Hi.
    + injection Hi as ->. destruct (decide (k = k)); [reflexivity|congruence].
    + destruct (decide (k0 = k)) as [->|Hne].
      * exfalso. apply Hk0. eapply list_elem_of_lookup_2, Hi.
      * cbn. apply IH; [exact Hnd|cbn in Hlen; lia|exact Hi].
Qed.
End DictFacts.

Lemma normalize_row_keys r row :
  normalize_row r = Ok row ->
  NoDup (dict_keys row)
  /\ Forall (fun key => lower (strip key) = key) (dict_keys row).
Proof.
  unfold normalize_row. destruct (surplus r); [discriminate|]. intros [= <-].
  destruct (dict_of_keys (map (fun kv => (lower (strip kv.1), kv.2)) (named r)))
    as [Hnd Hin].
  split; [exact Hnd|]. apply Forall_forall. intros key Hkey.
  apply Hin in Hkey. rewrite map_map in Hkey. cbn [fst] in Hkey.
  apply list_elem_of_fmap in Hkey as (kv & -> & _). apply normalised_idem.
Qed.

Lemma rows_loop_normalised path required logger start rows at_end :
  yields at_end = [] ->
  Forall (fun item => exists r, r ∈ rows /\ normalize_row r = Ok item.2)
         (yields (rows_loop path required logger start rows at_end)).
Proof.
  intros Hend.
  revert start. induction rows as [|r rows IH]; intros start;
    [cbn [rows_loop]; rewrite Hend; constructor|].
  cbn [rows_loop]. destruct (normalize_row r) as [row|e] eqn:Hn.
  2:{ rewrite yields_logged. constructor. }
  assert (Hrest : Forall (fun item => exists r0, r0 ∈ r :: rows
                                      /\ normalize_row r0 = Ok item.2)
                    (yields (rows_loop path required logger (S start) rows
                               at_end))).
  { eapply Forall_impl; [apply IH|]. intros item (r0 & Hin & Hr0).
    exists r0. split; [apply list_elem_of_further, Hin|exact Hr0]. }
  destruct (check_required_fields row required) as [[] err]; cbn [negb].
  - rewrite yields_yield. constructor; [|exact Hrest].
    exists r. split; [apply list_elem_of_here|exact Hn].
  - rewrite yields_app, yields_logged. exact Hrest.
Qed.

(** X9.  The keys of every yielded row are trimmed and lower-cased, so that
    trimming and lower-casing a key again changes nothing, and no key occurs
    twice. *)
Theorem yielded_rows_have_normalised_keys
    (decode_strict : string -> list Byte.byte -> result string)
    (decode_replace : string -> list Byte.byte -> string)
    (csv_reader_lines : string -> string -> list (list string))
    (csv_reader_error : string -> string -> option exn)
    (default_delimiter : string)
    (path : string) (raw : list Byte.byte) (encoding : string)
    (required : list string) (logger : option Logger)
    (delimiter : option string) :
  Forall (fun item =>
            NoDup (dict_keys item.2)
            /\ Forall (fun key => lower (strip key) = key) (dict_keys item.2))
    (yields (iter_csv_rows decode_strict decode_replace csv_reader_lines csv_reader_error
               default_delimiter path raw encoding required logger delimiter)).
Proof.
  rewrite iter_csv_rows_parts, yields_app, yields_logged. cbn [app].
  destruct (read_content decode_strict decode_replace logger raw encoding).2
    as [[content used]|e]; [|constructor].
  unfold parse_rows. destruct (csv_reader_lines _ _) as [|header lines].
  - destruct (csv_reader_error _ _);
      rewrite ?yields_reader_raised, ?yields_logged; constructor.
  - eapply Forall_impl; [apply rows_loop_normalised, yields_reader_raised|].
    intros item (r & _ & Hr). cbn beta in Hr. apply (normalize_row_keys r), Hr.
Qed.

Lemma map_normalise_fixed (l : Row) :
  Forall (fun key => lower (strip key) = key) (dict_keys l) ->
  map (fun kv : string * option string => (lower (strip kv.1), kv.2)) l = l.
Proof.
  induction l as [|[k v] l IH]; intros H; [reflexivity|].
  unfold dict_keys in H. cbn [map fst] in H. inversion H as [|? ? Hk Hl]; subst.
  cbn [map fst snd]. rewrite Hk. f_equal. apply IH, Hl.
Qed.

Lemma zip_keys {A B} (ks : list A) (vs : list B) :
  length vs = length ks -> map fst (zip ks vs) = ks.
Proof.
  revert vs. induction ks as [|k ks IH]; intros [|v vs] Hlen; try discriminate;
    [reflexivity|]. cbn. f_equal. apply IH. cbn in Hlen. lia.
Qed.

Lemma fold_set_none (keys : list string) (d : Row) :
  NoDup (dict_keys d ++ keys) ->
  fold_left (fun d key => dict_set d key None) keys d
  = d ++ map (fun key => (key, None)) keys.
Proof.
  revert d. induction keys as [|k keys IH]; intros d Hnd; cbn [fold_left map].
  - rewrite app_nil_r. reflexivity.
  - rewrite dict_set_fresh.
    + rewrite IH; [rewrite <- app_assoc; reflexivity|].
      unfold dict_keys. rewrite map_app. cbn [map fst]. rewrite <- app_assoc.
      exact Hnd.
    + apply NoDup_app in Hnd as (_ & Hdis & _). intros Hk.
      apply (Hdis k Hk), list_elem_of_here.
Qed.

(** What [csv.DictReader] builds from distinct field names and a line with
    no more cells than names: the names in order, each with its cell, and
    [None] for the names the line has no cell for. *)
Lemma DictReader_row_distinct fieldnames cells :
  NoDup fieldnames -> length cells <= length fieldnames ->
  DictReader_row fieldnames cells
  = mkDictRow (zip fieldnames
                   (map Some cells
                    ++ replicate (length fieldnames - length cells) None))
              None.
Proof.
  intros Hnd Hle. unfold DictReader_row.
  assert (Hzip : zip fieldnames (map Some cells)
                 = zip (take (length cells) fieldnames) (map Some cells)).
  { rewrite <- (take_drop (length cells) fieldnames) at 1.
    rewrite zip_with_app_l. rewrite length_take, Nat.min_l by exact Hle.
    rewrite (take_ge (map Some cells)) by (rewrite length_map; lia).
    rewrite (drop_ge (map Some cells)) by (rewrite length_map; lia).
    cbn. rewrite zip_with_nil_r, app_nil_r. reflexivity. }
  assert (Hkeys : dict_keys (zip fieldnames (map Some cells))
                  = take (length cells) fieldnames).
  { rewrite Hzip. apply zip_keys. rewrite length_map, length_take. lia. }
  assert (Hd : dict_of (zip fieldnames (map Some cells))
               = zip fieldnames (map Some cells)).
  { apply dict_of_distinct. rewrite Hkeys.
    rewrite <- (take_drop (length cells) fieldnames) in Hnd.
    apply NoDup_app in Hnd as [H _]. exact H. }
  rewrite Hd.
  destruct (length fieldnames <? length cells)%nat eqn:E1;
    [apply Nat.ltb_lt in E1; lia|].
  destruct (length cells <? length fieldnames)%nat eqn:E2.
  - f_equal. rewrite fold_set_none.
    + rewrite <- (take_drop (length cells) fieldnames) at 3.
      rewrite zip_with_app by (rewrite length_take, length_map; lia).
      rewrite <- Hzip. f_equal.
      rewrite <- (length_drop fieldnames (length cells)).
      generalize (drop (length cells) fieldnames). intros ks.
      induction ks as [|k ks IH]; [reflexivity|]. cbn. f_equal. exact IH.
    + rewrite Hkeys, take_drop. exact Hnd.
  - apply Nat.ltb_ge in E2. replace (length fieldnames - length cells) with 0 by lia.
    cbn [replicate]. rewrite app_nil_r. reflexivity.
Qed.

(** X10.  A line read under a header whose trimmed, lower-cased names are distinct:
    looking a column up by its normalised name gives the cell of the line in
    that column, and nothing for a column beyond the end of a short line. *)
Theorem cell_is_found_under_its_column_name
    (header cells : list string) (i : nat) (name : string) :
  NoDup (map (fun field => lower (strip field)) header) ->
  length cells <= length header ->
  header !! i = Some name ->
  exists row,
    normalize_row
      (DictReader_row (map (fun field => lower (strip field)) header) cells)
    = Ok row
    /\ dict_keys row = map (fun field => lower (strip field)) header
    /\ row_get row (lower (strip name)) = cells !! i.
Proof.
  intros Hnd Hle Hi.
  set (fieldnames := map (fun field => lower (strip field)) header) in *.
  assert (Hlen : length fieldnames = length header) by apply length_map.
  set (vals := map Some cells ++ replicate (length fieldnames - length cells) None).
  assert (Hvals : length vals = length fieldnames).
  { unfold vals. rewrite length_app, length_map, length_replicate. lia. }
  assert (Hkeys : dict_keys (zip fieldnames vals) = fieldnames)
    by (apply zip_keys, Hvals).
  exists (zip fieldnames vals).
  rewrite DictReader_row_distinct by (auto; lia). fold vals.
  unfold normalize_row. cbn [surplus named].
  rewrite map_normalise_fixed.
  2:{ rewrite Hkeys. unfold fieldnames. apply Forall_forall. intros key Hkey.
      apply list_elem_of_fmap in Hkey as (field & -> & _). apply normalised_idem. }
  rewrite dict_of_distinct by (rewrite Hkeys; exact Hnd).
  split; [reflexivity|]. split; [exact Hkeys|].
  unfold row_get.
  rewrite (dict_get_zip fieldnames vals i (lower (strip name)) Hnd Hvals).
  2:{ unfold fieldnames. rewrite list_lookup_fmap, Hi. reflexivity. }
  unfold vals. destruct (decide (i < length cells)) as [Hlt|Hge].
  - rewrite lookup_app_l by (rewrite length_map; exact Hlt).
    rewrite list_lookup_fmap. destruct (cells !! i) eqn:Hc; [reflexivity|].
    apply lookup_ge_None in Hc. lia.
  - rewrite lookup_app_r by (rewrite length_map; lia).
    rewrite (lookup_ge_None_2 cells) by lia.
    rewrite lookup_replicate_2; [reflexivity|].
    rewrite length_map. apply lookup_lt_Some in Hi. lia.
Qed.

Lemma cell_is_found_under_its_column_name_witness :
  exists row,
    normalize_row (DictReader_row ["org name"; "user_uid"] ["Finance"]) = Ok row
    /\ dict_keys row = ["org name"; "user_uid"]
    /\ row_get row "user_uid" = None.
Proof.
  apply (cell_is_found_under_its_column_name
           [" Org Name"; "USER_UID "] ["Finance"] 1 "USER_UID ").
  - vm_compute. repeat constructor; intros H; apply list_elem_of_In in H;
      cbn in H; intuition congruence.
  - cbn. lia.
  - reflexivity.
Defined.

(** ** Rows of one file *)

Lemma dict_get_none_keys {V} (d : list (string * V)) k :
  dict_get d k = None <-> k ∉ dict_keys d.
Proof.
  unfold dict_keys. induction d as [|[k0 v] d IH]; cbn [dict_get map fst].
  - split; [intros _; apply not_elem_of_nil|reflexivity].
  - rewrite not_elem_of_cons. destruct (decide (k0 = k)) as [->|Hne].
    + split; [discriminate|]. intros [H _]. contradiction.
    + rewrite IH. split; [intros H; split; [congruence|exact H]|intros [_ H]; exact H].
Qed.

Lemma get_arg_by_keys (d1 d2 : Row) name :
  dict_keys d1 = dict_keys d2 ->
  match get_arg d1 name, get_arg d2 name with
  | Ok _, Ok _ => True
  | Raise e1, Raise e2 => e1 = e2
  | _, _ => False
  end.
Proof.
  intros Hk. unfold get_arg.
  destruct (all_chars is_digit name);
    [destruct (maxsize <? decimal 0 name)%Z; reflexivity|].
  destruct (dict_get d1 name) as [v1|] eqn:H1;
    destruct (dict_get d2 name) as [v2|] eqn:H2; try exact I.
  - apply dict_get_none_keys in H2. rewrite <- Hk in H2.
    apply dict_get_none_keys in H2. congruence.
  - apply dict_get_none_keys in H1. rewrite Hk in H1.
    apply dict_get_none_keys in H1. congruence.
  - reflexivity.
Qed.

(** For a template of text and bare names, whether it can be filled, and
    the exception when it cannot, depends on the keys only. *)
Lemma format_by_keys t (d1 d2 : Row) :
  plain t = true ->
  dict_keys d1 = dict_keys d2 ->
  match format t d1, format t d2 with
  | Ok _, Ok _ => True
  | Raise e1, Raise e2 => e1 = e2
  | _, _ => False
  end.
Proof.
  intros Hplain Hk.
  induction t as [|[text|name|name finish|] t IH]; cbn [format];
    try discriminate Hplain.
  - exact I.
  - specialize (IH Hplain).
    destruct (format t d1), (format t d2); exact IH.
  - specialize (IH Hplain).
    pose proof (get_arg_by_keys d1 d2 name Hk) as Hg.
    destruct (get_arg d1 name), (get_arg d2 name); try contradiction;
      [|exact Hg].
    cbn [bind]. destruct (format t d1), (format t d2); exact IH.
Qed.
Section KeysFacts.
Variable xf_refuses : list xml_event -> xml_event -> option exn.
Variable cfg_namespaces : option (list (string * string)).
Variable cfg_role_template : template.
Variable cfg_datagroup_template : template.
Variable cfg_fixed_resources : list (string * string).
Variable uuid4 : nat -> string.

Local Abbreviation run :=
  (add_role_structure xf_refuses cfg_namespaces cfg_role_template
     cfg_datagroup_template cfg_fixed_resources uuid4).

Lemma run_without_namespace data folder_uid logger w rn dn :
  format cfg_role_template data = Ok rn ->
  format cfg_datagroup_template data = Ok dn ->
  match dict_get (namespaces cfg_namespaces) "cim",
        dict_get (namespaces cfg_namespaces) "rdf" with
  | None, _ => (run data folder_uid logger w).1 = Raise (KeyError "cim")
  | Some _, None => (run data folder_uid logger w).1 = Raise (KeyError "rdf")
  | Some _, Some _ => True
  end.
Proof.
  intros Hrn Hdn.
  destruct (dict_get (namespaces cfg_namespaces) "cim") as [cim|] eqn:Hcim.
  - destruct (dict_get (namespaces cfg_namespaces) "rdf") as [rdf|] eqn:Hrdf;
      [exact I|].
    rewrite run_unfold.
    erewrite mbind_ok by (apply format_names_ok; eassumption).
    cbv zeta. unfold say at 1 2. cbn [World.mbind].
    erewrite mbind_raise by (eapply role_block_no_rdf; eassumption).
    reflexivity.
  - rewrite run_unfold.
    erewrite mbind_ok by (apply format_names_ok; eassumption).
    cbv zeta. unfold say at 1 2. cbn [World.mbind].
    erewrite mbind_raise by (apply role_block_no_cim; assumption).
    reflexivity.
Qed.

(** For templates of text and bare names and a writer that takes what
    both calls ask for, the outcome of a call depends on the keys of the
    row only. *)
Lemma entity_outcome_by_keys
    (data1 data2 : Row) (folder1 folder2 : string)
    (logger1 logger2 : option Logger) (w1 w2 : world) :
  plain cfg_role_template = true -> plain cfg_datagroup_template = true ->
  dict_keys data1 = dict_keys data2 ->
  writer_takes xf_refuses cfg_namespaces cfg_role_template
    cfg_datagroup_template cfg_fixed_resources uuid4 data1 folder1 w1 ->
  writer_takes xf_refuses cfg_namespaces cfg_role_template
    cfg_datagroup_template cfg_fixed_resources uuid4 data2 folder2 w2 ->
  (run data1 folder1 logger1 w1).1 = (run data2 folder2 logger2 w2).1.
Proof.
  intros Hpr Hpd Hk Ht1 Ht2.
  pose proof (format_by_keys cfg_role_template data1 data2 Hpr Hk) as Hr.
  pose proof (format_by_keys cfg_datagroup_template data1 data2 Hpd Hk) as Hd.
  destruct (format cfg_role_template data1) as [rn1|e1] eqn:Hr1;
    destruct (format cfg_role_template data2) as [rn2|e2] eqn:Hr2;
    try contradiction.
  2:{ subst e2.
      rewrite (run_names_raise _ _ _ _ _ _ data1 folder1 logger1 w1 e1)
        by (left; exact Hr1).
      rewrite (run_names_raise _ _ _ _ _ _ data2 folder2 logger2 w2 e1)
        by (left; exact Hr2).
      reflexivity. }
  destruct (format cfg_datagroup_template data1) as [dn1|e1] eqn:Hd1;
    destruct (format cfg_datagroup_template data2) as [dn2|e2] eqn:Hd2;
    try contradiction.
  2:{ subst e2.
      rewrite (run_names_raise _ _ _ _ _ _ data1 folder1 logger1 w1 e1)
        by (right; split; [eexists; exact Hr1|exact Hd1]).
      rewrite (run_names_raise _ _ _ _ _ _ data2 folder2 logger2 w2 e1)
        by (right; split; [eexists; exact Hr2|exact Hd2]).
      reflexivity. }
  pose proof (run_without_namespace data1 folder1 logger1 w1 rn1 dn1 Hr1 Hd1) as H1.
  pose proof (run_without_namespace data2 folder2 logger2 w2 rn2 dn2 Hr2 Hd2) as H2.
  destruct (dict_get (namespaces cfg_namespaces) "cim") as [cim|] eqn:Hcim;
    [|congruence].
  destruct (dict_get (namespaces cfg_namespaces) "rdf") as [rdf|] eqn:Hrdf;
    [|congruence].
  assert (Hf : first_uid_field data1 = first_uid_field data2)
    by (unfold first_uid_field; rewrite Hk; reflexivity).
  specialize (Ht1 cim rdf rn1 dn1 Hcim Hrdf Hr1 Hd1).
  specialize (Ht2 cim rdf rn2 dn2 Hcim Hrdf Hr2 Hd2).
  unfold row_events in Ht1, Ht2. rewrite <- Hf in Ht2.
  destruct (first_uid_field data1) as [f|] eqn:Hf1.
  - destruct (run_ok xf_refuses cfg_namespaces cfg_role_template
                cfg_datagroup_template
                cfg_fixed_resources uuid4 data1 folder1 logger1 w1 cim rdf
                rn1 dn1 f Hcim Hrdf Hr1 Hd1 Hf1 Ht1) as (w1' & -> & _).
    destruct (run_ok xf_refuses cfg_namespaces cfg_role_template
                cfg_datagroup_template
                cfg_fixed_resources uuid4 data2 folder2 logger2 w2 cim rdf
                rn2 dn2 f Hcim Hrdf Hr2 Hd2 (eq_sym Hf) Ht2) as (w2' & -> & _).
    reflexivity.
  - rewrite app_nil_r in Ht1, Ht2.
    destruct (run_no_uid xf_refuses cfg_namespaces cfg_role_template
                cfg_datagroup_template
                cfg_fixed_resources uuid4 data1 folder1 logger1 w1 cim rdf
                rn1 dn1 Hcim Hrdf Hr1 Hd1 Hf1 Ht1) as (w1' & -> & _).
    destruct (run_no_uid xf_refuses cfg_namespaces cfg_role_template
                cfg_datagroup_template
                cfg_fixed_resources uuid4 data2 folder2 logger2 w2 cim rdf
                rn2 dn2 Hcim Hrdf Hr2 Hd2 (eq_sym Hf) Ht2) as (w2' & -> & _).
    reflexivity.
Qed.

(** X11.  For name templates made of text and bare field names, and as long
    as the writer takes what the calls ask for, whether a call for a row
    returns, and with which exception it fails, depends on the keys of the
    row and on nothing else in it: not on its values, nor on the folder,
    the logger or the world. *)
Theorem entity_outcome_depends_on_keys_only
    (data1 data2 : Row) (folder1 folder2 : string)
    (logger1 logger2 : option Logger) (w1 w2 : world) :
  plain cfg_role_template = true -> plain cfg_datagroup_template = true ->
  dict_keys data1 = dict_keys data2 ->
  writer_takes xf_refuses cfg_namespaces cfg_role_template
    cfg_datagroup_template cfg_fixed_resources uuid4 data1 folder1 w1 ->
  writer_takes xf_refuses cfg_namespaces cfg_role_template
    cfg_datagroup_template cfg_fixed_resources uuid4 data2 folder2 w2 ->
  (run data1 folder1 logger1 w1).1 = (run data2 folder2 logger2 w2).1.
Proof. apply entity_outcome_by_keys. Qed.
End KeysFacts.

Lemma entity_outcome_depends_on_keys_only_witness :
  (add_role_structure Samples.xf_refuses Samples.namespaces Samples.role_template
     Samples.datagroup_template [] Samples.uuid4
     [("org_name", Some "Finance"); ("user_uid", Some "u-1")]
     "folder" None (Samples.in_rdf Samples.w0)).1
  = (add_role_structure Samples.xf_refuses Samples.namespaces Samples.role_template
       Samples.datagroup_template [] Samples.uuid4
       [("org_name", None); ("user_uid", Some "")]
       "other" (Some "log") (Samples.in_rdf Samples.three_files)).1.
Proof.
  apply entity_outcome_depends_on_keys_only.
  - reflexivity.
  - reflexivity.
  - reflexivity.
  - intros cim rdf rn dn [= <-] [= <-] [= <-] [= <-]. vm_compute. reflexivity.
  - intros cim rdf rn dn [= <-] [= <-] [= <-] [= <-]. vm_compute. reflexivity.
Defined.

Lemma seen_onto_app seen l1 l2 :
  seen_onto seen (l1 ++ l2) = seen_onto (seen_onto seen l1) l2.
Proof. unfold seen_onto. apply fold_left_app. Qed.

Lemma fold_dict_set_seen {V} (l : list (string * V)) d :
  dict_keys (fold_left (fun d kv => dict_set d kv.1 kv.2) l d)
  = seen_onto (dict_keys d) (map fst l).
Proof.
  revert d. induction l as [|[k v] l IH]; intros d; [reflexivity|].
  cbn [fold_left map fst snd]. rewrite IH, dict_keys_set. reflexivity.
Qed.

Lemma fold_set_none_seen (keys : list string) (d : Row) :
  dict_keys (fold_left (fun d key => dict_set d key None) keys d)
  = seen_onto (dict_keys d) keys.
Proof.
  revert d. induction keys as [|k keys IH]; intros d; [reflexivity|].
  cbn [fold_left]. rewrite IH, dict_keys_set. reflexivity.
Qed.

Lemma dict_of_seen {V} (l : list (string * V)) :
  dict_keys (dict_of l) = first_seen (map fst l).
Proof. apply (fold_dict_set_seen l []). Qed.

Lemma zip_keys_short {A B} (ks : list A) (vs : list B) :
  length vs <= length ks -> map fst (zip ks vs) = take (length vs) ks.
Proof.
  revert vs. induction ks as [|k ks IH]; intros [|v vs] Hlen; try reflexivity.
  cbn. f_equal. apply IH. cbn in Hlen. lia.
Qed.

Lemma DictReader_row_keys fieldnames cells :
  length cells <= length fieldnames ->
  dict_keys (named (DictReader_row fieldnames cells)) = first_seen fieldnames.
Proof.
  intros Hle. unfold DictReader_row.
  assert (Hd : dict_keys (dict_of (zip fieldnames (map Some cells)))
               = first_seen (take (length cells) fieldnames)).
  { rewrite dict_of_seen, zip_keys_short by (rewrite length_map; exact Hle).
    rewrite length_map. reflexivity. }
  destruct (length fieldnames <? length cells)%nat eqn:E1;
    [apply Nat.ltb_lt in E1; lia|].
  destruct (length cells <? length fieldnames)%nat eqn:E2; cbn [named].
  - rewrite fold_set_none_seen, Hd. unfold first_seen.
    rewrite <- seen_onto_app, take_drop. reflexivity.
  - apply Nat.ltb_ge in E2. rewrite Hd, take_ge by lia. reflexivity.
Qed.

Lemma seen_onto_subset seen l k :
  k ∈ seen_onto seen l -> k ∈ seen \/ k ∈ l.
Proof.
  revert seen. induction l as [|x l IH]; intros seen Hk; [left; exact Hk|].
  unfold seen_onto in Hk. cbn [fold_left] in Hk. apply IH in Hk.
  destruct Hk as [Hk|Hk]; [|right; apply list_elem_of_further, Hk].
  destruct (decide (x ∈ seen)); [left; exact Hk|].
  apply elem_of_app in Hk as [Hk|Hk]; [left; exact Hk|].
  apply list_elem_of_singleton in Hk. subst. right. apply list_elem_of_here.
Qed.

Lemma NoDup_seen_onto seen l : NoDup seen -> NoDup (seen_onto seen l).
Proof.
  revert seen. induction l as [|k l IH]; intros seen Hs; [exact Hs|].
  unfold seen_onto. cbn [fold_left]. apply IH.
  destruct (decide (k ∈ seen)); [exact Hs|].
  apply NoDup_app. split; [exact Hs|]. split; [|apply NoDup_singleton].
  intros x Hx Hx'. apply list_elem_of_singleton in Hx'. subst. contradiction.
Qed.

Lemma seen_onto_distinct seen l :
  NoDup (seen ++ l) -> seen_onto seen l = seen ++ l.
Proof.
  revert seen. induction l as [|k l IH]; intros seen Hnd;
    [rewrite app_nil_r; reflexivity|].
  unfold seen_onto. cbn [fold_left].
  destruct (decide (k ∈ seen)) as [Hin|Hnin].
  - apply NoDup_app in Hnd as (_ & Hdis & _).
    exfalso. apply (Hdis k Hin), list_elem_of_here.
  - fold (seen_onto (seen ++ [k]) l). rewrite IH, <- app_assoc; [reflexivity|].
    rewrite <- app_assoc. exact Hnd.
Qed.

Lemma first_seen_twice l : first_seen (first_seen l) = first_seen l.
Proof.
  unfold first_seen at 1. apply (seen_onto_distinct []).
  apply NoDup_seen_onto. constructor.
Qed.

Lemma row_of_keys fieldnames cells :
  length cells <= length fieldnames ->
  Forall (fun key => lower (strip key) = key) fieldnames ->
  dict_keys (row_of (DictReader_row fieldnames cells)) = first_seen fieldnames.
Proof.
  intros Hle Hnorm. unfold row_of.
  rewrite map_normalise_fixed.
  - rewrite dict_of_seen. fold (dict_keys (named (DictReader_row fieldnames cells))).
    rewrite (DictReader_row_keys _ _ Hle). apply first_seen_twice.
  - rewrite (DictReader_row_keys _ _ Hle). apply Forall_forall. intros key Hkey.
    apply seen_onto_subset in Hkey as [Hkey|Hkey];
      [apply elem_of_nil in Hkey; contradiction|].
    revert key Hkey. apply Forall_forall, Hnorm.
Qed.

Lemma yielded_rows_keys
    (decode_strict : string -> list Byte.byte -> result string)
    (decode_replace : string -> list Byte.byte -> string)
    (csv_reader_lines : string -> string -> list (list string))
    (csv_reader_error : string -> string -> option exn)
    (default_delimiter : string)
    (path : string) (raw : list Byte.byte) (encoding : string)
    (required : list string) (logger : option Logger)
    (delimiter : option string)
    (recs : list record) (content used : string)
    (header : list string) (lines : list (list string)) :
  read_content decode_strict decode_replace logger raw encoding
  = (recs, Ok (content, used)) ->
  csv_reader_lines (default default_delimiter delimiter) content
  = header :: lines ->
  Forall (fun cells => length cells <= length header) lines ->
  Forall (fun item =>
            dict_keys item.2
            = first_seen (map (fun field => lower (strip field)) header))
    (yields (iter_csv_rows decode_strict decode_replace csv_reader_lines csv_reader_error
               default_delimiter path raw encoding required logger delimiter)).
Proof.
  intros Hread Hlines Hfit.
  rewrite (reader_yields_valid_rows _ _ _ _ _ _ _ _ _ _ _ _ _ _ _ _
             Hread Hlines Hfit).
  apply Forall_forall. intros [n row] Hin.
  apply list_elem_of_filter in Hin as [_ Hin]. cbn [snd].
  unfold numbered in Hin. apply elem_of_zip_r in Hin.
  apply list_elem_of_fmap in Hin as (r & -> & Hr).
  unfold DictReader in Hr. apply list_elem_of_fmap in Hr as (cells & -> & Hc).
  apply list_elem_of_filter in Hc as [_ Hc].
  apply row_of_keys.
  - rewrite length_map. revert cells Hc. apply Forall_forall, Hfit.
  - apply Forall_forall. intros key Hkey.
    apply list_elem_of_fmap in Hkey as (field & -> & _). apply normalised_idem.
Qed.

(** X12.  On a file none of whose lines has more cells than the header, all the
    rows yielded have the same keys, in the same order: the trimmed,
    lower-cased names of the header, each at its first occurrence. *)
Theorem rows_of_a_file_share_their_keys
    (decode_strict : string -> list Byte.byte -> result string)
    (decode_replace : string -> list Byte.byte -> string)
    (csv_reader_lines : string -> string -> list (list string))
    (csv_reader_error : string -> string -> option exn)
    (default_delimiter : string)
    (path : string) (raw : list Byte.byte) (encoding : string)
    (required : list string) (logger : option Logger)
    (delimiter : option string)
    (recs : list record) (content used : string)
    (header : list string) (lines : list (list string)) :
  read_content decode_strict decode_replace logger raw encoding
  = (recs, Ok (content, used)) ->
  csv_reader_lines (default default_delimiter delimiter) content
  = header :: lines ->
  Forall (fun cells => length cells <= length header) lines ->
  Forall (fun item =>
            dict_keys item.2
            = first_seen (map (fun field => lower (strip field)) header))
    (yields (iter_csv_rows decode_strict decode_replace csv_reader_lines csv_reader_error
               default_delimiter path raw encoding required logger delimiter)).
Proof. apply yielded_rows_keys. Qed.

Lemma rows_of_a_file_share_their_keys_witness :
  Forall (fun item => dict_keys item.2 = ["org_name"; "user_uid"])
    (yields (iter_csv_rows Samples.decode_strict Samples.decode_replace
               Samples.csv_reader_lines Samples.csv_reader_error ";" "in.csv" Samples.good_csv "utf-8"
               [] (Some "log") None)).
Proof.
  apply (rows_of_a_file_share_their_keys
           Samples.decode_strict Samples.decode_replace
           Samples.csv_reader_lines Samples.csv_reader_error ";" "in.csv" Samples.good_csv "utf-8"
           [] (Some "log") None
           [mkRecord "log" INFO (OpenedWith "utf-8")]
           (Samples.chars_of Samples.good_csv) "utf-8"
           ["org_name"; "user_uid"]
           [["Finance"; "3fa85f64-5717-4562-b3fc-2c963f66afa6"];
            ["Sales"; "not-a-uuid"]]).
  - vm_compute. reflexivity.
  - vm_compute. reflexivity.
  - repeat constructor.
Defined.

(** ** What the generator leaves alone *)

(** What a relation between worlds needs for the writing code to keep it. *)
Section Preserving.
Variable R : world -> world -> Prop.
Hypothesis R_refl : forall w, R w w.
Hypothesis R_trans : forall a b c, R a b -> R b c -> R a c.

Lemma preserves_ret {A} (a : A) : preserves R (ret a).
Proof. intros w. apply R_refl. Qed.

Lemma preserves_raise {A} e : preserves R (@raise A e).
Proof. intros w. apply R_refl. Qed.

Lemma preserves_lift {A} (r : result A) : preserves R (lift r).
Proof. intros w. apply R_refl. Qed.

Lemma preserves_mbind {A B} (m : M A) (k : A -> M B) :
  preserves R m -> (forall a, preserves R (k a)) -> preserves R (World.mbind m k).
Proof.
  intros Hm Hk w. unfold World.mbind. specialize (Hm w).
  destruct (m w) as [[a|e] w1]; cbn [snd] in *; [|exact Hm].
  eapply R_trans; [exact Hm|apply Hk].
Qed.

Lemma preserves_try_except {A} (m : M A) (h : exn -> M A) :
  preserves R m -> (forall e, preserves R (h e)) -> preserves R (try_except m h).
Proof.
  intros Hm Hh w. unfold try_except. specialize (Hm w).
  destruct (m w) as [[a|e] w1]; cbn [snd] in *; [exact Hm|].
  eapply R_trans; [exact Hm|apply Hh].
Qed.

Lemma preserves_finally {A} (m : M A) (fin : world -> world) :
  preserves R m -> (forall w, R w (fin w)) -> preserves R (finally m fin).
Proof.
  intros Hm Hfin w. unfold finally. specialize (Hm w).
  destruct (m w) as [r w1]; cbn [snd] in *.
  eapply R_trans; [exact Hm|apply Hfin].
Qed.

Variable logger : option Logger.
Hypothesis R_emit : forall w evs, R w (set_xf (xf w ++ evs) w).
Hypothesis R_say :
  forall w lv m, R w (set_log (log w ++ tell logger lv m) w).

Lemma preserves_say lv m : preserves R (say logger lv m).
Proof. intros w. apply R_say. Qed.

Lemma preserves_request refuses ev : preserves R (request refuses ev).
Proof.
  intros w. unfold request.
  destruct (refuses (xf w) ev); [apply R_refl|apply R_emit].
Qed.

Lemma preserves_element {A} refuses tag attrib nsmap (body : M A) :
  preserves R body -> preserves R (element refuses tag attrib nsmap body).
Proof.
  intros Hb. unfold element. apply preserves_mbind; [apply preserves_request|].
  intros _. apply preserves_finally; [exact Hb|]. intros w. apply R_emit.
Qed.

Lemma preserves_write refuses text : preserves R (write refuses text).
Proof. destruct text; [apply preserves_request|apply preserves_ret]. Qed.

Section Configured.
Variable xf_refuses : list xml_event -> xml_event -> option exn.
Variable cfg_namespaces : option (list (string * string)).

Lemma preserves_ns key : preserves R (ns cfg_namespaces key).
Proof.
  unfold ns. destruct (dict_get _ key); [apply preserves_ret|apply preserves_raise].
Qed.

Lemma preserves_cim_element {A} name (body : M A) :
  preserves R body -> preserves R (cim_element xf_refuses cfg_namespaces name body).
Proof.
  intros Hb. unfold cim_element. apply preserves_mbind; [apply preserves_ns|].
  intros cim. apply preserves_element, Hb.
Qed.

Lemma preserves_cim_element_rdf {A} name key value (body : M A) :
  preserves R body ->
  preserves R (cim_element_rdf xf_refuses cfg_namespaces name key value body).
Proof.
  intros Hb. unfold cim_element_rdf. apply preserves_mbind; [apply preserves_ns|].
  intros cim. apply preserves_mbind; [apply preserves_ns|].
  intros rdf. apply preserves_element, Hb.
Qed.

Ltac keep :=
  repeat first
    [ apply preserves_cim_element_rdf
    | apply preserves_cim_element
    | apply preserves_write
    | apply preserves_ret
    | apply preserves_raise
    | apply preserves_say
    | (apply preserves_mbind; [|intros ?]) ].

Lemma preserves_role_block role_uid privilege_uid folder_uid role_name :
  preserves R (role_block xf_refuses cfg_namespaces role_uid privilege_uid folder_uid
                 role_name).
Proof. unfold role_block, pass. keep. Qed.

Lemma preserves_privilege_block privilege_uid role_uid datagroup_uid op :
  preserves R (privilege_block xf_refuses cfg_namespaces privilege_uid role_uid
                 datagroup_uid op).
Proof. unfold privilege_block, pass. keep. Qed.

Lemma preserves_datagroup_block datagroup_uid privilege_uid objectref_uid
    datagroup_name dg_parent dg_category dg_class :
  preserves R (datagroup_block xf_refuses cfg_namespaces datagroup_uid privilege_uid
                 objectref_uid datagroup_name dg_parent dg_category dg_class).
Proof. unfold datagroup_block, pass. keep. Qed.

Lemma preserves_objectref_block objectref_uid datagroup_uid object_uid :
  preserves R (objectref_block xf_refuses cfg_namespaces objectref_uid datagroup_uid
                 object_uid).
Proof. unfold objectref_block, pass. keep. Qed.

Lemma preserves_format_names role_template datagroup_template data :
  preserves R (format_names role_template datagroup_template data logger).
Proof.
  unfold format_names. apply preserves_try_except.
  - apply preserves_mbind; [apply preserves_lift|]. intros rn.
    apply preserves_mbind; [apply preserves_lift|]. intros dn. apply preserves_ret.
  - intros e. destruct e; try apply preserves_raise.
    apply preserves_mbind; [apply preserves_say|]. intros _. apply preserves_raise.
Qed.

(** The call once the first record is logged and the identifiers drawn. *)
Lemma add_role_structure_after_start role_template datagroup_template fixed
    uuid4 data folder_uid w :
  R (started data logger w)
    (add_role_structure xf_refuses cfg_namespaces role_template datagroup_template fixed
       uuid4 data folder_uid logger w).2.
Proof.
  rewrite run_unfold. generalize (started data logger w). intros w1.
  revert w1.
  match goal with |- forall w1, R w1 (?m w1).2 => change (preserves R m) end.
  apply preserves_mbind; [apply preserves_format_names|]. intros [rn dn].
  cbv zeta.
  apply preserves_mbind; [apply preserves_say|]. intros _.
  apply preserves_mbind; [apply preserves_say|]. intros _.
  apply preserves_mbind; [apply preserves_role_block|]. intros _.
  apply preserves_mbind; [apply preserves_privilege_block|]. intros _.
  apply preserves_mbind; [apply preserves_datagroup_block|]. intros _.
  destruct (first_uid_field data) as [f|]; [|apply preserves_raise].
  destruct (is_empty f); [apply preserves_raise|].
  apply preserves_mbind; [apply preserves_objectref_block|]. intros _.
  apply preserves_say.
Qed.
End Configured.
End Preserving.

Lemma grown_refl logger w : grown logger w w.
Proof.
  repeat split; try reflexivity.
  - exists []. rewrite app_nil_r. reflexivity.
  - exists []. rewrite app_nil_r. split; [reflexivity|constructor].
Qed.

Lemma grown_trans logger a b c :
  grown logger a b -> grown logger b c -> grown logger a c.
Proof.
  intros (Hf & Hc & Hu & [evs Hx] & [recs [Hl Hr]])
         (Hf' & Hc' & Hu' & [evs' Hx'] & [recs' [Hl' Hr']]).
  split; [congruence|]. split; [congruence|]. split; [congruence|]. split.
  - exists (evs ++ evs'). rewrite Hx', Hx, app_assoc. reflexivity.
  - exists (recs ++ recs'). rewrite Hl', Hl, app_assoc. split; [reflexivity|].
    apply Forall_app. split; assumption.
Qed.

Lemma grown_emit logger w evs : grown logger w (set_xf (xf w ++ evs) w).
Proof.
  repeat split; try reflexivity.
  - exists evs. reflexivity.
  - exists []. cbn. rewrite app_nil_r. split; [reflexivity|constructor].
Qed.

Lemma grown_say logger w lv m :
  grown logger w (set_log (log w ++ tell logger lv m) w).
Proof.
  repeat split; try reflexivity.
  - exists []. cbn. rewrite app_nil_r. reflexivity.
  - exists (tell logger lv m). split; [reflexivity|].
    destruct logger; repeat constructor.
Qed.

Lemma entity_call_grown
    (xf_refuses : list xml_event -> xml_event -> option exn)
    (cfg_namespaces : option (list (string * string)))
    (cfg_role_template cfg_datagroup_template : template)
    (cfg_fixed_resources : list (string * string)) (uuid4 : nat -> string)
    (data : Row) (folder_uid : string) (logger : option Logger) (w : world) :
  grown logger (started data logger w)
    (add_role_structure xf_refuses cfg_namespaces cfg_role_template
       cfg_datagroup_template cfg_fixed_resources uuid4
       data folder_uid logger w).2.
Proof.
  apply (add_role_structure_after_start (grown logger)
           (grown_refl logger) (grown_trans logger) logger
           (grown_emit logger) (grown_say logger) xf_refuses).
Qed.

(** X13.  Whatever its outcome, one call for a row draws exactly four
    identifiers, leaves the files and the clock alone, only adds to what the
    writer was told, and logs to the logger it was given and to no other, so
    nothing when it was given none. *)
Theorem entity_call_draws_four_identifiers
    (xf_refuses : list xml_event -> xml_event -> option exn)
    (cfg_namespaces : option (list (string * string)))
    (cfg_role_template cfg_datagroup_template : template)
    (cfg_fixed_resources : list (string * string)) (uuid4 : nat -> string)
    (data : Row) (folder_uid : string) (logger : option Logger) (w : world) :
  let w' := (add_role_structure xf_refuses cfg_namespaces cfg_role_template
               cfg_datagroup_template cfg_fixed_resources uuid4
               data folder_uid logger w).2 in
  uids w' = 4 + uids w
  /\ fs w' = fs w /\ clock w' = clock w
  /\ (exists evs, xf w' = xf w ++ evs)
  /\ (exists recs, log w' = log w ++ recs
                   /\ Forall (fun r => logger = Some (rec_logger r)) recs)
  /\ (logger = None -> log w' = log w).
Proof.
  cbv zeta.
  pose proof (entity_call_grown xf_refuses
                cfg_namespaces cfg_role_template cfg_datagroup_template
                cfg_fixed_resources uuid4 data folder_uid logger w)
    as (Hf & Hc & Hu & [evs Hx] & [recs [Hl Hr]]).
  cbn [started fs clock uids xf log set_uids set_log] in *.
  assert (Hstart : Forall (fun r => logger = Some (rec_logger r))
                          (start_records data logger)).
  { unfold start_records. destruct logger; repeat constructor. }
  split; [exact Hu|]. split; [exact Hf|]. split; [exact Hc|].
  split; [exists evs; exact Hx|]. split.
  - exists (start_records data logger ++ recs). rewrite Hl, app_assoc.
    split; [reflexivity|]. apply Forall_app. split; assumption.
  - intros ->. rewrite Hl. cbn [start_records]. rewrite app_nil_r.
    destruct recs as [|r recs]; [apply app_nil_r|].
    inversion Hr; subst. discriminate.
Qed.

(** ** Name templates *)

(** X14.  Formatting a template made of text and bare field names succeeds
    exactly when each of its placeholders is a name, neither empty nor a
    number, that the row has as a key.  When it fails it is at the first
    placeholder, left to right, that cannot be filled: with [IndexError]
    for an empty one or a number up to the largest index, with
    [ValueError] for a number beyond it, with the [KeyError] of its name
    for a name the row lacks. *)
Theorem format_fails_at_first_unfilled_field (t : template) (data : Row) :
  plain t = true ->
  let filled := fun name =>
    all_chars is_digit name = false /\ dict_get data name <> None in
  match format t data with
  | Ok _ => Forall filled (fields_of t)
  | Raise e =>
      exists pre name post,
        fields_of t = pre ++ name :: post
        /\ Forall filled pre
        /\ ((all_chars is_digit name = true
             /\ (decimal 0 name <= maxsize)%Z /\ e = IndexError)
            \/ (all_chars is_digit name = true
                /\ (maxsize < decimal 0 name)%Z /\ e = ValueError)
            \/ (all_chars is_digit name = false
                /\ dict_get data name = None /\ e = KeyError name))
  end.
Proof.
  intros Hplain. cbv zeta.
  induction t as [|[text|name|name finish|] t IH]; cbn [format fields_of];
    try discriminate Hplain.
  - constructor.
  - specialize (IH Hplain).
    destruct (format t data) as [r|e]; cbn [bind]; exact IH.
  - specialize (IH Hplain). unfold get_arg.
    destruct (all_chars is_digit name) eqn:Hd.
    { destruct (maxsize <? decimal 0 name)%Z eqn:Hmax; cbn [bind].
      - exists [], name, (fields_of t). split; [reflexivity|].
        split; [constructor|]. right. left.
        split; [exact Hd|]. split; [apply Z.ltb_lt, Hmax|reflexivity].
      - exists [], name, (fields_of t). split; [reflexivity|].
        split; [constructor|]. left.
        split; [exact Hd|]. split; [apply Z.ltb_ge, Hmax|reflexivity]. }
    destruct (dict_get data name) as [val|] eqn:Hget; cbn [bind].
    2:{ exists [], name, (fields_of t). split; [reflexivity|].
        split; [constructor|]. right. right. repeat split; assumption. }
    assert (Hname : all_chars is_digit name = false /\ dict_get data name <> None).
    { split; [exact Hd|]. rewrite Hget. discriminate. }
    destruct (format t data) as [r|e]; cbn [bind].
    + constructor; assumption.
    + destruct IH as (pre & n & post & -> & Hpre & He).
      exists (name :: pre), n, post. split; [reflexivity|].
      split; [constructor; assumption|exact He].
Qed.

Lemma format_fails_at_first_unfilled_field_witness :
  format [Literal "Role "; Field "org_name"; Field "9223372036854775808"]
         [("org_name", Some "Finance")]
  = Raise ValueError
  /\ format [Field "9223372036854775807"] [] = Raise IndexError.
Proof.
  split.
  - pose proof (format_fails_at_first_unfilled_field
                  [Literal "Role "; Field "org_name";
                   Field "9223372036854775808"]
                  [("org_name", Some "Finance")] eq_refl) as H.
    cbv zeta in H.
    destruct (format _ _) as [r|e].
    + apply Forall_cons in H as [_ H]. apply Forall_cons in H as [[H _] _].
      discriminate H.
    + destruct H as (pre & name & post & Hf & Hpre & He).
      destruct pre as [|p pre].
      * injection Hf as <- _.
        destruct He as [(H & _)|[(H & _)|(_ & H & _)]]; discriminate H.
      * injection Hf as <- Hf. destruct pre as [|p pre].
        -- injection Hf as <- _.
           destruct He as [(_ & H & _)|[(_ & _ & ->)|(H & _)]].
           ++ vm_compute in H. contradiction H. reflexivity.
           ++ reflexivity.
           ++ discriminate H.
        -- injection Hf as _ Hf. destruct pre; discriminate Hf.
  - pose proof (format_fails_at_first_unfilled_field
                  [Field "9223372036854775807"] [] eq_refl) as H.
    cbv zeta in H.
    destruct (format _ _) as [r|e].
    + apply Forall_cons in H as [[H _] _]. discriminate H.
    + destruct H as (pre & name & post & Hf & Hpre & He).
      destruct pre as [|p pre].
      * injection Hf as <- _.
        destruct He as [(_ & _ & ->)|[(_ & H & _)|(H & _)]].
        -- reflexivity.
        -- vm_compute in H. discriminate H.
        -- discriminate H.
      * injection Hf as _ Hf. destruct pre; discriminate Hf.
Defined.

(** ** Indentation and content *)

Lemma solid_blank text : has_non_whitespace text = false -> solid text = None.
Proof. unfold solid. intros ->. reflexivity. Qed.

Lemma skeleton_set_tail n t :
  has_non_whitespace (tail_of n) = false ->
  has_non_whitespace (Some t) = false ->
  skeleton (set_tail n (Some t)) = skeleton n.
Proof.
  intros Hn Ht. destruct n as [tag attrib text children tail|content tail];
    cbn [set_tail skeleton tail_of] in *;
    rewrite (solid_blank _ Hn), (solid_blank _ Ht); reflexivity.
Qed.

Lemma skeleton_indent_tails (child : node -> node) here after cs :
  has_non_whitespace (Some here) = false ->
  has_non_whitespace (Some after) = false ->
  Forall (fun c => skeleton (child c) = skeleton c) cs ->
  map skeleton (indent_tails child here after cs) = map skeleton cs.
Proof.
  intros Hhere Hafter Hcs. induction Hcs as [|c cs Hc Hcs IH]; [reflexivity|].
  cbn [indent_tails map]. rewrite IH. f_equal.
  assert (Hc1 : skeleton (if has_child c then child c else c) = skeleton c)
    by (destruct (has_child c); [exact Hc|reflexivity]).
  generalize dependent (if has_child c then child c else c). intros c1 Hc1.
  destruct (has_non_whitespace (tail_of c1)) eqn:Hnw; [exact Hc1|].
  rewrite skeleton_set_tail; [exact Hc1|exact Hnw|].
  destruct (is_last cs); assumption.
Qed.

Lemma skeleton_indent_children space :
  all_chars isspace space = true ->
  forall n level, skeleton (indent_children space level n) = skeleton n.
Proof.
  intros Hs.
  induction n as [tag attrib text children tail IH|content tail]
    using node_ind_nested; intros level; [|reflexivity].
  cbn [indent_children skeleton]. f_equal.
  - destruct (has_non_whitespace text) eqn:Ht; [reflexivity|].
    rewrite (solid_blank text Ht).
    apply solid_blank, indentation_blank, Hs.
  - apply skeleton_indent_tails; try (apply indentation_blank, Hs).
    eapply Forall_impl; [exact IH|]. intros c Hc. apply Hc.
Qed.

(** X15.  Indenting with a blank unit changes blank text and blank tails and
    nothing else: tags, attributes, children, comments and every text that
    holds something are as before. *)
Theorem indent_changes_blank_text_only (root : node) (space : string) :
  all_chars isspace space = true ->
  skeleton (indent root space) = skeleton root.
Proof.
  intros Hs. unfold indent.
  destruct (has_child root); [apply skeleton_indent_children, Hs|reflexivity].
Qed.

Lemma indent_changes_blank_text_only_witness :
  skeleton (indent (Element "a" [("k", "v")] None
                      [Element "b" [] (Some "text") [] None;
                       Misc "note" (Some " ")] None) "  ")
  = Element "a" [("k", "v")] None
      [Element "b" [] (Some "text") [] None; Misc "note" None] None.
Proof.
  rewrite indent_changes_blank_text_only; reflexivity.
Defined.

(** ** Identities across rows *)

Lemma hash_prefix_inj a b : "#_" +:+ a = "#_" +:+ b -> a = b.
Proof. intros H. injection H as H. exact H. Qed.

(** X16.  With a source of identifiers that never repeats, two calls in a row
    that both return write four elements each, and the eight identities
    differ from one another. *)
Theorem successive_rows_get_distinct_identities
    (xf_refuses : list xml_event -> xml_event -> option exn)
    (cfg_namespaces : option (list (string * string)))
    (cfg_role_template cfg_datagroup_template : template)
    (cfg_fixed_resources : list (string * string)) (uuid4 : nat -> string)
    (data1 data2 : Row) (folder1 folder2 : string)
    (logger1 logger2 : option Logger) (w w1 w2 : world) :
  let run := add_role_structure xf_refuses cfg_namespaces cfg_role_template
               cfg_datagroup_template cfg_fixed_resources uuid4 in
  (forall i j, uuid4 i = uuid4 j -> i = j) ->
  run data1 folder1 logger1 w = (Ok tt, w1) ->
  run data2 folder2 logger2 w1 = (Ok tt, w2) ->
  exists rdf evs1 evs2 first second ids,
    dict_get (namespaces cfg_namespaces) "rdf" = Some rdf
    /\ xf w1 = xf w ++ evs1 /\ xf w2 = xf w1 ++ evs2
    /\ written_of evs1 = Some first /\ written_of evs2 = Some second
    /\ length first = 4 /\ length second = 4
    /\ map (about rdf) (first ++ second) = map Some ids
    /\ NoDup ids.
Proof.
  cbv zeta. intros Hinj Hrun1 Hrun2.
  destruct (run_ok_inv _ _ _ _ _ _ _ _ _ _ _ Hrun1)
    as (cim & rdf & rn1 & dn1 & f1 & Hcim & Hrdf & Hrn1 & Hdn1 & Hf1 & Hacc1).
  destruct (run_ok_inv _ _ _ _ _ _ _ _ _ _ _ Hrun2)
    as (cim' & rdf' & rn2 & dn2 & f2 & Hcim' & Hrdf' & Hrn2 & Hdn2 & Hf2 & Hacc2).
  assert (cim' = cim) by congruence. assert (rdf' = rdf) by congruence. subst.
  destruct (run_ok xf_refuses cfg_namespaces cfg_role_template
              cfg_datagroup_template
              cfg_fixed_resources uuid4 data1 folder1 logger1 w cim rdf rn1 dn1
              f1 Hcim Hrdf Hrn1 Hdn1 Hf1 Hacc1) as (w1' & Hr1 & Hx1 & _).
  destruct (run_ok xf_refuses cfg_namespaces cfg_role_template
              cfg_datagroup_template
              cfg_fixed_resources uuid4 data2 folder2 logger2 w1 cim rdf rn2 dn2
              f2 Hcim Hrdf Hrn2 Hdn2 Hf2 Hacc2) as (w2' & Hr2 & Hx2 & _).
  assert (w1' = w1) by congruence. assert (w2' = w2) by congruence. subst.
  assert (Hu : uids w1 = 4 + uids w).
  { pose proof (entity_call_grown xf_refuses cfg_namespaces cfg_role_template
                  cfg_datagroup_template cfg_fixed_resources uuid4
                  data1 folder1 logger1 w) as (_ & _ & Hu & _).
    rewrite Hrun1 in Hu. exact Hu. }
  rewrite Hu in Hx2.
  destruct (graph_of_row cim rdf cfg_fixed_resources uuid4 (uids w) folder1
              rn1 dn1 (cell data1 f1))
    as (r1 & p1 & d1 & o1 & Hw1 & _ & (Ha1 & Ha2 & Ha3 & Ha4) & _).
  destruct (graph_of_row cim rdf cfg_fixed_resources uuid4 (4 + uids w) folder2
              rn2 dn2 (cell data2 f2))
    as (r2 & p2 & d2 & o2 & Hw2 & _ & (Hb1 & Hb2 & Hb3 & Hb4) & _).
  exists rdf. do 2 eexists. exists [r1; p1; d1; o1], [r2; p2; d2; o2].
  exists (map (fun i => "#_" +:+ uuid4 i) (seq (uids w) 8)).
  split; [exact Hrdf|]. split; [exact Hx1|]. split; [exact Hx2|].
  split; [exact Hw1|]. split; [exact Hw2|].
  split; [reflexivity|]. split; [reflexivity|]. split.
  - cbn [app map seq]. rewrite Ha1, Ha2, Ha3, Ha4, Hb1, Hb2, Hb3, Hb4.
    reflexivity.
  - apply NoDup_fmap_2_strong; [|apply NoDup_seq].
    intros i j _ _ H. apply Hinj, hash_prefix_inj, H.
Qed.

Lemma length_repeat_one n : String.length (repeat_str "1" n) = n.
Proof.
  induction n as [|n IH]; [reflexivity|].
  change (String.length (String "1" (repeat_str "1" n)) = S n).
  cbn [String.length]. rewrite IH. reflexivity.
Qed.

Lemma uuid4_fresh_inj i j : Samples.uuid4_fresh i = Samples.uuid4_fresh j -> i = j.
Proof.
  intros H. apply (f_equal String.length) in H. unfold Samples.uuid4_fresh in H.
  change (S (String.length (repeat_str "1" i))
          = S (String.length (repeat_str "1" j))) in H.
  rewrite !length_repeat_one in H. lia.
Qed.

Lemma successive_rows_get_distinct_identities_witness :
  let run := add_role_structure Samples.xf_refuses Samples.namespaces Samples.role_template
               Samples.datagroup_template [] Samples.uuid4_fresh in
  let row1 := [("org_name", Some "Finance"); ("user_uid", Some "u-1")] in
  let row2 := [("org_name", Some "Sales"); ("user_uid", Some "u-2")] in
  let w1 := (run row1 "folder" None (Samples.in_rdf Samples.w0)).2 in
  let w2 := (run row2 "folder" None w1).2 in
  exists evs1 evs2 first second ids,
    xf w1 = xf (Samples.in_rdf Samples.w0) ++ evs1 /\ xf w2 = xf w1 ++ evs2
    /\ written_of evs1 = Some first /\ written_of evs2 = Some second
    /\ map (about "http://www.w3.org/1999/02/22-rdf-syntax-ns#") (first ++ second)
       = map Some ids
    /\ NoDup ids.
Proof.
  cbv zeta.
  match goal with
  | |- context [xf (?m ?r2 ?f ?l (?m ?r1 ?f ?l ?w).2).2] =>
      assert (H1 : m r1 f l w = (Ok tt, (m r1 f l w).2))
        by (vm_compute; reflexivity);
      assert (H2 : m r2 f l (m r1 f l w).2
                   = (Ok tt, (m r2 f l (m r1 f l w).2).2))
        by (vm_compute; reflexivity);
      destruct (successive_rows_get_distinct_identities _ _ _ _ _ _ _ _ _ _ _
                  _ _ _ _ uuid4_fresh_inj H1 H2)
        as (rdf & evs1 & evs2 & first & second & ids & Hrdf & Hx1 & Hx2
            & Hw1 & Hw2 & _ & _ & Hids & Hnd)
  end.
  injection Hrdf as <-.
  exists evs1, evs2, first, second, ids.
  split; [exact Hx1|]. split; [exact Hx2|]. split; [exact Hw1|].
  split; [exact Hw2|]. split; [exact Hids|exact Hnd].
Defined.

(** ** The model header and the document around it *)

Section HeaderFacts.
Variable xf_refuses : list xml_event -> xml_event -> option exn.
Variable cfg_namespaces : option (list (string * string)).
Variable cfg_model_version : option string.
Variable cfg_model_name : option string.
Variable cfg_me_namespace : option string.
Variable uuid4 : nat -> string.
Variable now : nat -> string.

Local Abbreviation header :=
  (add_full_model xf_refuses cfg_namespaces cfg_model_version cfg_model_name
     cfg_me_namespace uuid4 now).

(** X17.  With the [rdf] namespace configured and a writer that takes what
    it is asked for, the header is written and the identifier drawn for it
    returned: one [FullModel] element, about that identifier, holding the
    reading of the clock followed by [Z], the version and the name.  A
    version or name that is absent or empty falls back to the configured
    one, and that to [1.0.0] and [GeneratedModel]; the name goes under the
    [me] namespace when one is configured and is not empty, else under
    [md], which may itself be missing.  When the writer refuses one of the
    requests, the header raises. *)
Theorem model_header_is_one_element
    (model_version model_name : option string) (w : world) (rdf : string) :
  dict_get (namespaces cfg_namespaces) "rdf" = Some rdf ->
  let uid := uuid4 (uids w) in
  let md := ns_get cfg_namespaces "md" in
  let version := or_str model_version (or_str cfg_model_version "1.0.0") in
  let name := or_str model_name (or_str cfg_model_name "GeneratedModel") in
  let name_tag :=
    match cfg_me_namespace with
    | Some (String c me) => clark (String c me) "Model.name"
    | _ => clark md "Model.name"
    end in
  let name_nsmap :=
    match cfg_me_namespace with
    | Some (String c me) => [("me", String c me)]
    | _ => []
    end in
  let evs := header_events md rdf uid (now (clock w) +:+ "Z") version
               name_tag name_nsmap name in
  (accepted xf_refuses (xf w) evs = true ->
   exists w',
     header model_version model_name w = (Ok uid, w')
     /\ xf w' = xf w ++ evs
     /\ written_of evs
        = Some [WElement (clark md "FullModel")
                  [(clark rdf "about", "#_" +:+ uid)] []
                  [WElement (clark md "Model.created") [] []
                     [WText (now (clock w) +:+ "Z")];
                   WElement (clark md "Model.version") [] [] [WText version];
                   WElement name_tag [] name_nsmap [WText name]]]
     /\ uids w' = S (uids w) /\ clock w' = S (clock w)
     /\ fs w' = fs w /\ log w' = log w)
  /\ (accepted xf_refuses (xf w) evs = false ->
      exists e w', header model_version model_name w = (Raise e, w')).
Proof.
  intros Hrdf. cbv zeta. unfold add_full_model, gen_uid, ns, World.mbind.
  rewrite Hrdf.
  unfold ret, element, request, emit, finally, World.mbind, write, request, emit.
  unfold default_model_version, default_model_name.
  destruct w as [f u c lg x].
  cbn [uids clock xf fs log set_uids set_xf set_clock].
  unfold header_events.
  destruct cfg_me_namespace as [[|ch me]|]; cbn [is_empty accepted];
    cbn [uids clock xf fs log set_uids set_xf set_clock];
    (split;
     repeat match goal with
            | |- context [xf_refuses ?p ?ev] =>
                destruct (xf_refuses p ev) eqn:?;
                cbn [uids clock xf fs log set_uids set_xf set_clock]
            end;
     intros Hacc; try discriminate Hacc;
     [eexists; (split; [reflexivity|]);
      (split; [rewrite <- !app_assoc; reflexivity|]);
      (split; [reflexivity|]); repeat split
     |do 2 eexists; reflexivity ..]).
Qed.

(** Without the [rdf] namespace the header fails with the [KeyError] of
    [rdf] once its identifier is drawn, and nothing is written. *)
Lemma model_header_needs_rdf model_version model_name w :
  dict_get (namespaces cfg_namespaces) "rdf" = None ->
  header model_version model_name w
  = (Raise (KeyError "rdf"), set_uids (S (uids w)) w).
Proof.
  intros Hrdf. unfold add_full_model, gen_uid, ns, World.mbind.
  rewrite Hrdf. reflexivity.
Qed.
End HeaderFacts.

Lemma model_header_is_one_element_witness :
  exists w' evs,
    add_full_model Samples.xf_refuses Samples.namespaces None None (Some "http://me") Samples.uuid4
      Samples.now (Some "") None Samples.w0
    = (Ok "00000000-0000-4000-8000-000000000000", w')
    /\ xf w' = evs
    /\ written_of evs
       = Some [WElement "{http://iec.ch/TC57/61970-552/ModelDescription/1#}FullModel"
                 [("{http://www.w3.org/1999/02/22-rdf-syntax-ns#}about",
                   "#_00000000-0000-4000-8000-000000000000")] []
                 [WElement "{http://iec.ch/TC57/61970-552/ModelDescription/1#}Model.created"
                    [] [] [WText "2025-01-01T00:00:00Z"];
                  WElement "{http://iec.ch/TC57/61970-552/ModelDescription/1#}Model.version"
                    [] [] [WText "1.0.0"];
                  WElement "{http://me}Model.name" [] [("me", "http://me")]
                    [WText "GeneratedModel"]]].
Proof.
  destruct (proj1 (model_header_is_one_element Samples.xf_refuses
              Samples.namespaces None None
              (Some "http://me") Samples.uuid4 Samples.now (Some "") None
              Samples.w0 "http://www.w3.org/1999/02/22-rdf-syntax-ns#" eq_refl)
              eq_refl)
    as (w' & Hrun & Hx & Hw & _).
  exists w'. eexists. split; [exact Hrun|]. split; [exact Hx|]. exact Hw.
Defined.

(** ** Names of files *)

Lemma lower_app s t : lower (s +:+ t) = lower s +:+ lower t.
Proof.
  induction s as [|c s IH]; [reflexivity|].
  change (lower (String c (s +:+ t)) = String (lower_char c) (lower s +:+ lower t)).
  cbn [lower]. rewrite IH. reflexivity.
Qed.

Lemma length_append s t :
  String.length (s +:+ t) = String.length s + String.length t.
Proof.
  induction s as [|c s IH]; [reflexivity|].
  change (String.length (String c (s +:+ t)) = S (String.length s + String.length t)).
  cbn [String.length]. rewrite IH. reflexivity.
Qed.

Lemma endswith_csv_xml t : endswith ".csv" (t +:+ ".xml") = false.
Proof.
  induction t as [|c t IH]; [vm_compute; reflexivity|].
  change (String c t +:+ ".xml") with (String c (t +:+ ".xml")).
  cbn [endswith]. rewrite IH, orb_false_r. apply String.eqb_neq. intros H.
  apply (f_equal String.length) in H. cbn [String.length] in H.
  rewrite length_append in H. cbn [String.length] in H. lia.
Qed.

(** [s.endswith(suffix)] says that [s] is some text followed by the
    suffix. *)
Lemma endswith_spec suffix s :
  endswith suffix s = true <-> exists t, s = t +:+ suffix.
Proof.
  split.
  - induction s as [|c s IH]; cbn [endswith].
    + rewrite orb_false_r. intros H. apply String.eqb_eq in H. subst.
      exists EmptyString. reflexivity.
    + intros H. apply orb_true_iff in H as [H|H].
      * apply String.eqb_eq in H. subst. exists EmptyString. reflexivity.
      * destruct (IH H) as [t ->]. exists (String c t). reflexivity.
  - intros [t ->]. induction t as [|c t IH].
    + change (EmptyString +:+ suffix) with suffix.
      destruct suffix; cbn [endswith]; rewrite String.eqb_refl; reflexivity.
    + change (String c t +:+ suffix) with (String c (t +:+ suffix)).
      cbn [endswith]. rewrite IH. apply orb_true_r.
Qed.

(** A name ending in [.csv], in any case, is not a name ending in [.xml]. *)
Lemma csv_name_is_no_xml_name name s :
  endswith ".csv" (lower name) = true -> name <> s +:+ ".xml".
Proof.
  intros H ->. rewrite lower_app in H.
  change (lower ".xml") with ".xml" in H. rewrite endswith_csv_xml in H.
  discriminate H.
Qed.

(** ** What processing a file leaves alone *)

Lemma same_files_stable : stable same_files.
Proof.
  split; try (intros; reflexivity). unfold same_files. intros a b c. congruence.
Qed.

Lemma only_files_stable paths : stable (only_files paths).
Proof.
  split; try (intros; intros path _; reflexivity).
  intros a b c H1 H2 path Hp. rewrite (H2 path Hp). apply H1, Hp.
Qed.

Lemma appended_stable : stable appended.
Proof.
  split; try (intros; exists []; cbn; rewrite app_nil_r; reflexivity).
  - intros a b c [evs H1] [evs' H2]. exists (evs ++ evs').
    rewrite H2, H1, app_assoc. reflexivity.
  - intros w evs. exists evs. reflexivity.
Qed.

Lemma only_files_insert (paths : string -> Prop) path content w :
  paths path -> only_files paths w (set_fs (<[path := content]> (fs w)) w).
Proof.
  intros Hp q Hq. cbn [fs set_fs]. apply lookup_insert_ne. intros ->. contradiction.
Qed.

Section ProcessorMore.
Variable xf_refuses : list xml_event -> xml_event -> option exn.
Variable decode_strict : string -> list Byte.byte -> result string.
Variable decode_replace : string -> list Byte.byte -> string.
Variable csv_reader_lines : string -> string -> list (list string).
Variable csv_reader_error : string -> string -> option exn.
Variable uuid4 : nat -> string.
Variable now : nat -> string.
Variable writable : string -> bool.
Variable render : list xml_event -> list Byte.byte.
Variable xml_parse : list Byte.byte -> option ElementTree.
Variable xml_write : ElementTree -> list Byte.byte.
Variable chardet_detect : list Byte.byte -> option string * Q.
Variable Path_join : string -> string -> string.
Variable cfg_default_delimiter : string.
Variable cfg_namespaces : option (list (string * string)).
Variable cfg_model_version : option string.
Variable cfg_model_name : option string.
Variable cfg_me_namespace : option string.
Variable cfg_role_template : template.
Variable cfg_datagroup_template : template.
Variable cfg_fixed_resources : list (string * string).
Variable cfg_required_fields : list string.
Variable cfg_processor_model_version : string.
Variable cfg_processor_model_name : string.

Local Abbreviation process :=
  (process_csv_file_stream xf_refuses decode_strict decode_replace csv_reader_lines csv_reader_error uuid4
     now writable render xml_parse xml_write chardet_detect
     cfg_default_delimiter cfg_namespaces cfg_model_version cfg_model_name
     cfg_me_namespace cfg_role_template cfg_datagroup_template
     cfg_fixed_resources cfg_required_fields cfg_processor_model_version
     cfg_processor_model_name).
Local Abbreviation content :=
  (generate_content xf_refuses decode_strict decode_replace csv_reader_lines csv_reader_error uuid4 now
     cfg_default_delimiter cfg_namespaces cfg_model_version cfg_model_name
     cfg_me_namespace cfg_role_template cfg_datagroup_template
     cfg_fixed_resources cfg_required_fields cfg_processor_model_version
     cfg_processor_model_name).
Local Abbreviation conversion :=
  (convert xf_refuses decode_strict decode_replace csv_reader_lines csv_reader_error uuid4
     now writable render xml_parse xml_write
     cfg_default_delimiter cfg_namespaces cfg_model_version cfg_model_name
     cfg_me_namespace cfg_role_template cfg_datagroup_template
     cfg_fixed_resources cfg_required_fields cfg_processor_model_version
     cfg_processor_model_name).
Local Abbreviation files :=
  (process_files xf_refuses decode_strict decode_replace csv_reader_lines csv_reader_error uuid4
     now writable render xml_parse xml_write chardet_detect Path_join
     cfg_default_delimiter cfg_namespaces cfg_model_version cfg_model_name
     cfg_me_namespace cfg_role_template cfg_datagroup_template
     cfg_fixed_resources cfg_required_fields cfg_processor_model_version
     cfg_processor_model_name).
Local Abbreviation batch :=
  (process_file_list xf_refuses decode_strict decode_replace csv_reader_lines csv_reader_error uuid4
     now writable render xml_parse xml_write chardet_detect Path_join
     cfg_default_delimiter cfg_namespaces cfg_model_version cfg_model_name
     cfg_me_namespace cfg_role_template cfg_datagroup_template
     cfg_fixed_resources cfg_required_fields cfg_processor_model_version
     cfg_processor_model_name).
Local Abbreviation entity :=
  (add_role_structure xf_refuses cfg_namespaces cfg_role_template cfg_datagroup_template
     cfg_fixed_resources uuid4).
Local Abbreviation header :=
  (add_full_model xf_refuses cfg_namespaces cfg_model_version cfg_model_name
     cfg_me_namespace uuid4 now).

(** The steps that do not touch the files keep every stable relation. *)
Section Flow.
Variable R : world -> world -> Prop.
Hypothesis HR : stable R.

Local Abbreviation keeps := (preserves R).

Lemma keeps_mbind {A B} (m : M A) (k : A -> M B) :
  keeps m -> (forall a, keeps (k a)) -> keeps (World.mbind m k).
Proof. apply preserves_mbind, HR. Qed.

Lemma keeps_say logger lv m : keeps (say logger lv m).
Proof. intros w. apply HR. Qed.

Lemma keeps_say_all rs : keeps (say_all rs).
Proof. intros w. apply HR. Qed.

Lemma keeps_ret {A} (a : A) : keeps (ret a).
Proof. intros w. apply HR. Qed.

Lemma keeps_element {A} refuses tag attrib nsmap (body : M A) :
  keeps body -> keeps (element refuses tag attrib nsmap body).
Proof. apply preserves_element; apply HR. Qed.

Lemma keeps_write refuses text : keeps (write refuses text).
Proof. apply preserves_write; apply HR. Qed.

Lemma keeps_entity data folder_uid logger : keeps (entity data folder_uid logger).
Proof.
  intros w. apply (stable_trans R HR w (started data logger w)).
  - unfold started. eapply (stable_trans R HR); [apply (stable_log R HR)|].
    apply (stable_uids R HR).
  - apply add_role_structure_after_start; try apply HR.
    intros w1 lv m. apply HR.
Qed.

Lemma keeps_header model_version model_name :
  keeps (header model_version model_name).
Proof.
  unfold add_full_model.
  apply keeps_mbind; [intros w; apply (stable_uids R HR)|]. intros model_uid.
  apply keeps_mbind; [apply preserves_ns, HR|]. intros rdf.
  apply keeps_mbind; [|intros _; apply keeps_ret].
  apply keeps_element.
  apply keeps_mbind; [intros w; apply (stable_clock R HR)|]. intros time_str.
  apply keeps_mbind; [apply keeps_element, keeps_write|]. intros _.
  apply keeps_mbind; [apply keeps_element, keeps_write|]. intros _.
  destruct cfg_me_namespace as [me|]; [destruct (is_empty me)|];
    apply keeps_element, keeps_write.
Qed.

Lemma keeps_open_rows csv_file_path encoding required logger :
  keeps (open_rows decode_strict decode_replace csv_reader_lines csv_reader_error
           cfg_default_delimiter csv_file_path encoding required logger).
Proof.
  intros w. unfold open_rows. destruct (fs w !! csv_file_path); apply HR.
Qed.

Lemma keeps_for_rows {S} evs (body : nat -> Row -> S -> M S) s :
  (forall n row s, keeps (body n row s)) -> keeps (for_rows evs body s).
Proof.
  intros Hbody. revert s. induction evs as [|[r|n row|e] evs IH]; intros s;
    cbn [for_rows].
  - apply keeps_ret.
  - apply keeps_mbind; [apply keeps_say_all|]. intros _. apply IH.
  - apply keeps_mbind; [apply Hbody|]. intros s'. apply IH.
  - intros w. apply HR.
Qed.

Lemma keeps_content folder_uid csv_file_path encoding logger :
  keeps (content folder_uid csv_file_path encoding logger).
Proof.
  unfold generate_content.
  apply keeps_mbind; [apply keeps_say|]. intros _.
  apply keeps_mbind; [apply keeps_header|]. intros _.
  apply keeps_mbind; [apply keeps_open_rows|]. intros evs.
  apply keeps_mbind; [|intros n; apply keeps_say].
  apply keeps_for_rows. intros n row s.
  apply keeps_mbind; [apply keeps_say|]. intros _.
  apply keeps_mbind; [apply keeps_entity|]. intros _. apply keeps_ret.
Qed.

Lemma keeps_detect csv_file_path logger :
  keeps (detect chardet_detect csv_file_path logger).
Proof.
  unfold detect. apply keeps_mbind.
  - intros w. unfold read_encoding.
    destruct (fs w !! csv_file_path) as [raw|]; [|apply HR].
    destruct (chardet_detect raw) as [[enc|] q]; [|apply HR].
    destruct (negb _); apply HR.
  - intros enc. apply keeps_mbind; [apply keeps_say|]. intros _. apply keeps_ret.
Qed.
End Flow.

Section OnePath.
Variable paths : string -> Prop.

Local Abbreviation within := (preserves (only_files paths)).
Local Abbreviation Hpaths := (only_files_stable paths).

Lemma within_generate_xml {A} output_file (body : M A) :
  paths output_file -> within body ->
  within (generate_xml xf_refuses cfg_namespaces writable render output_file body).
Proof.
  intros Hp Hbody w. unfold generate_xml.
  destruct (negb (writable output_file)); [apply Hpaths|].
  match goal with
  | |- only_files _ _ (finally ?m ?fin ?w0).2 =>
      apply (stable_trans _ Hpaths w w0);
        [|apply (preserves_finally _ (stable_trans _ Hpaths) m fin)]
  end.
  - intros q Hq. cbn [fs set_fs set_xf]. apply lookup_insert_ne.
    intros ->. contradiction.
  - apply (keeps_mbind _ Hpaths); [intros w1; apply Hpaths|]. intros _.
    apply (keeps_mbind _ Hpaths); [apply preserves_ns, Hpaths|]. intros rdf.
    apply (keeps_element _ Hpaths), Hbody.
  - intros w1. apply only_files_insert, Hp.
Qed.

Lemma within_format_xml_pretty file_path :
  paths file_path -> within (format_xml_pretty xml_parse xml_write file_path).
Proof.
  intros Hp w. unfold format_xml_pretty.
  destruct (fs w !! file_path) as [raw|]; [|apply Hpaths].
  destruct (pretty_bytes xml_parse xml_write raw); [|apply Hpaths].
  apply only_files_insert, Hp.
Qed.

Lemma within_conversion folder_uid csv_file_path xml_file_path encoding logger :
  paths xml_file_path ->
  within (conversion folder_uid csv_file_path xml_file_path encoding logger).
Proof.
  intros Hp. unfold convert.
  apply (keeps_mbind _ Hpaths); [apply keeps_say, Hpaths|]. intros _.
  apply (keeps_mbind _ Hpaths);
    [apply within_generate_xml; [exact Hp|apply keeps_content, Hpaths]|].
  intros _.
  apply (keeps_mbind _ Hpaths); [apply keeps_say, Hpaths|]. intros _.
  apply (keeps_mbind _ Hpaths); [apply within_format_xml_pretty, Hp|]. intros _.
  apply (keeps_mbind _ Hpaths); [apply keeps_say, Hpaths|]. intros _.
  apply keeps_ret, Hpaths.
Qed.

Lemma within_process folder_uid csv_file_path xml_file_path logger :
  paths xml_file_path ->
  within (process folder_uid csv_file_path xml_file_path logger).
Proof.
  intros Hp. unfold process_csv_file_stream.
  apply (keeps_mbind _ Hpaths); [apply keeps_say, Hpaths|]. intros _.
  apply (keeps_mbind _ Hpaths).
  - apply (preserves_try_except _ (stable_trans _ Hpaths)).
    + apply (keeps_mbind _ Hpaths); [apply keeps_detect, Hpaths|].
      intros enc. apply keeps_ret, Hpaths.
    + intros e. apply (keeps_mbind _ Hpaths); [apply keeps_say, Hpaths|].
      intros _. apply keeps_ret, Hpaths.
  - intros [encoding|]; [|apply keeps_ret, Hpaths].
    apply (preserves_try_except _ (stable_trans _ Hpaths)).
    + apply within_conversion, Hp.
    + intros e. apply (keeps_mbind _ Hpaths); [apply keeps_say, Hpaths|].
      intros _. apply keeps_ret, Hpaths.
Qed.

Lemma within_files folder_uid csv_dir logger_factory file_list results :
  (forall f, f ∈ file_list -> paths (Path_join csv_dir (stem f +:+ ".xml"))) ->
  within (files folder_uid csv_dir logger_factory file_list results).
Proof.
  revert results. induction file_list as [|f rest IH]; intros results Hp;
    cbn [process_files].
  - apply keeps_ret, Hpaths.
  - apply (keeps_mbind _ Hpaths); [apply keeps_say, Hpaths|]. intros _.
    apply (keeps_mbind _ Hpaths);
      [apply within_process, Hp, list_elem_of_here|]. intros success.
    apply (keeps_mbind _ Hpaths); [apply keeps_say, Hpaths|]. intros _.
    apply IH. intros g Hg. apply Hp, list_elem_of_further, Hg.
Qed.
End OnePath.

(** X18.  Processing one file never raises, and whatever it returns no file
    other than the one at the output path has been created, changed or
    removed. *)
Theorem processing_touches_only_its_output
    (folder_uid csv_file_path xml_file_path : string) (logger : Logger)
    (w : world) :
  let out := process folder_uid csv_file_path xml_file_path logger w in
  (exists success, out.1 = Ok success)
  /\ forall path, path <> xml_file_path -> fs out.2 !! path = fs w !! path.
Proof.
  cbv zeta. split.
  - destruct (process_returns_verdict xf_refuses decode_strict decode_replace
                csv_reader_lines csv_reader_error uuid4 now writable render xml_parse xml_write
                chardet_detect cfg_default_delimiter cfg_namespaces
                cfg_model_version cfg_model_name cfg_me_namespace
                cfg_role_template cfg_datagroup_template cfg_fixed_resources
                cfg_required_fields cfg_processor_model_version
                cfg_processor_model_name folder_uid csv_file_path xml_file_path
                logger w) as [w' ->].
    eexists. reflexivity.
  - intros path Hne.
    apply (within_process (fun p => p = xml_file_path) folder_uid csv_file_path
             xml_file_path logger eq_refl w path Hne).
Qed.

(** X19.  A batch changes no file but the outputs of the names it was given: a
    path that is not the directory joined with the stem of one of the names
    and [.xml] holds after the batch what it held before. *)
Theorem batch_touches_only_its_outputs
    (folder_uid csv_dir : string) (file_list : list string)
    (logger_factory : string -> Logger) (w : world) (path : string) :
  (forall f, f ∈ file_list -> path <> Path_join csv_dir (stem f +:+ ".xml")) ->
  fs (batch folder_uid csv_dir file_list logger_factory w).2 !! path
  = fs w !! path.
Proof.
  intros Hpath. unfold process_file_list.
  apply (within_files
           (fun p => exists f, f ∈ file_list
                               /\ p = Path_join csv_dir (stem f +:+ ".xml"))).
  - intros f Hf. exists f. split; [exact Hf|reflexivity].
  - intros (f & Hf & ->). exact (Hpath f Hf eq_refl).
Qed.

(** X20.  A batch never changes a file whose path ends in [.csv], in any
    case: its inputs, and the ones it was told to leave out, hold after the
    batch what they held before.  Joining the directory with a name that
    ends in [.xml] is taken to give a path that ends in [.xml]. *)
Theorem batch_never_changes_a_csv_file
    (folder_uid csv_dir : string) (file_list : list string)
    (logger_factory : string -> Logger) (w : world) (path : string) :
  (forall s, endswith ".xml" (Path_join csv_dir (s +:+ ".xml")) = true) ->
  endswith ".csv" (lower path) = true ->
  fs (batch folder_uid csv_dir file_list logger_factory w).2 !! path
  = fs w !! path.
Proof.
  intros Hxml Hcsv. unfold process_file_list.
  apply (within_files
           (fun p => exists f, p = Path_join csv_dir (stem f +:+ ".xml"))).
  - intros f _. exists f. reflexivity.
  - intros [f Hf]. specialize (Hxml (stem f)). rewrite <- Hf in Hxml.
    apply endswith_spec in Hxml as [t ->].
    exact (csv_name_is_no_xml_name _ t Hcsv eq_refl).
Qed.

(** X21.  A file that cannot be read, or an output that cannot be opened, is
    reported and not raised: the result is [False], an error is logged, and
    no file is created or changed. *)
Theorem unopened_files_are_reported
    (folder_uid csv_file_path xml_file_path : string) (logger : Logger)
    (w : world) :
  let start := mkRecord logger INFO (FileStart csv_file_path xml_file_path) in
  (fs w !! csv_file_path = None ->
   process folder_uid csv_file_path xml_file_path logger w
   = (Ok false,
      set_log (log w ++ [start;
                         mkRecord logger ERROR
                           (EncodingFailed csv_file_path OSError)]) w))
  /\ (forall raw, fs w !! csv_file_path = Some raw ->
      writable xml_file_path = false ->
      exists encoding,
        process folder_uid csv_file_path xml_file_path logger w
        = (Ok false,
           set_log (log w ++ [start;
                              mkRecord logger DEBUG (EncodingDetected encoding);
                              mkRecord logger DEBUG XmlStart;
                              mkRecord logger ERROR
                                (XmlFailed xml_file_path OSError)]) w)).
Proof.
  cbv zeta. split.
  - intros Hcsv. unfold process_csv_file_stream, detect, read_encoding.
    cbv [World.mbind say tell try_except ret fst]. cbn [fs set_log log].
    rewrite Hcsv. cbn [set_log log]. rewrite <- app_assoc. reflexivity.
  - intros raw Hcsv Hout.
    unfold process_csv_file_stream, detect, read_encoding, convert, generate_xml.
    cbv [World.mbind say tell try_except ret fst]. cbn [fs set_log log].
    rewrite Hcsv.
    destruct (chardet_detect raw) as [[enc|] confidence].
    + destruct (negb (Qle_bool confidence_threshold confidence));
        eexists; cbn [set_log log fs]; rewrite Hout; cbn [negb set_log log];
        rewrite <- !app_assoc; reflexivity.
    + eexists. cbn [set_log log fs]. rewrite Hout. cbn [negb set_log log].
      rewrite <- !app_assoc. reflexivity.
Qed.

(** X22.  What a conversion produces does not depend on what the output file
    held before: the file is emptied before anything is read.  So when the
    output path is also the input path, the rows of the input are lost: the
    conversion is that of an empty input. *)
Theorem conversion_ignores_previous_output
    (folder_uid csv_file_path xml_file_path encoding : string)
    (logger : Logger) (w : world) (old new : list Byte.byte) :
  writable xml_file_path = true ->
  conversion folder_uid csv_file_path xml_file_path encoding logger
    (set_fs (<[xml_file_path := old]> (fs w)) w)
  = conversion folder_uid csv_file_path xml_file_path encoding logger
      (set_fs (<[xml_file_path := new]> (fs w)) w).
Proof.
  intros Hout. unfold convert, generate_xml.
  cbv [World.mbind say tell]. cbn [fs set_fs set_log set_xf log uids clock xf].
  rewrite Hout. cbn [negb]. rewrite !insert_insert_eq. reflexivity.
Qed.

Lemma header_draws_one model_version model_name w :
  uids (add_full_model xf_refuses cfg_namespaces cfg_model_version cfg_model_name
          cfg_me_namespace uuid4 now model_version model_name w).2
  = S (uids w).
Proof.
  unfold add_full_model, gen_uid, ns, World.mbind.
  destruct (dict_get (namespaces cfg_namespaces) "rdf") as [rdf|];
    [|reflexivity].
  unfold ret, element, request, emit, finally, World.mbind, write, request,
    emit.
  destruct w as [f u c lg x].
  destruct cfg_me_namespace as [[|ch me]|]; cbn [is_empty];
    cbn [uids clock xf fs log set_uids set_xf set_clock];
    repeat match goal with
           | |- context [xf_refuses ?p ?ev] =>
               destruct (xf_refuses p ev);
               cbn [uids clock xf fs log set_uids set_xf set_clock]
           end;
    reflexivity.
Qed.

Lemma entity_draws_four data folder_uid logger w :
  uids (entity data folder_uid logger w).2 = 4 + uids w.
Proof.
  pose proof (entity_call_grown xf_refuses cfg_namespaces cfg_role_template
                cfg_datagroup_template cfg_fixed_resources uuid4
                data folder_uid logger w) as (_ & _ & Hu & _).
  exact Hu.
Qed.

Lemma for_rows_counts folder_uid (logger : Logger) evs n w n' w' :
  for_rows evs
    (fun line_num row roles_added =>
       World.mbind (say (Some logger) INFO (RowProcessing line_num (dict_keys row)))
         (fun _ => World.mbind (entity row folder_uid (Some logger))
                     (fun _ => ret (S roles_added))))
    n w = (Ok n', w') ->
  n' = n + length (yields evs) /\ uids w' = uids w + 4 * length (yields evs).
Proof.
  revert n w n' w'.
  induction evs as [|[r|line row|e] evs IH]; intros n w n' w'; cbn [for_rows];
    [| | |discriminate].
  - intros [= <- <-]. cbn. lia.
  - intros H. apply mbind_ok_inv in H as (u & w1 & Hs & H).
    injection Hs as Hw1. subst w1. apply IH in H as [Hn Hu].
    cbn [uids set_log] in Hu.
    change (yields (Logged r :: evs)) with (yields evs). split; assumption.
  - intros H. apply mbind_ok_inv in H as (s' & w1 & Hbody & H).
    apply mbind_ok_inv in Hbody as (u & w2 & Hs & Hbody).
    injection Hs as Hw2. subst w2.
    apply mbind_ok_inv in Hbody as (u' & w3 & He & Hr).
    injection Hr as Hs' Hw3. subst s' w3.
    apply IH in H as [Hn Hu].
    apply (f_equal (fun o => uids o.2)) in He. cbn beta in He.
    rewrite entity_draws_four in He. cbn [snd uids set_log] in He.
    rewrite yields_yield. cbn [length]. lia.
Qed.

(** X23.  When the content of a document is generated to the end, every row the
    reader yielded has been made a role: the count logged last is the number
    of rows yielded from the file as it stood, and one identifier for the
    header and four for each row have been drawn. *)
Theorem every_yielded_row_becomes_a_role
    (folder_uid csv_file_path encoding : string) (logger : Logger)
    (w w' : world) :
  content folder_uid csv_file_path encoding logger w = (Ok tt, w') ->
  exists raw,
    fs w !! csv_file_path = Some raw
    /\ let rows :=
         yields (iter_csv_rows decode_strict decode_replace csv_reader_lines csv_reader_error
                   cfg_default_delimiter csv_file_path raw encoding
                   cfg_required_fields (Some logger) None) in
       List.last (log w') (mkRecord logger INFO AddingFullModel)
       = mkRecord logger INFO (RolesAdded (length rows))
       /\ uids w' = 1 + uids w + 4 * length rows.
Proof.
  unfold generate_content. intros H.
  apply mbind_ok_inv in H as (u & w1 & Hs & H). injection Hs as Hw1. subst w1.
  apply mbind_ok_inv in H as (uid & w2 & Hh & H).
  apply mbind_ok_inv in H as (evs & w3 & Ho & H).
  apply mbind_ok_inv in H as (n & w4 & Hf & H).
  injection H as Hw'. subst w'.
  pose proof (f_equal (fun o => uids o.2) Hh) as Hu2.
  pose proof (f_equal (fun o => fs o.2) Hh) as Hf2.
  cbn beta in Hu2, Hf2. rewrite header_draws_one in Hu2.
  rewrite (keeps_header same_files same_files_stable _ _ _) in Hf2.
  cbn [snd uids fs set_log] in Hu2, Hf2.
  unfold open_rows in Ho. rewrite <- Hf2 in Ho.
  destruct (fs w !! csv_file_path) as [raw|]; [|discriminate Ho].
  injection Ho as Hevs Hw3. subst evs w3. exists raw. split; [reflexivity|].
  apply for_rows_counts in Hf as [Hn Hu4]. subst n. cbv zeta. split.
  - cbn [log set_log tell]. rewrite last_last. reflexivity.
  - cbn [uids set_log]. rewrite Hu4, <- Hu2. lia.
Qed.

Lemma generate_xml_returns {A} output_file (body : M A) a w w' :
  preserves appended body ->
  generate_xml xf_refuses cfg_namespaces writable render output_file body w = (Ok a, w') ->
  writable output_file = true
  /\ exists rdf inner,
       dict_get (namespaces cfg_namespaces) "rdf" = Some rdf
       /\ xf w' = Declaration
                  :: StartElement (clark rdf "RDF") [] (namespaces cfg_namespaces)
                  :: inner ++ [EndElement (clark rdf "RDF")]
       /\ fs w' !! output_file = Some (render (xf w')).
Proof.
  intros Hbody. unfold generate_xml.
  destruct (writable output_file); cbn [negb]; [|discriminate].
  unfold finally, World.mbind, emit, ns.
  destruct (dict_get (namespaces cfg_namespaces) "rdf") as [rdf|];
    [|discriminate].
  unfold ret, element, World.mbind, request, emit, finally.
  cbn [xf set_xf set_fs fs app].
  destruct (xf_refuses _ _); [discriminate|].
  match goal with
  | |- context [body ?w1] =>
      pose proof (Hbody w1) as [inner Hx]; destruct (body w1) as [r w2]
  end.
  cbn [snd xf set_xf set_fs fs] in *.
  intros [= -> <-]. split; [reflexivity|]. exists rdf, inner.
  split; [reflexivity|]. cbn [xf fs set_fs set_xf]. rewrite Hx. split.
  - reflexivity.
  - rewrite lookup_insert_eq. reflexivity.
Qed.

(** X24.  When processing a file returns [True], the output file holds the
    pretty-printed form of the document the writer was told: the
    declaration, then one [RDF] element opened with the configured
    namespaces; the output could be opened, the [rdf] namespace is
    configured, and the last thing logged is that the file was saved. *)
Theorem success_leaves_the_formatted_document
    (folder_uid csv_file_path xml_file_path : string) (logger : Logger)
    (w w' : world) :
  process folder_uid csv_file_path xml_file_path logger w = (Ok true, w') ->
  writable xml_file_path = true
  /\ exists rdf inner out,
       dict_get (namespaces cfg_namespaces) "rdf" = Some rdf
       /\ xf w' = Declaration
                  :: StartElement (clark rdf "RDF") [] (namespaces cfg_namespaces)
                  :: inner ++ [EndElement (clark rdf "RDF")]
       /\ pretty_bytes xml_parse xml_write (render (xf w')) = Some out
       /\ fs w' !! xml_file_path = Some out
       /\ List.last (log w') (mkRecord logger INFO XmlStart)
          = mkRecord logger INFO (XmlSaved xml_file_path).
Proof.
  unfold process_csv_file_stream. intros H.
  apply mbind_ok_inv in H as (u & w1 & Hs & H). injection Hs as Hw1. subst w1.
  apply mbind_ok_inv in H as (detected & w2 & _ & H).
  destruct detected as [encoding|]; [|discriminate H].
  unfold try_except in H.
  destruct (conversion folder_uid csv_file_path xml_file_path encoding logger w2)
    as [[b|e] w3] eqn:Hc; [|discriminate H].
  injection H as Hb Hw3. subst b w3. unfold convert in Hc.
  apply mbind_ok_inv in Hc as (u1 & w3 & Hs & Hc). injection Hs as Hw3. subst w3.
  apply mbind_ok_inv in Hc as (u2 & w4 & Hg & Hc).
  apply mbind_ok_inv in Hc as (u3 & w5 & Hs & Hc). injection Hs as Hw5. subst w5.
  apply mbind_ok_inv in Hc as (u4 & w6 & Hp & Hc).
  apply mbind_ok_inv in Hc as (u5 & w7 & Hs & Hc). injection Hs as Hw7. subst w7.
  injection Hc as Hw'. subst w'.
  apply generate_xml_returns in Hg as (Hw & rdf & inner & Hrdf & Hx & Hf);
    [|apply keeps_content, appended_stable].
  split; [exact Hw|]. exists rdf, inner.
  unfold format_xml_pretty in Hp. cbn [fs set_log] in Hp. rewrite Hf in Hp.
  destruct (pretty_bytes xml_parse xml_write (render (xf w4))) as [out|] eqn:Hpb;
    [|discriminate Hp].
  injection Hp as Hw6. subst w6. exists out.
  cbn [xf fs log set_log set_fs]. split; [exact Hrdf|]. split; [exact Hx|].
  split; [exact Hpb|]. split; [apply lookup_insert_eq|].
  cbn [tell]. apply last_last.
Qed.
End ProcessorMore.

Lemma batch_touches_only_its_outputs_witness :
  fs (Samples.batch ["one.csv"] Samples.three_files).2 !! "d/two.csv"
  = Some Samples.bad_csv.
Proof.
  unfold Samples.batch.
  rewrite batch_touches_only_its_outputs; [reflexivity|].
  intros f Hf. apply list_elem_of_In in Hf. destruct Hf as [<-|[]].
  vm_compute. discriminate.
Defined.

Lemma batch_never_changes_a_csv_file_witness :
  fs (Samples.batch ["one.csv"; "two.csv"] Samples.three_files).2 !! "d/one.csv"
  = Some Samples.good_csv.
Proof.
  unfold Samples.batch.
  rewrite (batch_never_changes_a_csv_file Samples.xf_refuses
             Samples.decode_strict Samples.decode_replace
             Samples.csv_reader_lines Samples.csv_reader_error Samples.uuid4
             Samples.now Samples.writable Samples.render Samples.xml_parse
             Samples.xml_write Samples.chardet_detect Samples.Path_join ";"
             Samples.namespaces None None None Samples.role_template
             Samples.datagroup_template [] ["user_uid"] "1.0.0" "Access"
             "folder" "d" ["one.csv"; "two.csv"] (fun name => name)
             Samples.three_files "d/one.csv").
  - reflexivity.
  - intros s. apply endswith_spec. exists (String "d" (String "/" s)).
    reflexivity.
  - vm_compute. reflexivity.
Defined.

Lemma unopened_files_are_reported_witness :
  (process_csv_file_stream Samples.xf_refuses Samples.decode_strict Samples.decode_replace
     Samples.csv_reader_lines Samples.csv_reader_error Samples.uuid4 Samples.now Samples.writable
     Samples.render Samples.xml_parse Samples.xml_write Samples.chardet_detect
     ";" Samples.namespaces None None None Samples.role_template
     Samples.datagroup_template [] ["user_uid"] "1.0.0" "Access"
     "folder" "d/none.csv" "d/none.xml" "log" Samples.three_files).1
  = Ok false.
Proof.
  rewrite (proj1 (unopened_files_are_reported _ _ _ _ _ _ _ _ _ _ _ _ _ _ _ _
                    _ _ _ _ _ _ _ _ _ _ _ _)); reflexivity.
Defined.

Lemma conversion_ignores_previous_output_witness :
  convert Samples.xf_refuses Samples.decode_strict Samples.decode_replace
    Samples.csv_reader_lines Samples.csv_reader_error Samples.uuid4 Samples.now Samples.writable
    Samples.render Samples.xml_parse Samples.xml_write
    ";" Samples.namespaces None None None Samples.role_template
    Samples.datagroup_template [] ["user_uid"] "1.0.0" "Access"
    "folder" "in.csv" "in.csv" "ascii" "log"
    (set_fs (<["in.csv" := Samples.good_csv]> (fs Samples.w0)) Samples.w0)
  = convert Samples.xf_refuses Samples.decode_strict Samples.decode_replace
      Samples.csv_reader_lines Samples.csv_reader_error Samples.uuid4 Samples.now Samples.writable
      Samples.render Samples.xml_parse Samples.xml_write
      ";" Samples.namespaces None None None Samples.role_template
      Samples.datagroup_template [] ["user_uid"] "1.0.0" "Access"
      "folder" "in.csv" "in.csv" "ascii" "log"
      (set_fs (<["in.csv" := []]> (fs Samples.w0)) Samples.w0).
Proof.
  apply conversion_ignores_previous_output. reflexivity.
Defined.

Lemma every_yielded_row_becomes_a_role_witness :
  let run :=
    generate_content Samples.xf_refuses Samples.decode_strict Samples.decode_replace
      Samples.csv_reader_lines Samples.csv_reader_error Samples.uuid4 Samples.now ";"
      Samples.namespaces None None None Samples.role_template
      Samples.datagroup_template [] ["user_uid"] "1.0.0" "Access"
      "folder" "d/one.csv" "ascii" "log"
      (Samples.in_rdf Samples.three_files) in
  List.last (log run.2) (mkRecord "log" INFO AddingFullModel)
  = mkRecord "log" INFO (RolesAdded 1)
  /\ uids run.2 = 5.
Proof.
  cbv zeta.
  match goal with
  | |- context [uids (?m ?w).2] =>
      assert (Hrun : m w = (Ok tt, (m w).2)) by (vm_compute; reflexivity);
      apply every_yielded_row_becomes_a_role in Hrun
        as (raw & Hraw & Hlast & Hu)
  end.
  injection Hraw as <-. split.
  - refine (eq_trans Hlast _). vm_compute. reflexivity.
  - refine (eq_trans Hu _). vm_compute. reflexivity.
Defined.

Lemma success_leaves_the_formatted_document_witness :
  let run :=
    process_csv_file_stream Samples.xf_refuses Samples.decode_strict Samples.decode_replace
      Samples.csv_reader_lines Samples.csv_reader_error Samples.uuid4 Samples.now Samples.writable
      Samples.render Samples.xml_parse Samples.xml_write Samples.chardet_detect
      ";" Samples.namespaces None None None Samples.role_template
      Samples.datagroup_template [] ["user_uid"] "1.0.0" "Access"
      "folder" "d/one.csv" "d/one.xml" "log" Samples.three_files in
  exists out,
    pretty_bytes Samples.xml_parse Samples.xml_write (Samples.render (xf run.2))
    = Some out
    /\ fs run.2 !! "d/one.xml" = Some out.
Proof.
  cbv zeta.
  match goal with
  | |- context [xf (?m ?w).2] =>
      assert (Hrun : m w = (Ok true, (m w).2)) by (vm_compute; reflexivity);
      apply success_leaves_the_formatted_document in Hrun
        as (_ & rdf & inner & out & _ & _ & Hpb & Hfs & _)
  end.
  exists out. split; [exact Hpb|exact Hfs].
Defined.

(** ** The files of a directory *)

Section ListingFacts.
Variable os_listdir : string -> option (list string).
Variable cfg_exclude_files : list string.

(** X25.  A directory that cannot be listed raises.  Otherwise the listing is
    returned without the names that do not end in [.csv] and without the
    excluded ones, both compared in lower case; the names kept are in the
    order and spelling of the listing.  The configured exclusions count only
    when no list is given: an empty list excludes nothing. *)
Theorem listing_selects_csv_names
    (directory : string) (exclude_files : option (list string)) :
  let excluded := default cfg_exclude_files exclude_files in
  match os_listdir directory with
  | None =>
      get_csv_files os_listdir cfg_exclude_files directory exclude_files
      = Raise OSError
  | Some names =>
      exists found,
        get_csv_files os_listdir cfg_exclude_files directory exclude_files
        = Ok found
        /\ found `sublist_of` names
        /\ forall f, f ∈ found <->
             f ∈ names /\ endswith ".csv" (lower f) = true
             /\ forall x, x ∈ excluded -> lower x <> lower f
  end.
Proof.
  cbv zeta. unfold get_csv_files.
  destruct (os_listdir directory) as [names|]; [|reflexivity].
  eexists. split; [reflexivity|]. split; [apply sublist_filter|].
  intros f. rewrite list_elem_of_filter.
  assert (Hex : forall l : list string,
            lower f ∉ map lower l <-> forall x, x ∈ l -> lower x <> lower f).
  { intros l. split.
    - intros Hn x Hx Heq. apply Hn. rewrite <- Heq.
      apply list_elem_of_fmap. exists x. split; [reflexivity|exact Hx].
    - intros Hall Hin. apply list_elem_of_fmap in Hin as (x & Heq & Hx).
      apply (Hall x Hx). symmetry. exact Heq. }
  destruct exclude_files as [given|]; cbn [default from_option id];
    rewrite Hex; tauto.
Qed.
End ListingFacts.

(** ** Stems *)

(** X26.  For a name without a slash made of a base, a dot and an extension, the
    base not empty and the extension neither empty nor holding a dot, the
    stem is the base, so the output of [base.csv] is named [base.xml].  A
    name without a dot is its own stem. *)
Theorem stem_drops_the_last_extension (base ext : string) :
  no_char "/" base = true -> no_char "/" ext = true ->
  no_char "." ext = true ->
  base <> EmptyString -> ext <> EmptyString ->
  stem (base +:+ "." +:+ ext) = base
  /\ (no_char "." base = true -> base <> "." -> stem base = base).
Proof. exact (stem_of_name base ext). Qed.

Lemma stem_drops_the_last_extension_witness :
  stem "Roles.2024.csv" = "Roles.2024".
Proof.
  exact (proj1 (stem_drops_the_last_extension "Roles.2024" "csv"
                  eq_refl eq_refl eq_refl
                  ltac:(discriminate) ltac:(discriminate))).
Defined.

Lemma entity_call_draws_four_identifiers_witness :
  let w' := (add_role_structure Samples.xf_refuses Samples.namespaces Samples.role_template
               Samples.datagroup_template [] Samples.uuid4
               [("user_uid", Some "u-1")] "folder" None Samples.w0).2 in
  uids w' = 4 /\ log w' = [].
Proof.
  cbv zeta.
  destruct (entity_call_draws_four_identifiers Samples.xf_refuses
              Samples.namespaces
              Samples.role_template Samples.datagroup_template []
              Samples.uuid4 [("user_uid", Some "u-1")] "folder" None
              Samples.w0) as (Hu & _ & _ & _ & _ & Hlog).
  split; [exact Hu|exact (Hlog eq_refl)].
Defined.

Lemma processing_touches_only_its_output_witness :
  fs (process_csv_file_stream Samples.xf_refuses Samples.decode_strict Samples.decode_replace
        Samples.csv_reader_lines Samples.csv_reader_error Samples.uuid4 Samples.now Samples.writable
        Samples.render Samples.xml_parse Samples.xml_write
        Samples.chardet_detect ";" Samples.namespaces None None None
        Samples.role_template Samples.datagroup_template [] ["user_uid"]
        "1.0.0" "Access" "folder" "d/one.csv" "d/one.xml" "log"
        Samples.three_files).2 !! "d/one.csv"
  = Some Samples.good_csv.
Proof.
  rewrite (proj2 (processing_touches_only_its_output _ _ _ _ _ _ _ _ _ _ _ _
                    _ _ _ _ _ _ _ _ _ _ _ _ _ _ _ _));
    [reflexivity|discriminate].
Defined.

Lemma listing_selects_csv_names_witness :
  exists found,
    get_csv_files (fun _ => Some ["a.csv"; "Sample.CSV"; "b.txt"; "C.CSV"])
                  ["sample.csv"] "d" None = Ok found
    /\ "C.CSV" ∈ found /\ "Sample.CSV" ∉ found.
Proof.
  destruct (listing_selects_csv_names
              (fun _ => Some ["a.csv"; "Sample.CSV"; "b.txt"; "C.CSV"])
              ["sample.csv"] "d" None) as (found & Hget & _ & Hiff).
  exists found. split; [exact Hget|]. split.
  - apply Hiff. split; [|split].
    + apply list_elem_of_In. cbn. tauto.
    + vm_compute. reflexivity.
    + intros x Hx. apply list_elem_of_In in Hx. destruct Hx as [<-|[]].
      vm_compute. discriminate.
  - intros Hin. apply Hiff in Hin as (_ & _ & Hex).
    apply (Hex "sample.csv"); [apply list_elem_of_here|].
    vm_compute. reflexivity.
Defined.

(** X27.  On a file that is decoded and none of whose lines has more cells
    than the header, for name templates made of text and bare field names
    and as long as the writer takes what the calls ask for, a call for a
    row has the same outcome on every row the reader yields: it returns
    for all of them or fails for all of them, with the same exception,
    whatever the folder, the logger and the world at each call. *)
Theorem rows_of_a_file_fail_together
    (decode_strict : string -> list Byte.byte -> result string)
    (decode_replace : string -> list Byte.byte -> string)
    (csv_reader_lines : string -> string -> list (list string))
    (csv_reader_error : string -> string -> option exn)
    (default_delimiter : string)
    (xf_refuses : list xml_event -> xml_event -> option exn)
    (cfg_namespaces : option (list (string * string)))
    (cfg_role_template cfg_datagroup_template : template)
    (cfg_fixed_resources : list (string * string)) (uuid4 : nat -> string)
    (path : string) (raw : list Byte.byte) (encoding : string)
    (required : list string) (logger : option Logger)
    (delimiter : option string)
    (recs : list record) (content used : string)
    (header : list string) (lines : list (list string)) :
  let run := add_role_structure xf_refuses cfg_namespaces cfg_role_template
               cfg_datagroup_template cfg_fixed_resources uuid4 in
  let takes := writer_takes xf_refuses cfg_namespaces cfg_role_template
                 cfg_datagroup_template cfg_fixed_resources uuid4 in
  plain cfg_role_template = true -> plain cfg_datagroup_template = true ->
  read_content decode_strict decode_replace logger raw encoding
  = (recs, Ok (content, used)) ->
  csv_reader_lines (default default_delimiter delimiter) content
  = header :: lines ->
  Forall (fun cells => length cells <= length header) lines ->
  forall item1 item2 folder1 folder2 logger1 logger2 w1 w2,
    item1 ∈ yields (iter_csv_rows decode_strict decode_replace csv_reader_lines
                      csv_reader_error
                      default_delimiter path raw encoding required logger
                      delimiter) ->
    item2 ∈ yields (iter_csv_rows decode_strict decode_replace csv_reader_lines
                      csv_reader_error
                      default_delimiter path raw encoding required logger
                      delimiter) ->
    takes item1.2 folder1 w1 -> takes item2.2 folder2 w2 ->
    (run item1.2 folder1 logger1 w1).1 = (run item2.2 folder2 logger2 w2).1.
Proof.
  cbv zeta. intros Hpr Hpd Hread Hlines Hfit item1 item2 folder1 folder2
    logger1 logger2 w1 w2 H1 H2 Ht1 Ht2.
  pose proof (yielded_rows_keys decode_strict decode_replace csv_reader_lines
                csv_reader_error
                default_delimiter path raw encoding required logger delimiter
                recs content used header lines Hread Hlines Hfit) as Hkeys.
  rewrite Forall_forall in Hkeys.
  apply entity_outcome_by_keys; try assumption.
  exact (eq_trans (Hkeys item1 H1) (eq_sym (Hkeys item2 H2))).
Qed.

Lemma rows_of_a_file_fail_together_witness :
  let rows := [("org_name", Some "Finance");
               ("user_uid", Some "3fa85f64-5717-4562-b3fc-2c963f66afa6")] in
  let other := [("org_name", Some "Sales"); ("user_uid", Some "not-a-uuid")] in
  (add_role_structure Samples.xf_refuses Samples.namespaces Samples.role_template
     Samples.datagroup_template [] Samples.uuid4 rows "folder" None
     (Samples.in_rdf Samples.w0)).1
  = (add_role_structure Samples.xf_refuses Samples.namespaces Samples.role_template
       Samples.datagroup_template [] Samples.uuid4 other "folder" None
       (Samples.in_rdf Samples.w0)).1.
Proof.
  cbv zeta.
  apply (rows_of_a_file_fail_together
           Samples.decode_strict Samples.decode_replace
           Samples.csv_reader_lines Samples.csv_reader_error ";"
           Samples.xf_refuses Samples.namespaces
           Samples.role_template Samples.datagroup_template [] Samples.uuid4
           "in.csv" Samples.good_csv "utf-8" [] (Some "log") None
           [mkRecord "log" INFO (OpenedWith "utf-8")]
           (Samples.chars_of Samples.good_csv) "utf-8"
           ["org_name"; "user_uid"]
           [["Finance"; "3fa85f64-5717-4562-b3fc-2c963f66afa6"];
            ["Sales"; "not-a-uuid"]]
           eq_refl eq_refl
           ltac:(vm_compute; reflexivity) ltac:(vm_compute; reflexivity)
           ltac:(repeat constructor)
           (2, [("org_name", Some "Finance");
                ("user_uid", Some "3fa85f64-5717-4562-b3fc-2c963f66afa6")])
           (3, [("org_name", Some "Sales"); ("user_uid", Some "not-a-uuid")])).
  - vm_compute. apply list_elem_of_here.
  - vm_compute. apply list_elem_of_further, list_elem_of_here.
  - intros cim rdf rn dn [= <-] [= <-] [= <-] [= <-]. vm_compute. reflexivity.
  - intros cim rdf rn dn [= <-] [= <-] [= <-] [= <-]. vm_compute. reflexivity.
Defined.
